(** * amnezia-config-reader: a shallow embedding of [main.go]

    The program turns a subscription link into a client configuration:
    [decode] (base64url, four-byte header, zlib), [decodeAndParse],
    [GenerateX25519KeyPair], [sendPostRequest] and the assembly in [main].

    Go strings and byte slices are lists of 8-bit characters.  A Go call
    either returns a value, returns a non-nil [error], or panics; the three
    outcomes are the constructors of [result].  The library functions the
    program calls (strings, encoding/base64, compress/zlib, encoding/json,
    x/crypto/curve25519, google/uuid) are modelled in modules carrying the
    package names; everything the process reads from outside (command line,
    random source, HTTP server) is a field of [World]. *)

From Stdlib Require Import ZArith List Ascii String Bool Lia.
Import ListNotations.
Open Scope Z_scope.
Open Scope list_scope.

#[local] Set Warnings "-register-all,-abstract-large-number".

(** ** Go values *)

Definition gostring := list ascii.

Definition lit (s : string) : gostring := list_ascii_of_string s.

Definition byte_val (c : ascii) : Z := Z.of_N (N_of_ascii c).

Definition byte_of (z : Z) : ascii := ascii_of_N (Z.to_N (z mod 256)).

(** [l[i] = f(l[i])] for an index within the slice. *)
Definition modify (i : nat) (f : ascii -> ascii) (l : gostring) : gostring :=
  firstn i l ++ match skipn i l with
                | c :: r => f c :: r
                | [] => []
                end.

Definition str_eqb (a b : gostring) : bool :=
  if list_eq_dec ascii_dec a b then true else false.

(** Errors created by the libraries.  Their texts are not part of any
    property of the program, so they are kept as tags. *)
Inductive lib_error : Type :=
| base64_CorruptInputError
| io_ErrUnexpectedEOF
| zlib_ErrHeader
| zlib_ErrDictionary
| zlib_ErrChecksum
| flate_error            (* flate.CorruptInputError or an unexpected EOF *)
| json_SyntaxError
| json_UnmarshalTypeError
| curve25519_error
| rand_error
| url_error
| transport_error
| read_error.

(** An [error] value: [fmt.Errorf] with a constant text, or with a text and
    the [%v] of another error, or a library error. *)
Inductive error : Type :=
| ErrText (msg : gostring)
| ErrWrap (msg : gostring) (cause : error)
| ErrLib (e : lib_error).

(** Run-time panics the program can raise. *)
Inductive panic : Type :=
| SliceBoundsOutOfRange (low len : nat)
| IndexOutOfRange (index len : nat)
| InterfaceConversion
| PanicError (e : lib_error).

Inductive result (A : Type) : Type :=
| Ok (a : A)
| Err (e : error)
| Panic (p : panic).

Arguments Ok {A} a.
Arguments Err {A} e.
Arguments Panic {A} p.

Definition bind {A B} (r : result A) (k : A -> result B) : result B :=
  match r with
  | Ok a => k a
  | Err e => Err e
  | Panic p => Panic p
  end.

(** [wrap msg r]: the pattern [if err != nil { return nil, fmt.Errorf(msg+"%v", err) }]. *)
Definition wrap {A} (msg : string) (r : result A) : result A :=
  match r with
  | Err e => Err (ErrWrap (lit msg) e)
  | other => other
  end.

Notation "x <- c1 ;; c2" := (bind c1 (fun x => c2))
  (at level 61, c1 at next level, right associativity).

(** ** unicode/utf8 *)
Module utf8.

Definition RuneError : Z := 65533.

Definition cont (lo hi : Z) (c : ascii) : bool :=
  (lo <=? byte_val c) && (byte_val c <=? hi).

Definition low6 (c : ascii) : Z := Z.land (byte_val c) 63.

(** [DecodeRune p]: the first rune of [p] and its width in bytes; an
    ill-formed sequence gives [(RuneError, 1)], the empty input
    [(RuneError, 0)]. *)
Definition DecodeRune (p : gostring) : Z * nat :=
  match p with
  | [] => (RuneError, 0%nat)
  | c0 :: r =>
    let b0 := byte_val c0 in
    if b0 <? 128 then (b0, 1%nat)
    else if (194 <=? b0) && (b0 <=? 223) then
      match r with
      | c1 :: _ =>
        if cont 128 191 c1
        then (Z.lor (Z.shiftl (Z.land b0 31) 6) (low6 c1), 2%nat)
        else (RuneError, 1%nat)
      | _ => (RuneError, 1%nat)
      end
    else if (224 <=? b0) && (b0 <=? 239) then
      let lo := if b0 =? 224 then 160 else 128 in
      let hi := if b0 =? 237 then 159 else 191 in
      match r with
      | c1 :: c2 :: _ =>
        if cont lo hi c1 && cont 128 191 c2
        then (Z.lor (Z.shiftl (Z.land b0 15) 12)
                (Z.lor (Z.shiftl (low6 c1) 6) (low6 c2)), 3%nat)
        else (RuneError, 1%nat)
      | _ => (RuneError, 1%nat)
      end
    else if (240 <=? b0) && (b0 <=? 244) then
      let lo := if b0 =? 240 then 144 else 128 in
      let hi := if b0 =? 244 then 143 else 191 in
      match r with
      | c1 :: c2 :: c3 :: _ =>
        if cont lo hi c1 && cont 128 191 c2 && cont 128 191 c3
        then (Z.lor (Z.shiftl (Z.land b0 7) 18)
                (Z.lor (Z.shiftl (low6 c1) 12)
                   (Z.lor (Z.shiftl (low6 c2) 6) (low6 c3))), 4%nat)
        else (RuneError, 1%nat)
      | _ => (RuneError, 1%nat)
      end
    else (RuneError, 1%nat)
  end.

(** [EncodeRune r]: the UTF-8 bytes of a valid scalar value; surrogates and
    values out of range are written as U+FFFD. *)
Definition EncodeRune (r : Z) : gostring :=
  let r := if (r <? 0) || (1114111 <? r) || ((55296 <=? r) && (r <=? 57343))
           then RuneError else r in
  if r <? 128 then [byte_of r]
  else if r <? 2048 then
    [byte_of (Z.lor 192 (Z.shiftr r 6)); byte_of (Z.lor 128 (Z.land r 63))]
  else if r <? 65536 then
    [byte_of (Z.lor 224 (Z.shiftr r 12));
     byte_of (Z.lor 128 (Z.land (Z.shiftr r 6) 63));
     byte_of (Z.lor 128 (Z.land r 63))]
  else
    [byte_of (Z.lor 240 (Z.shiftr r 18));
     byte_of (Z.lor 128 (Z.land (Z.shiftr r 12) 63));
     byte_of (Z.lor 128 (Z.land (Z.shiftr r 6) 63));
     byte_of (Z.lor 128 (Z.land r 63))].

Fixpoint RuneCount_fuel (fuel : nat) (s : gostring) : Z :=
  match fuel with
  | O => 0
  | S f =>
    match s with
    | [] => 0
    | _ => 1 + RuneCount_fuel f (skipn (snd (DecodeRune s)) s)
    end
  end.

Definition RuneCountInString (s : gostring) : Z :=
  RuneCount_fuel (List.length s) s.

End utf8.

(** ** strings *)
Module strings.

Fixpoint HasPrefix (s prefix : gostring) : bool :=
  match prefix with
  | [] => true
  | p :: ps =>
    match s with
    | [] => false
    | c :: cs => Ascii.eqb c p && HasPrefix cs ps
    end
  end.

(** [Index s substr]: the index of the first instance of [substr] in [s],
    or -1. *)
Fixpoint Index (s substr : gostring) : Z :=
  if HasPrefix s substr then 0
  else match s with
       | [] => -1
       | _ :: s' => let i := Index s' substr in if i <? 0 then -1 else i + 1
       end.

(** The loop of [Count] for a non-empty [substr]: find, count, cut. *)
Fixpoint Count_loop (fuel : nat) (s substr : gostring) (n : Z) : Z :=
  match fuel with
  | O => n
  | S f =>
    let i := Index s substr in
    if i =? -1 then n
    else Count_loop f (skipn (Z.to_nat i + List.length substr) s) substr (n + 1)
  end.

Definition Count (s substr : gostring) : Z :=
  match substr with
  | [] => utf8.RuneCountInString s + 1
  | _ => Count_loop (S (List.length s)) s substr 0
  end.

(** The body of the [for i := 0; i < n; i++] loop of [Replace]: [rest] is
    [s[start:]], [first] tells whether [i = 0]; the value is what the
    builder receives from here on, the final [s[start:]] included. *)
Fixpoint Replace_loop (n : nat) (first : bool) (rest old new : gostring)
  : gostring :=
  match n with
  | O => rest
  | S n' =>
    let j := match old with
             | [] => if first then 0%nat else snd (utf8.DecodeRune rest)
             | _ => Z.to_nat (Index rest old)
             end in
    firstn j rest ++ new
      ++ Replace_loop n' false (skipn (j + List.length old) rest) old new
  end.

(** [Replace s old new n]: [s] with the first [n] non-overlapping instances
    of [old] replaced by [new]; all of them when [n < 0]. *)
Definition Replace (s old new : gostring) (n : Z) : gostring :=
  if str_eqb old new || (n =? 0) then s
  else
    let m := Count s old in
    if m =? 0 then s
    else
      let n := if (n <? 0) || (m <? n) then m else n in
      Replace_loop (Z.to_nat n) true s old new.

Definition Contains (s substr : gostring) : bool := 0 <=? Index s substr.

End strings.


(** ** encoding/base64 *)
Module base64.

Definition encodeStd : gostring :=
  lit "ABCDEFGHIJKLMNOPQRSTUVWXYZabcdefghijklmnopqrstuvwxyz0123456789+/".

Definition encodeURL : gostring :=
  lit "ABCDEFGHIJKLMNOPQRSTUVWXYZabcdefghijklmnopqrstuvwxyz0123456789-_".

Definition padChar : ascii := "="%char.

(** [decodeMap alphabet c]: the 6-bit value of [c], or [None] where the
    library's table holds 0xff. *)
Fixpoint decodeMap (alphabet : gostring) (c : ascii) : option Z :=
  match alphabet with
  | [] => None
  | a :: rest =>
    if Ascii.eqb a c then Some 0
    else match decodeMap rest c with
         | Some i => Some (i + 1)
         | None => None
         end
  end.

Definition encodeChar (alphabet : gostring) (v : Z) : ascii :=
  nth (Z.to_nat v) alphabet padChar.

(** [EncodeToString] of a padded encoding: three bytes give four
    characters, a last group of one or two bytes is padded with [=]. *)
Fixpoint EncodeToString (alphabet : gostring) (src : gostring) : gostring :=
  match src with
  | [] => []
  | [a] =>
    let v := Z.shiftl (byte_val a) 16 in
    [encodeChar alphabet (Z.land (Z.shiftr v 18) 63);
     encodeChar alphabet (Z.land (Z.shiftr v 12) 63); padChar; padChar]
  | [a; b] =>
    let v := Z.lor (Z.shiftl (byte_val a) 16) (Z.shiftl (byte_val b) 8) in
    [encodeChar alphabet (Z.land (Z.shiftr v 18) 63);
     encodeChar alphabet (Z.land (Z.shiftr v 12) 63);
     encodeChar alphabet (Z.land (Z.shiftr v 6) 63); padChar]
  | a :: b :: c :: rest =>
    let v := Z.lor (Z.shiftl (byte_val a) 16)
               (Z.lor (Z.shiftl (byte_val b) 8) (byte_val c)) in
    encodeChar alphabet (Z.land (Z.shiftr v 18) 63)
    :: encodeChar alphabet (Z.land (Z.shiftr v 12) 63)
    :: encodeChar alphabet (Z.land (Z.shiftr v 6) 63)
    :: encodeChar alphabet (Z.land v 63)
    :: EncodeToString alphabet rest
  end.

(** The decoder skips carriage returns and line feeds wherever they are. *)
Definition is_newline (c : ascii) : bool :=
  Ascii.eqb c "010"%char || Ascii.eqb c "013"%char.

Definition quantum (v0 v1 v2 v3 : Z) : Z :=
  Z.lor (Z.shiftl v0 18) (Z.lor (Z.shiftl v1 12) (Z.lor (Z.shiftl v2 6) v3)).

(** Quanta of four characters; padding is required in the last quantum and
    nothing may follow it; the unused low bits of a padded quantum are not
    checked (the encoding is not strict).  [src] has no newline left. *)
Fixpoint decodeQuanta (alphabet src : gostring) : option gostring :=
  match src with
  | [] => Some []
  | c0 :: c1 :: c2 :: c3 :: rest =>
    match decodeMap alphabet c0, decodeMap alphabet c1 with
    | Some v0, Some v1 =>
      match decodeMap alphabet c2, decodeMap alphabet c3 with
      | Some v2, Some v3 =>
        let v := quantum v0 v1 v2 v3 in
        match decodeQuanta alphabet rest with
        | Some out =>
          Some (byte_of (Z.shiftr v 16) :: byte_of (Z.shiftr v 8)
                  :: byte_of v :: out)
        | None => None
        end
      | Some v2, None =>
        if Ascii.eqb c3 padChar && (match rest with [] => true | _ => false end)
        then let v := quantum v0 v1 v2 0 in
             Some [byte_of (Z.shiftr v 16); byte_of (Z.shiftr v 8)]
        else None
      | None, _ =>
        if Ascii.eqb c2 padChar && Ascii.eqb c3 padChar
           && (match rest with [] => true | _ => false end)
        then let v := quantum v0 v1 0 0 in Some [byte_of (Z.shiftr v 16)]
        else None
      end
    | _, _ => None
    end
  | _ => None
  end.

Definition DecodeString (alphabet : gostring) (s : gostring) : result gostring :=
  match decodeQuanta alphabet (filter (fun c => negb (is_newline c)) s) with
  | Some out => Ok out
  | None => Err (ErrLib base64_CorruptInputError)
  end.

End base64.

(** ** hash/adler32 *)
Module adler32.

Definition step (st : Z * Z) (c : ascii) : Z * Z :=
  let a := (fst st + byte_val c) mod 65521 in
  (a, (snd st + a) mod 65521).

Definition Checksum (p : gostring) : Z :=
  let st := fold_left step p (1, 0) in
  Z.lor (Z.shiftl (snd st) 16) (fst st).

End adler32.

(** ** compress/flate: the DEFLATE decompressor (RFC 1951)

    The input is read bit by bit, least significant bit of each byte
    first; [used] counts the bits taken, so that the caller knows at which
    byte the stream ended.  [None] stands for the decompressor's error
    (corrupt input or input that ends too early). *)
Module flate.

Definition maxNumLit : nat := 286.
Definition maxNumDist : nat := 30.

Record reader : Type := { avail : list bool; used : nat }.

Definition bits_of_byte (c : ascii) : list bool :=
  match c with
  | Ascii b0 b1 b2 b3 b4 b5 b6 b7 => [b0; b1; b2; b3; b4; b5; b6; b7]
  end.

Definition NewReader (src : gostring) : reader :=
  {| avail := flat_map bits_of_byte src; used := 0 |}.

Definition read_bit (r : reader) : option (Z * reader) :=
  match avail r with
  | [] => None
  | b :: rest =>
    Some (if b then 1 else 0, {| avail := rest; used := S (used r) |})
  end.

(** [n] bits as a number whose least significant bit is read first. *)
Fixpoint read_bits (n : nat) (r : reader) : option (Z * reader) :=
  match n with
  | O => Some (0, r)
  | S n' =>
    match read_bit r with
    | None => None
    | Some (b, r1) =>
      match read_bits n' r1 with
      | None => None
      | Some (v, r2) => Some (b + 2 * v, r2)
      end
    end
  end.

(** Drops the bits left in the current byte. *)
Definition align (r : reader) : reader :=
  let k := ((8 - used r mod 8) mod 8)%nat in
  {| avail := skipn k (avail r); used := (used r + k)%nat |}.

Fixpoint read_bytes (n : nat) (r : reader) : option (gostring * reader) :=
  match n with
  | O => Some ([], r)
  | S n' =>
    match read_bits 8 r with
    | None => None
    | Some (v, r1) =>
      match read_bytes n' r1 with
      | None => None
      | Some (out, r2) => Some (byte_of v :: out, r2)
      end
    end
  end.

(** A canonical Huffman code: how many codes there are of each length
    (index 0 unused) and the symbols ordered by length, then by value. *)
Record huffmanDecoder : Type := { counts : list Z; symbols : list nat }.

Definition maxCodeLen : nat := 15.

Definition count_of (lengths : list nat) (l : nat) : Z :=
  Z.of_nat (count_occ Nat.eq_dec lengths l).

Fixpoint symbols_with (l : nat) (i : nat) (lengths : list nat) : list nat :=
  match lengths with
  | [] => []
  | n :: rest =>
    if Nat.eqb n l then i :: symbols_with l (S i) rest
    else symbols_with l (S i) rest
  end.

(** [init lengths] fails unless the code is complete; an empty code and a
    single code of length one are accepted too. *)
Definition init (lengths : list nat) : option huffmanDecoder :=
  let max := list_max lengths in
  let h := {| counts := map (count_of lengths) (seq 0 (S maxCodeLen));
              symbols := flat_map (fun l => symbols_with l 0 lengths)
                           (seq 1 maxCodeLen) |} in
  if Nat.eqb max 0 then Some h
  else
    let code := fold_left (fun code l => 2 * code + count_of lengths l)
                  (seq 1 max) 0 in
    if (code =? 2 ^ Z.of_nat max) || ((code =? 1) && Nat.eqb max 1)
    then Some h else None.

(** Reads one symbol: one more bit per length until the bits read are a
    code of that length. *)
Fixpoint huffSym_loop (lens : list nat) (h : huffmanDecoder)
  (code first index : Z) (r : reader) : option (nat * reader) :=
  match lens with
  | [] => None
  | len :: lens' =>
    match read_bit r with
    | None => None
    | Some (b, r1) =>
      let code := code + b in
      let count := nth len (counts h) 0 in
      if code - count <? first
      then match nth_error (symbols h) (Z.to_nat (index + (code - first))) with
           | Some s => Some (s, r1)
           | None => None
           end
      else huffSym_loop lens' h (2 * code) (2 * (first + count))
             (index + count) r1
    end
  end.

Definition huffSym (h : huffmanDecoder) (r : reader) : option (nat * reader) :=
  huffSym_loop (seq 1 maxCodeLen) h 0 0 0 r.

Definition fixedLengths : list nat :=
  repeat 8%nat 144 ++ repeat 9%nat 112 ++ repeat 7%nat 24 ++ repeat 8%nat 8.

Definition codeOrder : list nat :=
  [16; 17; 18; 0; 8; 7; 9; 6; 10; 5; 11; 4; 12; 3; 13; 2; 14; 1; 15]%nat.

(** Length symbols 257..285: base length and number of extra bits. *)
Definition length_code (v : nat) : option (Z * nat) :=
  let z := Z.of_nat v in
  if (v <? 265)%nat then Some (z - (257 - 3), 0%nat)
  else if (v <? 269)%nat then Some (z * 2 - (265 * 2 - 11), 1%nat)
  else if (v <? 273)%nat then Some (z * 4 - (269 * 4 - 19), 2%nat)
  else if (v <? 277)%nat then Some (z * 8 - (273 * 8 - 35), 3%nat)
  else if (v <? 281)%nat then Some (z * 16 - (277 * 16 - 67), 4%nat)
  else if (v <? 285)%nat then Some (z * 32 - (281 * 32 - 131), 5%nat)
  else if (v <? maxNumLit)%nat then Some (258, 0%nat)
  else None.

(** Five bits of a fixed-code distance, most significant bit first. *)
Fixpoint read_bits_rev (n : nat) (acc : Z) (r : reader) : option (Z * reader) :=
  match n with
  | O => Some (acc, r)
  | S n' =>
    match read_bit r with
    | None => None
    | Some (b, r1) => read_bits_rev n' (2 * acc + b) r1
    end
  end.

Definition read_dist_symbol (hd : option huffmanDecoder) (r : reader)
  : option (nat * reader) :=
  match hd with
  | None =>
    match read_bits_rev 5 0 r with
    | Some (d, r1) => Some (Z.to_nat d, r1)
    | None => None
    end
  | Some h => huffSym h r
  end.

Definition read_dist (hd : option huffmanDecoder) (r : reader)
  : option (nat * reader) :=
  match read_dist_symbol hd r with
  | None => None
  | Some (d, r1) =>
    if (d <? 4)%nat then Some (S d, r1)
    else if (d <? maxNumDist)%nat then
      let nb := Nat.div (d - 2) 2 in
      match read_bits nb r1 with
      | None => None
      | Some (extra, r2) =>
        let hi := Z.shiftl (Z.land (Z.of_nat d) 1) (Z.of_nat nb) in
        Some (Z.to_nat (Z.shiftl 1 (Z.of_nat (nb + 1)) + 1 + (Z.lor hi extra)),
              r2)
      end
    else None
  end.

(** Copies [n] bytes from [dist] back; [out] is the output so far, last
    byte first. *)
Fixpoint copy_back (n : nat) (dist : nat) (out : gostring) : gostring :=
  match n with
  | O => out
  | S n' => copy_back n' dist (nth (dist - 1) out zero :: out)
  end.

(** The symbols of one compressed block, up to its end-of-block marker. *)
Fixpoint huffmanBlock (fuel : nat) (hl : huffmanDecoder)
  (hd : option huffmanDecoder) (r : reader) (out : gostring)
  : option (gostring * reader) :=
  match fuel with
  | O => None
  | S fuel' =>
    match huffSym hl r with
    | None => None
    | Some (v, r1) =>
      if (v <? 256)%nat
      then huffmanBlock fuel' hl hd r1 (ascii_of_nat v :: out)
      else if Nat.eqb v 256 then Some (out, r1)
      else
        match length_code v with
        | None => None
        | Some (base, n) =>
          match read_bits n r1 with
          | None => None
          | Some (extra, r2) =>
            match read_dist hd r2 with
            | None => None
            | Some (dist, r3) =>
              if (List.length out <? dist)%nat then None
              else huffmanBlock fuel' hl hd r3
                     (copy_back (Z.to_nat (base + extra)) dist out)
            end
          end
        end
    end
  end.

(** A stored block: LEN, its complement, LEN bytes. *)
Definition dataBlock (r : reader) (out : gostring)
  : option (gostring * reader) :=
  match read_bits 16 (align r) with
  | None => None
  | Some (n, r1) =>
    match read_bits 16 r1 with
    | None => None
    | Some (nn, r2) =>
      if nn =? Z.lxor n 65535 then
        match read_bytes (Z.to_nat n) r2 with
        | None => None
        | Some (data, r3) => Some (rev data ++ out, r3)
        end
      else None
    end
  end.

Fixpoint read_codebits (n : nat) (r : reader) : option (list Z * reader) :=
  match n with
  | O => Some ([], r)
  | S n' =>
    match read_bits 3 r with
    | None => None
    | Some (v, r1) =>
      match read_codebits n' r1 with
      | None => None
      | Some (vs, r2) => Some (v :: vs, r2)
      end
    end
  end.

(** [codebits[codeOrder[i]] = vs[i]], the others 0. *)
Definition place_codebits (vs : list Z) : list nat :=
  map (fun sym =>
         match find (fun p => Nat.eqb (fst p) sym) (combine codeOrder vs) with
         | Some p => Z.to_nat (snd p)
         | None => 0%nat
         end) (seq 0 19).

(** The code lengths of both alphabets; [acc] holds them last first. *)
Fixpoint read_lengths (fuel : nat) (h : huffmanDecoder) (n : nat)
  (acc : list nat) (r : reader) : option (list nat * reader) :=
  match fuel with
  | O => None
  | S fuel' =>
    if (n <=? List.length acc)%nat then Some (rev acc, r)
    else
      match huffSym h r with
      | None => None
      | Some (x, r1) =>
        if (x <? 16)%nat then read_lengths fuel' h n (x :: acc) r1
        else
          let spec :=
            match x with
            | 16%nat => match acc with
                        | [] => None
                        | b :: _ => Some (3, 2%nat, b)
                        end
            | 17%nat => Some (3, 3%nat, 0%nat)
            | 18%nat => Some (11, 7%nat, 0%nat)
            | _ => None
            end in
          match spec with
          | None => None
          | Some (rep, nb, b) =>
            match read_bits nb r1 with
            | None => None
            | Some (extra, r2) =>
              let rep := Z.to_nat (rep + extra) in
              if (n <? List.length acc + rep)%nat then None
              else read_lengths fuel' h n (repeat b rep ++ acc) r2
            end
          end
      end
  end.

Definition readHuffman (r : reader)
  : option (huffmanDecoder * huffmanDecoder * reader) :=
  match read_bits 5 r with
  | None => None
  | Some (hlit, r1) =>
    match read_bits 5 r1 with
    | None => None
    | Some (hdist, r2) =>
      match read_bits 4 r2 with
      | None => None
      | Some (hclen, r3) =>
        let nlit := Z.to_nat (hlit + 257) in
        let ndist := Z.to_nat (hdist + 1) in
        let nclen := Z.to_nat (hclen + 4) in
        if (maxNumLit <? nlit)%nat || (maxNumDist <? ndist)%nat then None
        else
          match read_codebits nclen r3 with
          | None => None
          | Some (vs, r4) =>
            match init (place_codebits vs) with
            | None => None
            | Some hc =>
              match read_lengths (S (nlit + ndist)) hc (nlit + ndist) [] r4 with
              | None => None
              | Some (bits, r5) =>
                match init (firstn nlit bits),
                      init (firstn ndist (skipn nlit bits)) with
                | Some h1, Some h2 => Some (h1, h2, r5)
                | _, _ => None
                end
              end
            end
          end
      end
    end
  end.

(** Block after block until the one marked final. *)
Fixpoint nextBlock (fuel : nat) (r : reader) (out : gostring)
  : option (gostring * reader) :=
  match fuel with
  | O => None
  | S fuel' =>
    match read_bits 1 r with
    | None => None
    | Some (final, r1) =>
      match read_bits 2 r1 with
      | None => None
      | Some (typ, r2) =>
        let block :=
          if typ =? 0 then dataBlock r2 out
          else if typ =? 1 then
            match init fixedLengths with
            | Some h => huffmanBlock (S (List.length (avail r2))) h None r2 out
            | None => None
            end
          else if typ =? 2 then
            match readHuffman r2 with
            | Some (h1, h2, r3) =>
              huffmanBlock (S (List.length (avail r3))) h1 (Some h2) r3 out
            | None => None
            end
          else None in
        match block with
        | None => None
        | Some (out', r') =>
          if final =? 1 then Some (out', r') else nextBlock fuel' r' out'
        end
      end
    end
  end.

(** [ReadAll src]: the decompressed bytes and the number of bytes of [src]
    the stream occupied. *)
Definition ReadAll (src : gostring) : option (gostring * nat) :=
  let r := NewReader src in
  match nextBlock (S (List.length (avail r))) r [] with
  | None => None
  | Some (out, r') => Some (rev out, Nat.div (used r' + 7) 8)
  end.

End flate.

(** ** compress/zlib (RFC 1950) *)
Module zlib.

Definition zlibDeflate : Z := 8.
Definition zlibMaxWindow : Z := 7.

Definition Uint32 (b : gostring) : Z :=
  fold_left (fun acc c => 256 * acc + byte_val c) b 0.

(** [NewReader src]: checks the two header bytes and, when the stream
    announces a preset dictionary, the four bytes naming it (the program
    gives none).  The value is what is left of [src] for the
    decompressor. *)
Definition NewReader (src : gostring) : result gostring :=
  match src with
  | cmf :: flg :: rest =>
    let h := 256 * byte_val cmf + byte_val flg in
    if negb (Z.land (byte_val cmf) 15 =? zlibDeflate)
       || (zlibMaxWindow <? Z.shiftr (byte_val cmf) 4)
       || negb (h mod 31 =? 0)
    then Err (ErrLib zlib_ErrHeader)
    else if negb (Z.land (byte_val flg) 32 =? 0) then
      match rest with
      | d0 :: d1 :: d2 :: d3 :: rest' =>
        if Uint32 [d0; d1; d2; d3] =? adler32.Checksum []
        then Ok rest' else Err (ErrLib zlib_ErrDictionary)
      | _ => Err (ErrLib io_ErrUnexpectedEOF)
      end
    else Ok rest
  | _ => Err (ErrLib io_ErrUnexpectedEOF)
  end.

(** [io.ReadAll] of the reader [NewReader] returned: decompress, then
    compare the four bytes after the stream with the checksum of the
    output.  Bytes after the checksum are not read. *)
Definition ReadAll (body : gostring) : result gostring :=
  match flate.ReadAll body with
  | None => Err (ErrLib flate_error)
  | Some (out, n) =>
    match skipn n body with
    | t0 :: t1 :: t2 :: t3 :: _ =>
      if Uint32 [t0; t1; t2; t3] =? adler32.Checksum out
      then Ok out else Err (ErrLib zlib_ErrChecksum)
    | _ => Err (ErrLib io_ErrUnexpectedEOF)
    end
  end.

End zlib.

(** ** strconv: is a JSON number literal in the range of float64? *)
Module strconv.

Definition is_digit (c : ascii) : bool :=
  (48 <=? byte_val c) && (byte_val c <=? 57).

Definition digits_val (ds : gostring) : Z :=
  fold_left (fun acc c => 10 * acc + (byte_val c - 48)) ds 0.

Fixpoint span_digits (s : gostring) : gostring * gostring :=
  match s with
  | c :: r =>
    if is_digit c then let p := span_digits r in (c :: fst p, snd p)
    else ([], s)
  | [] => ([], [])
  end.

Fixpoint strip_zeros (s : gostring) : gostring :=
  match s with
  | c :: r => if Ascii.eqb c "0"%char then strip_zeros r else s
  | [] => []
  end.

(** The least real that rounds to infinity: 2^1024 - 2^970. *)
Definition overflow_threshold : Z := 2 ^ 1024 - 2 ^ 970.

(** [float64_range text]: [text] (a literal of the JSON grammar) converts
    to a finite float64; [ParseFloat] reports a range error otherwise.
    The value is [digits * 10^(exponent - fraction digits)], compared
    exactly with the threshold.  (Correct rounding as [strconv] does it
    for literals with at most 800 significant digits and an exponent
    below 10000.) *)
Definition float64_range (text : gostring) : bool :=
  let body := match text with
              | c :: r => if Ascii.eqb c "-"%char then r else text
              | [] => []
              end in
  let int_part := span_digits body in
  let frac_part := match snd int_part with
                   | c :: r => if Ascii.eqb c "."%char then span_digits r
                               else ([], snd int_part)
                   | [] => ([], [])
                   end in
  let e := match snd frac_part with
           | c :: r =>
             if Ascii.eqb c "e"%char || Ascii.eqb c "E"%char then
               match r with
               | s :: r' =>
                 if Ascii.eqb s "-"%char then - digits_val (fst (span_digits r'))
                 else if Ascii.eqb s "+"%char then digits_val (fst (span_digits r'))
                 else digits_val (fst (span_digits r))
               | [] => 0
               end
             else 0
           | [] => 0
           end in
  let ds := strip_zeros (fst int_part ++ fst frac_part) in
  let d := digits_val ds in
  let x := e - Z.of_nat (List.length (fst frac_part)) in
  let m := Z.of_nat (List.length ds) + x in
  if d =? 0 then true
  else if 310 <? m then false
  else if m <? 300 then true
  else if 0 <=? x then d * 10 ^ x <? overflow_threshold
  else d <? overflow_threshold * 10 ^ (- x).

End strconv.

(** ** encoding/json *)
Module json.

(** A parsed document.  Strings are held unquoted, numbers as their
    literal text, object members in the order of the text. *)
Inductive value : Type :=
| Null
| Bool (b : bool)
| Number (text : gostring)
| Str (s : gostring)
| Array (elems : list value)
| Object (members : list (gostring * value)).

Definition maxNestingDepth : nat := 10000.

Definition isSpace (c : ascii) : bool :=
  Ascii.eqb c " "%char || Ascii.eqb c "009"%char
  || Ascii.eqb c "013"%char || Ascii.eqb c "010"%char.

Fixpoint skipSpace (s : gostring) : gostring :=
  match s with
  | c :: r => if isSpace c then skipSpace r else s
  | [] => []
  end.

Definition hexval (c : ascii) : option Z :=
  let v := byte_val c in
  if (48 <=? v) && (v <=? 57) then Some (v - 48)
  else if (97 <=? v) && (v <=? 102) then Some (v - 97 + 10)
  else if (65 <=? v) && (v <=? 70) then Some (v - 65 + 10)
  else None.

(** [getu4 s]: the rune of a leading [\uXXXX], with what follows it. *)
Definition getu4 (s : gostring) : option (Z * gostring) :=
  match s with
  | b :: u :: h1 :: h2 :: h3 :: h4 :: r =>
    if Ascii.eqb b "\"%char && Ascii.eqb u "u"%char then
      match hexval h1, hexval h2, hexval h3, hexval h4 with
      | Some a, Some b', Some c, Some d =>
        Some (((a * 16 + b') * 16 + c) * 16 + d, r)
      | _, _, _, _ => None
      end
    else None
  | _ => None
  end.

Definition IsSurrogate (r : Z) : bool := (55296 <=? r) && (r <? 57344).

(** utf16.DecodeRune *)
Definition utf16_DecodeRune (r1 r2 : Z) : Z :=
  if (55296 <=? r1) && (r1 <? 56320) && (56320 <=? r2) && (r2 <? 57344)
  then Z.lor (Z.shiftl (r1 - 55296) 10) (r2 - 56320) + 65536
  else utf8.RuneError.

Definition simple_escape (c : ascii) : option ascii :=
  let v := byte_val c in
  if v =? 34 then Some c              (* quote *)
  else if v =? 92 then Some c         (* backslash *)
  else if v =? 47 then Some c         (* slash *)
  else if v =? 98 then Some "008"%char
  else if v =? 102 then Some "012"%char
  else if v =? 110 then Some "010"%char
  else if v =? 114 then Some "013"%char
  else if v =? 116 then Some "009"%char
  else None.

(** The text of a string after its opening quote: the unquoted bytes and
    what follows the closing quote.  Escapes are resolved, a surrogate
    that is not half of a pair and any ill-formed UTF-8 become U+FFFD;
    control characters are a syntax error. *)
Fixpoint scanString (fuel : nat) (s : gostring) : option (gostring * gostring) :=
  match fuel with
  | O => None
  | S fuel' =>
    match s with
    | [] => None
    | c :: r =>
      let v := byte_val c in
      if v =? 34 then Some ([], r)
      else if v =? 92 then
        match r with
        | [] => None
        | e :: r' =>
          if Ascii.eqb e "u"%char then
            match getu4 s with
            | None => None
            | Some (rr, after) =>
              let paired :=
                if IsSurrogate rr then
                  match getu4 after with
                  | Some (rr1, after1) =>
                    let dec := utf16_DecodeRune rr rr1 in
                    if dec =? utf8.RuneError then None else Some (dec, after1)
                  | None => None
                  end
                else None in
              let '(rune, next) :=
                match paired with
                | Some p => p
                | None => (if IsSurrogate rr then utf8.RuneError else rr, after)
                end in
              match scanString fuel' next with
              | Some (out, rest) => Some (utf8.EncodeRune rune ++ out, rest)
              | None => None
              end
            end
          else
            match simple_escape e with
            | None => None
            | Some b =>
              match scanString fuel' r' with
              | Some (out, rest) => Some (b :: out, rest)
              | None => None
              end
            end
        end
      else if v <? 32 then None
      else if v <? 128 then
        match scanString fuel' r with
        | Some (out, rest) => Some (c :: out, rest)
        | None => None
        end
      else
        let '(rune, size) := utf8.DecodeRune s in
        match scanString fuel' (skipn size s) with
        | Some (out, rest) => Some (utf8.EncodeRune rune ++ out, rest)
        | None => None
        end
    end
  end.

(** A number literal at the head of [s]: its text and what follows. *)
Definition scanNumber (s : gostring) : option (gostring * gostring) :=
  let '(sign, s1) := match s with
                     | c :: r => if Ascii.eqb c "-"%char then ([c], r) else ([], s)
                     | [] => ([], s)
                     end in
  match s1 with
  | [] => None
  | c :: r =>
    if negb (strconv.is_digit c) then None
    else
      let '(ip, s2) := if Ascii.eqb c "0"%char then ([c], r)
                       else strconv.span_digits s1 in
      let frac :=
        match s2 with
        | d :: r2 =>
          if Ascii.eqb d "."%char then
            match strconv.span_digits r2 with
            | ([], _) => None
            | (fs, s3) => Some (d :: fs, s3)
            end
          else Some ([], s2)
        | [] => Some ([], s2)
        end in
      match frac with
      | None => None
      | Some (fp, s3) =>
        let expo :=
          match s3 with
          | e :: r3 =>
            if Ascii.eqb e "e"%char || Ascii.eqb e "E"%char then
              let '(sg, r4) :=
                match r3 with
                | g :: r4 => if Ascii.eqb g "+"%char || Ascii.eqb g "-"%char
                             then ([g], r4) else ([], r3)
                | [] => ([], r3)
                end in
              match strconv.span_digits r4 with
              | ([], _) => None
              | (es, s4) => Some (e :: sg ++ es, s4)
              end
            else Some ([], s3)
          | [] => Some ([], s3)
          end in
        match expo with
        | None => None
        | Some (ep, s4) => Some (sign ++ ip ++ fp ++ ep, s4)
        end
      end
  end.

(** Recursive descent over the grammar; [depth] counts the arrays and
    objects that enclose the value. *)
Fixpoint scanValue (fuel : nat) (depth : nat) (s : gostring)
  : option (value * gostring) :=
  match fuel with
  | O => None
  | S fuel' =>
    match s with
    | [] => None
    | c :: r =>
      let v := byte_val c in
      if v =? 34 then
        match scanString (List.length s) r with
        | Some (str, rest) => Some (Str str, rest)
        | None => None
        end
      else if v =? 123 then
        if (maxNestingDepth <=? depth)%nat then None
        else
          match skipSpace r with
          | c1 :: r1 =>
            if byte_val c1 =? 125 then Some (Object [], r1)
            else
              match scanMembers fuel' (S depth) (c1 :: r1) with
              | Some (ms, rest) => Some (Object ms, rest)
              | None => None
              end
          | [] => None
          end
      else if v =? 91 then
        if (maxNestingDepth <=? depth)%nat then None
        else
          match skipSpace r with
          | c1 :: r1 =>
            if byte_val c1 =? 93 then Some (Array [], r1)
            else
              match scanElems fuel' (S depth) (c1 :: r1) with
              | Some (es, rest) => Some (Array es, rest)
              | None => None
              end
          | [] => None
          end
      else if strings.HasPrefix s (lit "true") then Some (Bool true, skipn 4 s)
      else if strings.HasPrefix s (lit "false") then Some (Bool false, skipn 5 s)
      else if strings.HasPrefix s (lit "null") then Some (Null, skipn 4 s)
      else
        match scanNumber s with
        | Some (text, rest) => Some (Number text, rest)
        | None => None
        end
    end
  end

(** [s] starts an element; elements are separated by commas and closed
    by a bracket. *)
with scanElems (fuel : nat) (depth : nat) (s : gostring)
  : option (list value * gostring) :=
  match fuel with
  | O => None
  | S fuel' =>
    match scanValue fuel' depth s with
    | None => None
    | Some (x, rest) =>
      match skipSpace rest with
      | c :: r =>
        if byte_val c =? 93 then Some ([x], r)
        else if byte_val c =? 44 then
          match scanElems fuel' depth (skipSpace r) with
          | Some (xs, rest') => Some (x :: xs, rest')
          | None => None
          end
        else None
      | [] => None
      end
    end
  end

(** [s] starts a member: a string, a colon, a value. *)
with scanMembers (fuel : nat) (depth : nat) (s : gostring)
  : option (list (gostring * value) * gostring) :=
  match fuel with
  | O => None
  | S fuel' =>
    match s with
    | q :: r =>
      if byte_val q =? 34 then
        match scanString (List.length s) r with
        | None => None
        | Some (key, rest) =>
          match skipSpace rest with
          | c :: r1 =>
            if byte_val c =? 58 then
              match scanValue fuel' depth (skipSpace r1) with
              | None => None
              | Some (x, rest1) =>
                match skipSpace rest1 with
                | c2 :: r2 =>
                  if byte_val c2 =? 125 then Some ([(key, x)], r2)
                  else if byte_val c2 =? 44 then
                    match scanMembers fuel' depth (skipSpace r2) with
                    | Some (ms, rest') => Some ((key, x) :: ms, rest')
                    | None => None
                    end
                  else None
                | [] => None
                end
              end
            else None
          | [] => None
          end
        end
      else None
    | [] => None
    end
  end.

(** [checkValid] and the reading of the text in one: one value, white
    space around it, nothing else. *)
Definition parse (data : gostring) : option value :=
  match scanValue (S (S (List.length data))) 0 (skipSpace data) with
  | Some (v, rest) =>
    match skipSpace rest with
    | [] => Some v
    | _ => None
    end
  | None => None
  end.

(** Matching of an object key with a field name made of ASCII letters:
    equal up to the case of letters, where the Kelvin sign (U+212A) also
    counts as a k and the long s (U+017F) as an s. *)
Definition upper (c : ascii) : ascii :=
  let v := byte_val c in
  if (97 <=? v) && (v <=? 122) then byte_of (v - 32) else c.

Fixpoint foldName (key : gostring) : gostring :=
  match key with
  | [] => []
  | c :: r =>
    match r with
    | c1 :: r1 =>
      if (byte_val c =? 197) && (byte_val c1 =? 191) then "S"%char :: foldName r1
      else
        match r1 with
        | c2 :: r2 =>
          if (byte_val c =? 226) && (byte_val c1 =? 132) && (byte_val c2 =? 170)
          then "K"%char :: foldName r2
          else upper c :: foldName r
        | [] => upper c :: foldName r
        end
    | [] => [upper c]
    end
  end.

Definition equalFold (name : string) (key : gostring) : bool :=
  str_eqb (map upper (lit name)) (foldName key).

(** A JSON value stored in a Go string: a string is stored, [null] leaves
    the target as it is, anything else is a type error ([None]). *)
Definition storeString (old : gostring) (v : value) : option gostring :=
  match v with
  | Str s => Some s
  | Null => Some old
  | _ => None
  end.

(** A value stored in an [interface{}]: numbers become float64, which
    fails out of range; the other values are stored as they are (objects
    as maps, arrays as slices). *)
Fixpoint storeInterface (v : value) : bool :=
  match v with
  | Number text => strconv.float64_range text
  | Array elems => forallb storeInterface elems
  | Object members => forallb (fun kv => storeInterface (snd kv)) members
  | _ => true
  end.

(** Go maps with string keys, as association lists without repeated
    keys. *)
Definition gomap (V : Type) : Type := list (gostring * V).

Definition map_index {V} (m : gomap V) (k : gostring) : option V :=
  match find (fun kv => str_eqb (fst kv) k) m with
  | Some kv => Some (snd kv)
  | None => None
  end.

Definition map_assign {V} (m : gomap V) (k : gostring) (v : V) : gomap V :=
  (k, v) :: filter (fun kv => negb (str_eqb (fst kv) k)) m.

(** Unmarshal into a [map[string]interface{}] that is nil: every member
    is stored under its key (a later member replaces an earlier one of
    the same key), [null] leaves the map nil. *)
Definition decodeMap (v : value) : option (gomap value) :=
  match v with
  | Object members =>
    fold_left (fun acc kv =>
                 match acc with
                 | Some m => if storeInterface (snd kv)
                             then Some (map_assign m (fst kv) (snd kv))
                             else None
                 | None => None
                 end) members (Some [])
  | Null => Some []
  | _ => None
  end.

End json.

(** ** golang.org/x/crypto/curve25519: X25519 as RFC 7748 defines it *)
Module curve25519.

Definition ScalarSize : nat := 32.
Definition PointSize : nat := 32.

Definition Basepoint : gostring := byte_of 9 :: repeat zero 31.

Definition p : Z := 2 ^ 255 - 19.
Definition a24 : Z := 121665.

Definition decodeLittleEndian (b : gostring) : Z :=
  fold_right (fun c acc => byte_val c + 256 * acc) 0 b.

Definition encodeLittleEndian (n : nat) (v : Z) : gostring :=
  map (fun i => byte_of (Z.shiftr v (8 * Z.of_nat i))) (seq 0 n).

Definition decodeScalar25519 (k : gostring) : Z :=
  Z.lor (Z.land (decodeLittleEndian k) (2 ^ 255 - 8)) (2 ^ 254).

Definition decodeUCoordinate (u : gostring) : Z :=
  (decodeLittleEndian u mod 2 ^ 255) mod p.

Fixpoint pow_mod (b : Z) (e : positive) : Z :=
  match e with
  | xH => b mod p
  | xO e' => let r := pow_mod b e' in (r * r) mod p
  | xI e' => let r := pow_mod b e' in ((r * r) mod p * b) mod p
  end.

Record ladder_state : Type :=
  { x_2 : Z; z_2 : Z; x_3 : Z; z_3 : Z; swap : bool }.

Definition fmul (a b : Z) : Z := (a * b) mod p.

(** One step of the ladder.  Sums and differences are left unreduced; every
    product is reduced modulo [p]. *)
Definition ladder_step (k x_1 : Z) (st : ladder_state) (t : nat) : ladder_state :=
  let k_t := Z.testbit k (Z.of_nat t) in
  let sw := xorb (swap st) k_t in
  let x2 := if sw then x_3 st else x_2 st in
  let x3 := if sw then x_2 st else x_3 st in
  let z2 := if sw then z_3 st else z_2 st in
  let z3 := if sw then z_2 st else z_3 st in
  let A := x2 + z2 in
  let AA := fmul A A in
  let B := x2 - z2 in
  let BB := fmul B B in
  let E := AA - BB in
  let C := x3 + z3 in
  let D := x3 - z3 in
  let DA := fmul D A in
  let CB := fmul C B in
  {| x_3 := fmul (DA + CB) (DA + CB);
     z_3 := fmul x_1 (fmul (DA - CB) (DA - CB));
     x_2 := fmul AA BB;
     z_2 := fmul E (AA + a24 * E);
     swap := k_t |}.

(** The Montgomery ladder over the bits 254..0 of the scalar. *)
Definition scalarMult (scalar point : gostring) : gostring :=
  let k := decodeScalar25519 scalar in
  let u := decodeUCoordinate point in
  let st := fold_left (ladder_step k u) (rev (seq 0 255))
              {| x_2 := 1; z_2 := 0; x_3 := u; z_3 := 1; swap := false |} in
  let x2 := if swap st then x_3 st else x_2 st in
  let z2 := if swap st then z_3 st else z_2 st in
  encodeLittleEndian 32 (fmul x2 (pow_mod z2 (Z.to_pos (p - 2)))).

Definition isZero (b : gostring) : bool :=
  forallb (fun c => byte_val c =? 0) b.

(** [X25519 scalar point]: both arguments must be 32 bytes long, and an
    all-zero product is refused as coming from a low order point. *)
Definition X25519 (scalar point : gostring) : result gostring :=
  if negb (Nat.eqb (List.length scalar) ScalarSize)
  then Err (ErrLib curve25519_error)
  else if negb (Nat.eqb (List.length point) PointSize)
  then Err (ErrLib curve25519_error)
  else
    let out := scalarMult scalar point in
    if isZero out then Err (ErrLib curve25519_error) else Ok out.

End curve25519.

(** ** fmt: the verb [%d] *)
Module fmt.

Fixpoint digits (fuel : nat) (n : Z) (acc : gostring) : gostring :=
  match fuel with
  | O => acc
  | S f =>
    let acc' := byte_of (48 + n mod 10) :: acc in
    if n <? 10 then acc' else digits f (n / 10) acc'
  end.

Definition Itoa (n : Z) : gostring :=
  if n <? 0 then "-"%char :: digits (S (Z.to_nat (Z.log2 (- n)))) (- n) []
  else digits (S (Z.to_nat (Z.log2 n))) n [].

End fmt.

(** ** github.com/google/uuid *)
Module uuid.

Definition hexdigit (v : Z) : ascii :=
  nth (Z.to_nat v) (lit "0123456789abcdef") "0"%char.

Definition hex (b : gostring) : gostring :=
  flat_map (fun c => [hexdigit (byte_val c / 16); hexdigit (byte_val c mod 16)]) b.

(** [NewRandom]: sixteen random bytes with the version (4) and variant
    bits set. *)
Definition NewRandom (random : gostring) : gostring :=
  let u := modify 6 (fun c => byte_of (Z.lor (Z.land (byte_val c) 15) 64)) random in
  modify 8 (fun c => byte_of (Z.lor (Z.land (byte_val c) 63) 128)) u.

(** [String]: xxxxxxxx-xxxx-xxxx-xxxx-xxxxxxxxxxxx *)
Definition String (u : gostring) : gostring :=
  let part := fun (a b : nat) => hex (firstn (b - a) (skipn a u)) in
  part 0%nat 4%nat ++ lit "-" ++ part 4%nat 6%nat ++ lit "-"
    ++ part 6%nat 8%nat ++ lit "-" ++ part 8%nat 10%nat ++ lit "-"
    ++ part 10%nat 16%nat.

End uuid.

(** ** net/http, as far as the program uses it *)
Module http.

Record Request : Type :=
  { Method : gostring;
    URL : gostring;
    Header : list (gostring * gostring);
    (* the document [json.Marshal] serialises into the body *)
    Payload : json.value }.

(** A response: its status and what [io.ReadAll] gets from its body, the
    bytes and the error that ended the reading, if any. *)
Record Response : Type :=
  { StatusCode : Z;
    Body : gostring;
    BodyErr : option lib_error }.

End http.

(** ** The outside of the process *)
Record World : Type :=
  { (* the value of the flag [-key] after [flag.Parse] *)
    flag_key : gostring;
    (* the bytes of the random source, in the order they are drawn *)
    rand_stream : nat -> ascii;
    (* whether the n-th read of the random source fails *)
    rand_fails : nat -> bool;
    (* whether [http.NewRequest] accepts the URL *)
    url_accepted : gostring -> bool;
    (* [client.Do]: [None] is a transport failure *)
    client_Do : http.Request -> option http.Response }.

(** The [n]-th read of the random source, of [len] bytes from position
    [pos] of the stream. *)
Definition rand_Read (w : World) (n pos len : nat) : result gostring :=
  if rand_fails w n then Err (ErrLib rand_error)
  else Ok (map (rand_stream w) (seq pos len)).

(** ** main.go *)

Record RequestBody : Type :=
  { PublicKey : gostring;
    OSVersion : gostring;
    AppVersion : gostring;
    UUID : gostring }.

(* field [Config] of [ResponseBody] *)
Record ResponseBody : Type := { ResponseBody_Config : gostring }.

(* field [LastConfig] of [AWG] *)
Record AWG : Type := { AWG_LastConfig : gostring }.

(* field [AWG] of [Container] *)
Record Container : Type := { Container_AWG : AWG }.

Record Config : Type := { Containers : list Container }.

Record DecodedData : Type :=
  { APIEndpoint : gostring;
    APIKey : gostring }.

(** What [json.Unmarshal] does with a parsed document for each target
    type, from the field tags.  A member whose key matches no field is
    skipped; a member met again is stored again; [null] leaves a struct as
    it is; a value of the wrong kind is a type error ([None]). *)
Definition member_into {T} (store : T -> gostring -> json.value -> option T)
  (acc : option T) (kv : gostring * json.value) : option T :=
  match acc with
  | Some t => store t (fst kv) (snd kv)
  | None => None
  end.

Definition struct_into {T} (store : T -> gostring -> json.value -> option T)
  (target : T) (v : json.value) : option T :=
  match v with
  | json.Object members => fold_left (member_into store) members (Some target)
  | json.Null => Some target
  | _ => None
  end.

Definition into_DecodedData : DecodedData -> json.value -> option DecodedData :=
  struct_into (fun d key v =>
    if json.equalFold "api_endpoint" key then
      match json.storeString (APIEndpoint d) v with
      | Some s => Some {| APIEndpoint := s; APIKey := APIKey d |}
      | None => None
      end
    else if json.equalFold "api_key" key then
      match json.storeString (APIKey d) v with
      | Some s => Some {| APIEndpoint := APIEndpoint d; APIKey := s |}
      | None => None
      end
    else Some d).

Definition into_ResponseBody : ResponseBody -> json.value -> option ResponseBody :=
  struct_into (fun r key v =>
    if json.equalFold "config" key then
      match json.storeString (ResponseBody_Config r) v with
      | Some s => Some {| ResponseBody_Config := s |}
      | None => None
      end
    else Some r).

Definition into_AWG : AWG -> json.value -> option AWG :=
  struct_into (fun a key v =>
    if json.equalFold "last_config" key then
      match json.storeString (AWG_LastConfig a) v with
      | Some s => Some {| AWG_LastConfig := s |}
      | None => None
      end
    else Some a).

Definition into_Container : Container -> json.value -> option Container :=
  struct_into (fun c key v =>
    if json.equalFold "awg" key then
      match into_AWG (Container_AWG c) v with
      | Some a => Some {| Container_AWG := a |}
      | None => None
      end
    else Some c).

Definition zero_Container : Container :=
  {| Container_AWG := {| AWG_LastConfig := [] |} |}.

(** An array is decoded element by element into the slice, the i-th
    element into what the slice holds at i (a zero [Container] beyond its
    length; what a reused backing array may hold there is not modelled);
    the slice ends with the array.  [null] gives the nil slice. *)
Fixpoint into_elements (old : list Container) (elems : list json.value)
  : option (list Container) :=
  match elems with
  | [] => Some []
  | e :: rest =>
    match into_Container (hd zero_Container old) e,
          into_elements (tl old) rest with
    | Some c, Some cs => Some (c :: cs)
    | _, _ => None
    end
  end.

Definition into_Containers (old : list Container) (v : json.value)
  : option (list Container) :=
  match v with
  | json.Array elems => into_elements old elems
  | json.Null => Some []
  | _ => None
  end.

Definition into_Config : Config -> json.value -> option Config :=
  struct_into (fun c key v =>
    if json.equalFold "containers" key then
      match into_Containers (Containers c) v with
      | Some cs => Some {| Containers := cs |}
      | None => None
      end
    else Some c).

(** [json.Unmarshal data &target]: a syntax error, a type error, or the
    target with the document stored in it. *)
Definition Unmarshal {T} (into : T -> json.value -> option T)
  (data : gostring) (target : T) : result T :=
  match json.parse data with
  | None => Err (ErrLib json_SyntaxError)
  | Some v =>
    match into target v with
    | Some t => Ok t
    | None => Err (ErrLib json_UnmarshalTypeError)
    end
  end.

(** [s[low:]] *)
Definition slice_from (low : nat) (s : gostring) : result gostring :=
  if (List.length s <? low)%nat
  then Panic (SliceBoundsOutOfRange low (List.length s))
  else Ok (skipn low s).

(** [s[i]] *)
Definition index {A} (s : list A) (i : nat) : result A :=
  match nth_error s i with
  | Some x => Ok x
  | None => Panic (IndexOutOfRange i (List.length s))
  end.

(** [x.(string)] for [x] read from a [map[string]interface{}] *)
Definition assert_string (x : option json.value) : result gostring :=
  match x with
  | Some (json.Str s) => Ok s
  | _ => Panic InterfaceConversion
  end.

Definition decode (encodedString : gostring) : result gostring :=
  let encodedString := strings.Replace encodedString (lit "vpn://") (lit "") (-1) in
  decodedBytes <- wrap "failed to decode Base64 string: "
                    (base64.DecodeString base64.encodeURL encodedString) ;;
  body <- slice_from 4 decodedBytes ;;
  zlibReader <- wrap "failed to create zlib reader: " (zlib.NewReader body) ;;
  wrap "failed to decompress data: " (zlib.ReadAll zlibReader).

(** Steps 2 to 4 of the link format on their own: what [decode] does with
    the text once the scheme marker is gone. *)
Definition decode_payload (text : gostring) : result gostring :=
  decodedBytes <- wrap "failed to decode Base64 string: "
                    (base64.DecodeString base64.encodeURL text) ;;
  body <- slice_from 4 decodedBytes ;;
  zlibReader <- wrap "failed to create zlib reader: " (zlib.NewReader body) ;;
  wrap "failed to decompress data: " (zlib.ReadAll zlibReader).

Definition decodeAndParse (encodedString : gostring) : result DecodedData :=
  decompressedBytes <- wrap "failed to decode data: " (decode encodedString) ;;
  wrap "failed to parse JSON: "
    (Unmarshal into_DecodedData decompressedBytes
       {| APIEndpoint := []; APIKey := [] |}).

Definition byte_and (m : Z) (c : ascii) : ascii := byte_of (Z.land (byte_val c) m).
Definition byte_or (m : Z) (c : ascii) : ascii := byte_of (Z.lor (byte_val c) m).

(** The first component is [privateKeyBase64], the second
    [publicKeyBase64]. *)
Definition GenerateX25519KeyPair (w : World) : result (gostring * gostring) :=
  privateKey <- wrap "failed to generate private key: "
                  (rand_Read w 0 0 curve25519.ScalarSize) ;;
  let privateKey := modify 0 (byte_and 248) privateKey in
  let privateKey := modify 31 (byte_and 127) privateKey in
  let privateKey := modify 31 (byte_or 64) privateKey in
  publicKey <- wrap "failed to compute public key: "
                 (curve25519.X25519 privateKey curve25519.Basepoint) ;;
  let privateKeyBase64 := base64.EncodeToString base64.encodeStd privateKey in
  let publicKeyBase64 := base64.EncodeToString base64.encodeStd publicKey in
  Ok (privateKeyBase64, publicKeyBase64).

(** [uuid.New()]: the second read of the random source; a failure
    panics. *)
Definition uuid_New (w : World) : result gostring :=
  match rand_Read w 1 32 16 with
  | Ok random => Ok (uuid.NewRandom random)
  | _ => Panic (PanicError rand_error)
  end.

Definition Marshal_RequestBody (b : RequestBody) : json.value :=
  json.Object [ (lit "public_key", json.Str (PublicKey b));
                (lit "os_version", json.Str (OSVersion b));
                (lit "app_version", json.Str (AppVersion b));
                (lit "uuid", json.Str (UUID b)) ].

Definition status_error (status : Z) (bodyBytes : gostring) : error :=
  ErrText (lit "unexpected HTTP status code: " ++ fmt.Itoa status
             ++ lit ", Response: " ++ bodyBytes).

(** The request [sendPostRequest] builds: method, URL, the two headers
    and the serialised body. *)
Definition post_request (url : gostring) (body : RequestBody)
  (apiKey : gostring) : http.Request :=
  {| http.Method := lit "POST";
     http.URL := url;
     http.Header := [ (lit "Content-Type", lit "application/json");
                      (lit "Authorization", lit "Api-Key " ++ apiKey) ];
     http.Payload := Marshal_RequestBody body |}.

(** The value is the content of [*response] after the call. *)
Definition sendPostRequest (w : World) (url : gostring) (body : RequestBody)
  (apiKey : gostring) (response : ResponseBody) : result ResponseBody :=
  if str_eqb url [] then Err (ErrText (lit "URL cannot be empty"))
  else if str_eqb apiKey [] then Err (ErrText (lit "API key cannot be empty"))
  else if negb (url_accepted w url)
  then Err (ErrWrap (lit "failed to create HTTP request: ") (ErrLib url_error))
  else
    match client_Do w (post_request url body apiKey) with
    | None =>
      Err (ErrWrap (lit "failed to send HTTP request: ") (ErrLib transport_error))
    | Some resp =>
      if (http.StatusCode resp <? 200) || (300 <=? http.StatusCode resp)
      then Err (status_error (http.StatusCode resp) (http.Body resp))
      else
        match http.BodyErr resp with
        | Some e => Err (ErrWrap (lit "failed to read response body: ") (ErrLib e))
        | None =>
          wrap "failed to parse response JSON: "
            (Unmarshal into_ResponseBody (http.Body resp) response)
        end
    end.

(** How the process ends, and what it printed on standard output. *)
Inductive exit_status : Type :=
| Returned
| Fatal (e : error)        (* log.Fatalf("Error: %v", err) *)
| Crashed (p : panic).

Record run : Type := { stdout : gostring; exit : exit_status }.

Definition nl : gostring := ["010"%char].

Definition placeholder : gostring := lit "$WIREGUARD_CLIENT_PRIVATE_KEY".

(** [main], lines 69 to 89: the decoded link, the variable [privateKey]
    and the request body. *)
Definition main_request (w : World) (key : gostring)
  : result (DecodedData * gostring * RequestBody) :=
  decoded <- decodeAndParse key ;;
  keys <- GenerateX25519KeyPair w ;;
  let '(pubKey, privateKey) := keys in
  id <- uuid_New w ;;
  Ok (decoded, privateKey,
      {| PublicKey := pubKey;
         OSVersion := lit "macOS";
         AppVersion := lit "4.8.2.3";
         UUID := uuid.String id |}).

(** [main], lines 99 to 114: from the response to the map [lastConfig]. *)
Definition main_response (responseBody : ResponseBody)
  : result (json.gomap json.value) :=
  decodedConfig <- decode (ResponseBody_Config responseBody) ;;
  config <- Unmarshal into_Config decodedConfig {| Containers := [] |} ;;
  first <- index (Containers config) 0 ;;
  Unmarshal (fun _ v => json.decodeMap v)
    (AWG_LastConfig (Container_AWG first)) [].

(** [main] up to the first [Printf]: the two variables the rest of it
    reads. *)
Definition main_stages (w : World) (key : gostring)
  : result (gostring * json.gomap json.value) :=
  prepared <- main_request w key ;;
  let '(decoded, privateKey, requestBody) := prepared in
  let url := APIEndpoint decoded in
  let apiKey := APIKey decoded in
  responseBody <- sendPostRequest w url requestBody apiKey
                    {| ResponseBody_Config := [] |} ;;
  lastConfig <- main_response responseBody ;;
  Ok (privateKey, lastConfig).

Definition main (w : World) : run :=
  let key := flag_key w in
  if str_eqb key []
  then {| stdout := lit "Error: The -key parameter is required." ++ nl;
          exit := Returned |}
  else
    match main_stages w key with
    | Err e => {| stdout := []; exit := Fatal e |}
    | Panic p => {| stdout := []; exit := Crashed p |}
    | Ok (privateKey, lastConfig) =>
      let out := nl ++ lit "Private key: " ++ privateKey ++ nl in
      match assert_string (json.map_index lastConfig (lit "config")) with
      | Ok template =>
        let resp := strings.Replace template placeholder privateKey (-1) in
        {| stdout := out ++ nl ++ lit "Response: " ++ nl ++ resp ++ nl;
           exit := Returned |}
      | Err e => {| stdout := out; exit := Fatal e |}
      | Panic p => {| stdout := out; exit := Crashed p |}
      end
    end.

(** ** Replacing every occurrence, as a recursion on the text

    [replaceAll old new s] reads [s] from the left; where [old] starts, it
    writes [new] and drops the characters of the match ([skip] counts the
    ones still to drop), elsewhere it copies the character.  It is what
    [strings.Replace s old new n] computes for [n < 0] and a non-empty
    [old] (lemma [Replace_all] below). *)
Fixpoint replaceAll_from (old new : gostring) (skip : nat) (s : gostring)
  : gostring :=
  match s with
  | [] => []
  | c :: s' =>
    match skip with
    | S k => replaceAll_from old new k s'
    | O =>
      if strings.HasPrefix s old
      then new ++ replaceAll_from old new (List.length old - 1) s'
      else c :: replaceAll_from old new 0 s'
    end
  end.

Definition replaceAll (old new s : gostring) : gostring :=
  replaceAll_from old new 0 s.

(** Lines 188 to 190 of [GenerateX25519KeyPair] as one function. *)
Definition clamp (privateKey : gostring) : gostring :=
  modify 31 (byte_or 64) (modify 31 (byte_and 127) (modify 0 (byte_and 248) privateKey)).

(** The value a string field takes from the members of an object, read
    in order: a member whose key matches [name] is stored in the field. *)
Definition field_from (name : string) (members : list (gostring * json.value))
  (old : gostring) : option gostring :=
  fold_left (fun acc kv =>
               match acc with
               | Some cur => if json.equalFold name (fst kv)
                             then json.storeString cur (snd kv)
                             else Some cur
               | None => None
               end) members (Some old).

(** The characters of a text in standard base64. *)
Definition base64_char (c : ascii) : Prop :=
  In c base64.encodeStd \/ c = base64.padChar.

(** ** Sample runs

    A link for the endpoint [https://mock] with the credential [K], random
    bytes 0xa8, 0, 0, ..., and a server that answers every request with
    the given status and body. *)
Definition sample_link : gostring :=
  lit "vpn://AAAALXjaq1ZKLMiMT81LKcjPzCtRslLKKCkpKLbS18_NT85W0gHLZqdWAiW8lWoBcNQPRQ==".

Definition sample_seed : gostring := byte_of 168 :: repeat zero 31.

(* base64 of the clamped seed *)
Definition sample_private : gostring :=
  lit "qAAAAAAAAAAAAAAAAAAAAAAAAAAAAAAAAAAAAAAAAEA=".

(* base64 of its X25519 public key *)
Definition sample_public : gostring :=
  lit "YAXauyswQGB2yLN7AG/O1j5z/GtI3Gr0wJkyDvBHMm0=".

Definition sample_world (link : gostring) (status : Z) (body : gostring) : World :=
  {| flag_key := link;
     rand_stream := fun i => nth i sample_seed zero;
     rand_fails := fun _ => false;
     url_accepted := fun _ => true;
     client_Do := fun _ => Some {| http.StatusCode := status;
                                   http.Body := body;
                                   http.BodyErr := None |} |}.

Definition quote : ascii := "034"%char.

(** The response body: an object whose member [config] is the given
    text. *)
Definition config_body (config : string) : gostring :=
  lit "{" ++ [quote] ++ lit "config" ++ [quote] ++ lit ":"
    ++ [quote] ++ lit config ++ [quote] ++ lit "}".

(* one container; its template is the line [Interface] and the line
   PrivateKey = $WIREGUARD_CLIENT_PRIVATE_KEY *)
Definition world_ok : World :=
  sample_world sample_link 200 (config_body
    "AAAAeHjaJYrRBsMwGEZfJT57irCL2mKiMxXtZvpXRP2dUBlpdCby7gu7O8c5GfM7JOcDxw1yzHCfF2TG6rZka1p8VWTCnwlSEEYdEsfFzTwRhS763SVu-SuO4vDQRl2Gxpzt6arVrbed0femV7ZVzzoTCkqZyg_Y-Sjh").

(* one container; its template is the single letter x *)
Definition world_no_token : World :=
  sample_world sample_link 200 (config_body
    "AAAAPnjaq1ZKzs8rSczMSy0qVrKKrlZKLE9XsqpWykksLokHSqVlArlK1TFKEHaMkpVCjFJFjFKtUm1tbC0AtVwVlQ==").

(* the template is $WIREGUARD_CLIENT_PRIVATE_KE$WIREGUARD_CLIENT_PRIVATE_KEY *)
Definition world_partial_token : World :=
  sample_world sample_link 200 (config_body
    "AAAAdnjaq1ZKzs8rSczMSy0qVrKKrlZKLE9XsqpWykksLokHSqVlArlK1TFKEHaMkpVCjJJKuGeQq3uoY5BLvLOPp6tfSHxAkGeYY4hrvLcrPrnIGKVapdra2FoAGgwmIA==").

(* the list of containers is empty *)
Definition world_empty_containers : World :=
  sample_world sample_link 200 (config_body "AAAAEXjaq1ZKzs8rSczMSy0qVrKKjq0FADo2BmU=").

(* one container; its nested document is the empty object *)
Definition world_no_config_field : World :=
  sample_world sample_link 200 (config_body
    "AAAALXjaq1ZKzs8rSczMSy0qVrKKrlZKLE9XsqpWykksLokHSqVlArlK1bVKtbWxtQB3kRBV").

Definition world_forbidden : World :=
  sample_world sample_link 403 (lit "forbidden").

(* the link of an object with the endpoint https://mock and no credential *)
Definition link_without_key : gostring :=
  lit "AAAAH3jaq1ZKLMiMT81LKcjPzCtRslLKKCkpKLbS18_NT85WqgUAtqQLKg==".

(* the link of {} *)
Definition link_empty_object : gostring := lit "AAAAAnjaq64FAAF1APk=".

(* the same with the scheme marker in the middle *)
Definition link_marker_inside : gostring := lit "AAAAAnjaq64Fvpn://AAF1APk=".

Definition scheme_marker : gostring := lit "vpn://".

(** ** More sample runs *)

(* the server answers 200 with the empty object: no member [config] *)
Definition world_no_config_member : World :=
  sample_world sample_link 200 (lit "{}").

(* the random source fails at the first read *)
Definition world_rand_fails : World :=
  {| flag_key := sample_link;
     rand_stream := fun _ => zero;
     rand_fails := fun _ => true;
     url_accepted := fun _ => true;
     client_Do := fun _ => None |}.

(* the random source gives the clamped sample seed *)
Definition world_clamped_seed : World :=
  {| flag_key := sample_link;
     rand_stream := fun i => nth i (clamp sample_seed) zero;
     rand_fails := fun _ => false;
     url_accepted := fun _ => true;
     client_Do := fun _ => None |}.



(* the link of an object with the two fields and a member [note] between
   them *)
Definition link_extra_member : gostring :=
  lit "AAAANnjaq1ZKLMiMT81LKcjPzCtRslLKKCkpKLbS18_NT85W0lHKyy9JVbIy1AEry06tBKrwVqoFAASSEdY=".

(** ** Links whose payload is stored

    The program reads links and never writes one.  [stored_link] is the
    plainest link of the format [decode] reads: four header bytes, the
    zlib header [78 01], one final stored block (its length and the
    complement of the length, both 16 bits, least significant byte first,
    then the bytes as they are), the Adler-32 sum of the bytes (most
    significant byte first), all of it in URL-safe base64.  It is used to
    state which texts [decode] accepts. *)
Definition uint16_le (n : Z) : gostring :=
  [byte_of n; byte_of (Z.shiftr n 8)].

Definition uint32_be (n : Z) : gostring :=
  [byte_of (Z.shiftr n 24); byte_of (Z.shiftr n 16); byte_of (Z.shiftr n 8);
   byte_of n].

Definition stored_block (payload : gostring) : gostring :=
  let n := Z.of_nat (List.length payload) in
  "001"%char :: uint16_le n ++ uint16_le (Z.lxor n 65535) ++ payload.

Definition stored_stream (payload : gostring) : gostring :=
  "x"%char :: "001"%char
    :: stored_block payload ++ uint32_be (adler32.Checksum payload).

Definition stored_link (header payload : gostring) : gostring :=
  base64.EncodeToString base64.encodeURL (header ++ stored_stream payload).

(** * Properties *)

(** ** Lists of characters *)

Lemma ascii_eqb_refl (c : ascii) : Ascii.eqb c c = true.
Proof. apply Ascii.eqb_eq; reflexivity. Qed.

Lemma str_eqb_eq (a b : gostring) : str_eqb a b = true <-> a = b.
Proof.
  unfold str_eqb. destruct (list_eq_dec ascii_dec a b); split; congruence.
Qed.

Lemma str_eqb_neq (a b : gostring) : str_eqb a b = false <-> a <> b.
Proof.
  unfold str_eqb. destruct (list_eq_dec ascii_dec a b); split; congruence.
Qed.

Lemma find_app {A} (p : A -> bool) (l1 l2 : list A) :
  find p (l1 ++ l2)
  = match find p l1 with Some x => Some x | None => find p l2 end.
Proof.
  induction l1 as [|x l1 IH]; [reflexivity|].
  simpl. destruct (p x); [reflexivity | exact IH].
Qed.

Lemma HasPrefix_nil (s : gostring) : strings.HasPrefix s [] = true.
Proof. destruct s; reflexivity. Qed.

Lemma HasPrefix_app (p r : gostring) : strings.HasPrefix (p ++ r) p = true.
Proof.
  induction p as [|c p IH]; simpl.
  - apply HasPrefix_nil.
  - rewrite ascii_eqb_refl. exact IH.
Qed.

Lemma HasPrefix_split (p s : gostring) :
  strings.HasPrefix s p = true -> s = p ++ skipn (List.length p) s.
Proof.
  revert s. induction p as [|c p IH]; intros s H; simpl in *.
  - reflexivity.
  - destruct s as [|d s]; [discriminate|].
    apply andb_true_iff in H. destruct H as [Hc Hp].
    apply Ascii.eqb_eq in Hc. subst d. f_equal. apply IH. exact Hp.
Qed.

Lemma HasPrefix_iff (p s : gostring) :
  strings.HasPrefix s p = true <-> exists r, s = p ++ r.
Proof.
  split.
  - intros H. eexists. apply HasPrefix_split. exact H.
  - intros [r ->]. apply HasPrefix_app.
Qed.

Lemma HasPrefix_length (p s : gostring) :
  strings.HasPrefix s p = true -> (List.length p <= List.length s)%nat.
Proof.
  intros H. apply HasPrefix_iff in H. destruct H as [r ->].
  rewrite length_app. lia.
Qed.

Lemma HasPrefix_In (p s : gostring) (c : ascii) :
  strings.HasPrefix s p = true -> In c p -> In c s.
Proof.
  intros H Hin. apply HasPrefix_iff in H. destruct H as [r ->].
  apply in_or_app. left. exact Hin.
Qed.

(** A prefix of [x ++ y] is a prefix of [x], or it is [x] followed by a
    non-empty prefix of [y]. *)
Lemma HasPrefix_app_cases (x y t : gostring) :
  strings.HasPrefix (x ++ y) t = true ->
  strings.HasPrefix x t = true \/
  exists t2, t = x ++ t2 /\ t2 <> [] /\ strings.HasPrefix y t2 = true.
Proof.
  revert t. induction x as [|c x IH]; intros t H.
  - destruct t as [|d t].
    + left. reflexivity.
    + right. exists (d :: t). repeat split; [discriminate | exact H].
  - destruct t as [|d t]; [left; reflexivity|].
    simpl in H. apply andb_true_iff in H. destruct H as [Hc Ht].
    destruct (IH t Ht) as [Hx | [t2 [-> [Hne H2]]]].
    + left. simpl. rewrite Hc. exact Hx.
    + right. exists t2. apply Ascii.eqb_eq in Hc. subst d.
      repeat split; assumption.
Qed.

(** ** strings.Index *)

Lemma Index_cons (c : ascii) (s p : gostring) :
  strings.Index (c :: s) p =
  if strings.HasPrefix (c :: s) p then 0
  else if strings.Index s p <? 0 then -1 else strings.Index s p + 1.
Proof. reflexivity. Qed.

Lemma Index_nil (p : gostring) :
  strings.Index [] p = if strings.HasPrefix [] p then 0 else -1.
Proof. reflexivity. Qed.

Lemma Index_lower (s p : gostring) : -1 <= strings.Index s p.
Proof.
  induction s as [|c s IH].
  - rewrite Index_nil. destruct (strings.HasPrefix [] p); lia.
  - rewrite Index_cons. destruct (strings.HasPrefix (c :: s) p); [lia|].
    destruct (strings.Index s p <? 0) eqn:E; [lia|].
    apply Z.ltb_ge in E. lia.
Qed.

Lemma Index_upper (s p : gostring) :
  strings.Index s p <= Z.of_nat (List.length s).
Proof.
  induction s as [|c s IH].
  - rewrite Index_nil. destruct (strings.HasPrefix [] p); simpl; lia.
  - rewrite Index_cons. destruct (strings.HasPrefix (c :: s) p); [simpl; lia|].
    destruct (strings.Index s p <? 0); simpl List.length; lia.
Qed.

(** No instance: none at the head, none further on. *)
Lemma Index_none_cons (c : ascii) (s p : gostring) :
  strings.Index (c :: s) p = -1 <->
  strings.HasPrefix (c :: s) p = false /\ strings.Index s p = -1.
Proof.
  rewrite Index_cons. pose proof (Index_lower s p) as Hl.
  destruct (strings.HasPrefix (c :: s) p).
  - split; [discriminate | intros [H _]; discriminate].
  - destruct (strings.Index s p <? 0) eqn:E.
    + apply Z.ltb_lt in E. split; [intros _; split; [reflexivity | lia] | reflexivity].
    + apply Z.ltb_ge in E. split; [lia | intros [_ H]; lia].
Qed.

Lemma Index_none_nonempty (p : gostring) :
  p <> [] -> strings.Index [] p = -1.
Proof. destruct p; [congruence | reflexivity]. Qed.

(** An instance at [i]: the text splits there. *)
Lemma Index_found (s p : gostring) :
  0 <= strings.Index s p ->
  s = firstn (Z.to_nat (strings.Index s p)) s ++ p
        ++ skipn (Z.to_nat (strings.Index s p) + List.length p) s.
Proof.
  induction s as [|c s IH]; intros H.
  - rewrite Index_nil in *. destruct (strings.HasPrefix [] p) eqn:E; [|lia].
    destruct p; [reflexivity | discriminate].
  - rewrite Index_cons in *.
    destruct (strings.HasPrefix (c :: s) p) eqn:E.
    + simpl. apply HasPrefix_split. exact E.
    + destruct (strings.Index s p <? 0) eqn:E2; [lia|].
      apply Z.ltb_ge in E2.
      replace (Z.to_nat (strings.Index s p + 1))
        with (S (Z.to_nat (strings.Index s p))) by lia.
      simpl. f_equal. apply IH. exact E2.
Qed.

Lemma Index_found_length (s p : gostring) :
  0 <= strings.Index s p ->
  (Z.to_nat (strings.Index s p) + List.length p <= List.length s)%nat.
Proof.
  intros H. pose proof (Index_found s p H) as E.
  apply (f_equal (@List.length ascii)) in E.
  rewrite !length_app in E.
  assert (List.length (firstn (Z.to_nat (strings.Index s p)) s)
          = Z.to_nat (strings.Index s p)) as F.
  { apply firstn_length_le. pose proof (Index_upper s p). lia. }
  lia.
Qed.

(** The first instance in [a ++ p ++ b] is at the end of [a] when [a] has
    none and the first character of [p] occurs nowhere else in [p]. *)
Lemma HasPrefix_straddle (d : ascii) (t a b : gostring) :
  ~ In d t -> a <> [] ->
  strings.HasPrefix a (d :: t) = false ->
  strings.HasPrefix (a ++ (d :: t) ++ b) (d :: t) = false.
Proof.
  intros Hd Ha Hp.
  destruct (strings.HasPrefix (a ++ (d :: t) ++ b) (d :: t)) eqn:E; [|reflexivity].
  apply HasPrefix_app_cases in E. destruct E as [E | [t2 [E1 [E2 E3]]]].
  - congruence.
  - destruct a as [|c a]; [congruence|].
    destruct t2 as [|e t2]; [congruence|].
    simpl in E3. apply andb_true_iff in E3. destruct E3 as [E3 _].
    apply Ascii.eqb_eq in E3. subst e.
    simpl in E1. injection E1 as _ E1. exfalso. apply Hd. rewrite E1.
    apply in_or_app. right. left. reflexivity.
Qed.

Lemma Index_app_first (d : ascii) (t a b : gostring) :
  ~ In d t ->
  strings.Index a (d :: t) = -1 ->
  strings.Index (a ++ (d :: t) ++ b) (d :: t) = Z.of_nat (List.length a).
Proof.
  intros Hd. induction a as [|c a IH]; intros H.
  - change ([] ++ (d :: t) ++ b) with (d :: (t ++ b)).
    rewrite Index_cons.
    change (d :: (t ++ b)) with ((d :: t) ++ b).
    rewrite HasPrefix_app. reflexivity.
  - apply Index_none_cons in H. destruct H as [H1 H2].
    specialize (IH H2).
    change ((c :: a) ++ (d :: t) ++ b) with (c :: (a ++ (d :: t) ++ b)).
    rewrite Index_cons.
    change (c :: (a ++ (d :: t) ++ b)) with ((c :: a) ++ (d :: t) ++ b).
    rewrite (HasPrefix_straddle d t (c :: a) b Hd ltac:(discriminate) H1).
    rewrite IH.
    destruct (Z.of_nat (List.length a) <? 0) eqn:E;
      [apply Z.ltb_lt in E; lia|].
    simpl List.length. lia.
Qed.

(** An instance of [k] in [a ++ k ++ b]. *)
Lemma Index_app_some (a k b : gostring) : 0 <= strings.Index (a ++ k ++ b) k.
Proof.
  induction a as [|c a IH].
  - simpl app. destruct (k ++ b) eqn:E.
    + rewrite Index_nil. destruct k; [simpl; lia | discriminate].
    + rewrite Index_cons, <- E, HasPrefix_app. lia.
  - change ((c :: a) ++ k ++ b) with (c :: (a ++ k ++ b)).
    rewrite Index_cons. destruct (strings.HasPrefix _ k); [lia|].
    destruct (strings.Index (a ++ k ++ b) k <? 0) eqn:E;
      [apply Z.ltb_lt in E; lia | lia].
Qed.

(** No instance of [d :: t] starts in a text without [d]. *)
Lemma Index_app_skip (d : ascii) (t k x : gostring) :
  ~ In d k ->
  strings.Index x (d :: t) = -1 ->
  strings.Index (k ++ x) (d :: t) = -1.
Proof.
  intros Hd Hx. induction k as [|c k IH]; [exact Hx|].
  change ((c :: k) ++ x) with (c :: (k ++ x)).
  apply Index_none_cons. split.
  - simpl. destruct (Ascii.eqb c d) eqn:E; [|reflexivity].
    apply Ascii.eqb_eq in E. subst c. exfalso. apply Hd. left. reflexivity.
  - apply IH. intros H. apply Hd. right. exact H.
Qed.

(** ** strings.Replace with [n < 0] is [replaceAll] *)

Section ReplaceAll.

Variables old new : gostring.
Hypothesis old_nonempty : old <> [].

Lemma length_old_pos : (0 < List.length old)%nat.
Proof. destruct old; [congruence | simpl; lia]. Qed.

Lemma replaceAll_from_skip (s : gostring) (k : nat) :
  replaceAll_from old new k s = replaceAll old new (skipn k s).
Proof.
  revert k. induction s as [|c s IH]; intros k.
  - destruct k; reflexivity.
  - destruct k; [reflexivity|]. simpl. apply IH.
Qed.

Lemma replaceAll_nil : replaceAll old new [] = [].
Proof. reflexivity. Qed.

Lemma replaceAll_cons (c : ascii) (s : gostring) :
  replaceAll old new (c :: s) =
  if strings.HasPrefix (c :: s) old
  then new ++ replaceAll old new (skipn (List.length old) (c :: s))
  else c :: replaceAll old new s.
Proof.
  unfold replaceAll at 1. cbn [replaceAll_from].
  destruct (strings.HasPrefix (c :: s) old); [|reflexivity].
  rewrite replaceAll_from_skip.
  destruct old as [|o old']; [congruence|].
  replace (List.length (o :: old') - 1)%nat with (List.length old')
    by (simpl; lia).
  reflexivity.
Qed.

Lemma replaceAll_none (s : gostring) :
  strings.Index s old = -1 -> replaceAll old new s = s.
Proof.
  induction s as [|c s IH]; intros H; [reflexivity|].
  apply Index_none_cons in H. destruct H as [H1 H2].
  rewrite replaceAll_cons, H1, (IH H2). reflexivity.
Qed.

Lemma replaceAll_found (s : gostring) :
  0 <= strings.Index s old ->
  replaceAll old new s =
  firstn (Z.to_nat (strings.Index s old)) s ++ new
    ++ replaceAll old new
         (skipn (Z.to_nat (strings.Index s old) + List.length old) s).
Proof.
  induction s as [|c s IH]; intros H.
  - rewrite (Index_none_nonempty old old_nonempty) in H. lia.
  - rewrite replaceAll_cons. rewrite Index_cons in *.
    destruct (strings.HasPrefix (c :: s) old); [reflexivity|].
    destruct (strings.Index s old <? 0) eqn:E; [lia|].
    apply Z.ltb_ge in E.
    replace (Z.to_nat (strings.Index s old + 1))
      with (S (Z.to_nat (strings.Index s old))) by lia.
    rewrite (IH E). reflexivity.
Qed.

Lemma replaceAll_same (s : gostring) :
  new = old -> replaceAll old new s = s.
Proof.
  intros Hsame.
  assert (forall n t, (List.length t < n)%nat -> replaceAll old new t = t) as G.
  { induction n as [|n IH]; intros t Hn; [lia|].
    destruct t as [|c t]; [reflexivity|].
    rewrite replaceAll_cons.
    destruct (strings.HasPrefix (c :: t) old) eqn:E.
    - rewrite IH.
      + rewrite Hsame. symmetry. apply HasPrefix_split. exact E.
      + rewrite length_skipn. pose proof length_old_pos.
        cbn [List.length] in *. lia.
    - rewrite IH; [reflexivity | simpl in Hn; lia]. }
  apply (G (S (List.length s))). lia.
Qed.

Lemma Count_loop_step (fuel : nat) (s : gostring) (n : Z) :
  strings.Count_loop (S fuel) s old n =
  if strings.Index s old =? -1 then n
  else strings.Count_loop fuel
         (skipn (Z.to_nat (strings.Index s old) + List.length old) s) old (n + 1).
Proof. reflexivity. Qed.

Lemma Count_loop_acc (fuel : nat) (s : gostring) (n : Z) :
  strings.Count_loop fuel s old n = n + strings.Count_loop fuel s old 0.
Proof.
  revert s n. induction fuel as [|fuel IH]; intros s n.
  - simpl. lia.
  - rewrite !Count_loop_step.
    destruct (strings.Index s old =? -1); [lia|].
    rewrite (IH _ (n + 1)), (IH _ (0 + 1)). lia.
Qed.

Lemma Count_loop_lower (fuel : nat) (s : gostring) (n : Z) :
  n <= strings.Count_loop fuel s old n.
Proof.
  revert s n. induction fuel as [|fuel IH]; intros s n.
  - simpl. lia.
  - rewrite Count_loop_step.
    destruct (strings.Index s old =? -1); [lia|].
    specialize (IH (skipn (Z.to_nat (strings.Index s old) + List.length old) s)
                  (n + 1)). lia.
Qed.

(** What follows a match is shorter than the text. *)
Lemma length_after_match (s : gostring) :
  strings.Index s old <> -1 ->
  (List.length (skipn (Z.to_nat (strings.Index s old) + List.length old) s)
   < List.length s)%nat.
Proof.
  intros H. pose proof (Index_lower s old) as Hl.
  assert (0 <= strings.Index s old) as H0 by lia.
  pose proof (Index_found_length s old H0) as Hf.
  pose proof length_old_pos. rewrite length_skipn. lia.
Qed.

(** The fuel of [Count] is enough: more of it changes nothing. *)
Lemma Count_loop_fuel (f1 f2 : nat) (s : gostring) (n : Z) :
  (List.length s < f1)%nat -> (List.length s < f2)%nat ->
  strings.Count_loop f1 s old n = strings.Count_loop f2 s old n.
Proof.
  revert f2 s n. induction f1 as [|f1 IH]; intros f2 s n H1 H2; [lia|].
  destruct f2 as [|f2]; [lia|].
  rewrite !Count_loop_step.
  destruct (strings.Index s old =? -1) eqn:E; [reflexivity|].
  apply Z.eqb_neq in E. pose proof (length_after_match s E).
  apply IH; lia.
Qed.

Lemma Count_def (s : gostring) :
  strings.Count s old = strings.Count_loop (S (List.length s)) s old 0.
Proof. unfold strings.Count. destruct old; [congruence | reflexivity]. Qed.

Lemma Count_unfold (s : gostring) :
  strings.Count s old =
  if strings.Index s old =? -1 then 0
  else 1 + strings.Count
             (skipn (Z.to_nat (strings.Index s old) + List.length old) s) old.
Proof.
  rewrite !Count_def, Count_loop_step.
  destruct (strings.Index s old =? -1) eqn:E; [reflexivity|].
  apply Z.eqb_neq in E. pose proof (length_after_match s E).
  rewrite Count_loop_acc. f_equal. apply Count_loop_fuel; lia.
Qed.

Lemma Count_nonneg (s : gostring) : 0 <= strings.Count s old.
Proof.
  rewrite Count_def. apply Count_loop_lower.
Qed.

Lemma Count_zero (s : gostring) :
  strings.Count s old = 0 <-> strings.Index s old = -1.
Proof.
  rewrite Count_unfold. destruct (strings.Index s old =? -1) eqn:E.
  - apply Z.eqb_eq in E. tauto.
  - apply Z.eqb_neq in E.
    pose proof (Count_nonneg
      (skipn (Z.to_nat (strings.Index s old) + List.length old) s)).
    split; intros; lia.
Qed.

Lemma Replace_loop_step (n : nat) (first : bool) (s : gostring) :
  strings.Replace_loop (S n) first s old new =
  firstn (Z.to_nat (strings.Index s old)) s ++ new
    ++ strings.Replace_loop n false
         (skipn (Z.to_nat (strings.Index s old) + List.length old) s) old new.
Proof. destruct old; [congruence | reflexivity]. Qed.

(** The loop of [Replace], run as many times as [Count] found matches. *)
Lemma Replace_loop_all (s : gostring) (first : bool) :
  strings.Replace_loop (Z.to_nat (strings.Count s old)) first s old new
  = replaceAll old new s.
Proof.
  assert (forall n s first, (List.length s < n)%nat ->
            strings.Replace_loop (Z.to_nat (strings.Count s old)) first s old new
            = replaceAll old new s) as G.
  { clear s first. induction n as [|n IH]; intros s first Hn; [lia|].
    rewrite Count_unfold.
    destruct (strings.Index s old =? -1) eqn:E.
    - apply Z.eqb_eq in E. rewrite (replaceAll_none s E). reflexivity.
    - apply Z.eqb_neq in E. pose proof (Index_lower s old) as Hl.
      pose proof (length_after_match s E) as Hs.
      pose proof (Count_nonneg
        (skipn (Z.to_nat (strings.Index s old) + List.length old) s)) as Hc.
      replace (Z.to_nat (1 + strings.Count
                 (skipn (Z.to_nat (strings.Index s old) + List.length old) s) old))
        with (S (Z.to_nat (strings.Count
                 (skipn (Z.to_nat (strings.Index s old) + List.length old) s) old)))
        by lia.
      rewrite Replace_loop_step, IH by lia.
      symmetry. apply replaceAll_found. lia. }
  apply (G (S (List.length s))). lia.
Qed.

(** [strings.Replace s old new n] for a negative [n]. *)
Lemma Replace_all (s : gostring) (n : Z) :
  n < 0 -> strings.Replace s old new n = replaceAll old new s.
Proof.
  intros Hn. unfold strings.Replace.
  destruct (str_eqb old new) eqn:E.
  - apply str_eqb_eq in E. simpl. symmetry. apply replaceAll_same. congruence.
  - replace (n =? 0) with false by (symmetry; apply Z.eqb_neq; lia).
    simpl. destruct (strings.Count s old =? 0) eqn:C.
    + apply Z.eqb_eq in C. apply Count_zero in C.
      symmetry. apply replaceAll_none. exact C.
    + replace (n <? 0) with true by (symmetry; apply Z.ltb_lt; lia).
      simpl. apply Replace_loop_all.
Qed.

(** Where [old] occurs, the result holds [new]. *)
Lemma replaceAll_contains_new (s : gostring) :
  0 <= strings.Index s old ->
  0 <= strings.Index (replaceAll old new s) new.
Proof.
  intros H. rewrite (replaceAll_found s H). apply Index_app_some.
Qed.

(** The first instance in [a ++ old ++ b] is the one after [a] when [a]
    has none and the first character of [old] occurs nowhere else in
    it. *)
Lemma replaceAll_app_first (d : ascii) (t a b : gostring) :
  old = d :: t -> ~ In d t ->
  strings.Index a old = -1 ->
  replaceAll old new (a ++ old ++ b) = a ++ new ++ replaceAll old new b.
Proof.
  intros Eo Hd. induction a as [|c a IH]; intros Ha.
  - simpl app at 1 3.
    assert (old ++ b = d :: (t ++ b)) as E by (rewrite Eo; reflexivity).
    rewrite E, replaceAll_cons, <- E, HasPrefix_app.
    rewrite skipn_app, skipn_all, Nat.sub_diag. reflexivity.
  - apply Index_none_cons in Ha. destruct Ha as [H1 H2].
    change ((c :: a) ++ old ++ b) with (c :: (a ++ old ++ b)).
    rewrite replaceAll_cons.
    change (c :: (a ++ old ++ b)) with ((c :: a) ++ old ++ b).
    assert (strings.HasPrefix ((c :: a) ++ old ++ b) old = false) as F.
    { rewrite Eo in *. apply HasPrefix_straddle;
        [exact Hd | discriminate | exact H1]. }
    rewrite F, (IH H2). reflexivity.
Qed.

End ReplaceAll.

(** ** When does the token survive the substitution?

    The token is [d :: T].  The new text [K] has no [d], is at least as
    long as [T], and does not begin with a tail of [T]: then no token is
    left. *)

Section TokenGone.

Variables (d : ascii) (T K : gostring).
Hypothesis d_notin_K : ~ In d K.
Hypothesis K_long : (List.length T <= List.length K)%nat.
Hypothesis K_no_tail :
  forall r t, T = r ++ t -> t <> [] -> strings.HasPrefix K t = false.

Lemma token_nonempty : d :: T <> [].
Proof. discriminate. Qed.

(** A tail of [T] at the head of the result was at the head of the text. *)
Lemma HasPrefix_replaceAll_tail (t : gostring) :
  t <> [] -> forall r s, T = r ++ t ->
  strings.HasPrefix (replaceAll (d :: T) K s) t = true ->
  strings.HasPrefix s t = true.
Proof.
  induction t as [|x t IH]; intros Hne r s HT H; [congruence|].
  destruct s as [|c s]; [discriminate H|].
  rewrite (replaceAll_cons (d :: T) K token_nonempty) in H.
  destruct (strings.HasPrefix (c :: s) (d :: T)) eqn:E.
  - exfalso. apply HasPrefix_app_cases in H.
    destruct H as [H | [t2 [H1 [H2 _]]]].
    + rewrite (K_no_tail r (x :: t) HT Hne) in H. discriminate.
    + apply (f_equal (@List.length ascii)) in HT, H1.
      rewrite length_app in HT, H1.
      destruct t2; [congruence | cbn [List.length] in *; lia].
  - simpl in H. apply andb_true_iff in H. destruct H as [Hc Ht].
    simpl. rewrite Hc. simpl.
    destruct t as [|y t]; [apply HasPrefix_nil|].
    apply (IH ltac:(discriminate) (r ++ [x])); [|exact Ht].
    rewrite <- app_assoc. exact HT.
Qed.

Lemma replaceAll_token_gone (s : gostring) :
  strings.Index (replaceAll (d :: T) K s) (d :: T) = -1.
Proof.
  assert (forall n s, (List.length s < n)%nat ->
            strings.Index (replaceAll (d :: T) K s) (d :: T) = -1) as G.
  { clear s. induction n as [|n IH]; intros s Hn; [lia|].
    destruct s as [|c s]; [reflexivity|].
    rewrite (replaceAll_cons (d :: T) K token_nonempty).
    destruct (strings.HasPrefix (c :: s) (d :: T)) eqn:E.
    - apply Index_app_skip; [exact d_notin_K|].
      apply IH. rewrite length_skipn. cbn [List.length] in *. lia.
    - apply Index_none_cons. split; [|apply IH; simpl in Hn; lia].
      destruct (strings.HasPrefix (c :: replaceAll (d :: T) K s) (d :: T)) eqn:F;
        [|reflexivity].
      simpl in F. apply andb_true_iff in F. destruct F as [Fc Ft].
      simpl in E. rewrite Fc in E. simpl in E.
      destruct (list_eq_dec ascii_dec T []) as [ET | ET].
      + rewrite ET, HasPrefix_nil in E. discriminate.
      + rewrite (HasPrefix_replaceAll_tail T ET [] s eq_refl Ft) in E.
        discriminate. }
  apply (G (S (List.length s))). lia.
Qed.

End TokenGone.

(** ** encoding/base64: the shape of an encoded text *)

Lemma land_63_range (x : Z) : 0 <= Z.land x 63 < 64.
Proof.
  change 63 with (Z.ones 6). rewrite Z.land_ones by lia.
  apply Z.mod_pos_bound. reflexivity.
Qed.

Lemma encodeChar_In (v : Z) :
  0 <= v < 64 ->
  In (base64.encodeChar base64.encodeStd v) base64.encodeStd.
Proof.
  intros H. unfold base64.encodeChar. apply nth_In.
  change (List.length base64.encodeStd) with 64%nat. lia.
Qed.

Lemma encoded_char (x : Z) :
  base64_char (base64.encodeChar base64.encodeStd (Z.land x 63)).
Proof. left. apply encodeChar_In, land_63_range. Qed.

Lemma pad_char : base64_char base64.padChar.
Proof. right. reflexivity. Qed.

Lemma EncodeToString_shape (src : gostring) :
  Forall base64_char (base64.EncodeToString base64.encodeStd src) /\
  List.length (base64.EncodeToString base64.encodeStd src)
  = (4 * ((List.length src + 2) / 3))%nat.
Proof.
  assert (forall n src, (List.length src < n)%nat ->
    Forall base64_char (base64.EncodeToString base64.encodeStd src) /\
    List.length (base64.EncodeToString base64.encodeStd src)
    = (4 * ((List.length src + 2) / 3))%nat) as G.
  { clear src. induction n as [|n IH]; intros src Hn; [lia|].
    destruct src as [|a [|b [|c rest]]].
    - split; [constructor | reflexivity].
    - split; [|reflexivity].
      cbn [base64.EncodeToString].
      apply Forall_cons; [apply encoded_char|].
      apply Forall_cons; [apply encoded_char|].
      apply Forall_cons; [apply pad_char|].
      apply Forall_cons; [apply pad_char|]. apply Forall_nil.
    - split; [|reflexivity].
      cbn [base64.EncodeToString].
      apply Forall_cons; [apply encoded_char|].
      apply Forall_cons; [apply encoded_char|].
      apply Forall_cons; [apply encoded_char|].
      apply Forall_cons; [apply pad_char|]. apply Forall_nil.
    - cbn [base64.EncodeToString].
      destruct (IH rest) as [IH1 IH2]; [simpl in Hn; lia|].
      split.
      + apply Forall_cons; [apply encoded_char|].
        apply Forall_cons; [apply encoded_char|].
        apply Forall_cons; [apply encoded_char|].
        apply Forall_cons; [apply encoded_char|]. exact IH1.
      + cbn [List.length]. rewrite IH2.
        replace (S (S (S (List.length rest))) + 2)%nat
          with (List.length rest + 2 + 1 * 3)%nat by lia.
        rewrite Nat.div_add by lia. lia. }
  apply (G (S (List.length src))). lia.
Qed.

(** ** The result monad *)

Lemma bind_Ok {A B} (r : result A) (k : A -> result B) (b : B) :
  bind r k = Ok b -> exists a, r = Ok a /\ k a = Ok b.
Proof. destruct r; simpl; intros H; [eauto | discriminate | discriminate]. Qed.

Lemma wrap_Ok {A} (msg : string) (r : result A) (a : A) :
  wrap msg r = Ok a -> r = Ok a.
Proof. destruct r; simpl; intros H; congruence. Qed.

Lemma Ok_inj {A} (x y : A) : Ok x = Ok y -> x = y.
Proof. intros H. injection H as H. exact H. Qed.

(** ** Evaluating [main] *)

Lemma sample_keypair (w : World) :
  rand_fails w 0 = false ->
  map (rand_stream w) (seq 0 32) = sample_seed ->
  GenerateX25519KeyPair w = Ok (sample_private, sample_public).
Proof.
  intros Hf Hs. unfold GenerateX25519KeyPair, rand_Read.
  change curve25519.ScalarSize with 32%nat. rewrite Hf, Hs.
  vm_cast_no_check (eq_refl (@Ok (gostring * gostring)
                               (sample_private, sample_public))).
Qed.

Lemma sample_world_keypair (link : gostring) (status : Z) (body : gostring) :
  GenerateX25519KeyPair (sample_world link status body)
  = Ok (sample_private, sample_public).
Proof. apply sample_keypair; reflexivity. Qed.

(** [main_stages] once the link is decoded and the keys and the request
    identifier are drawn. *)
Lemma main_stages_eq (w : World) (key : gostring) (decoded : DecodedData)
  (first second id : gostring) :
  decodeAndParse key = Ok decoded ->
  GenerateX25519KeyPair w = Ok (first, second) ->
  uuid_New w = Ok id ->
  main_stages w key =
  (responseBody <- sendPostRequest w (APIEndpoint decoded)
                     {| PublicKey := first;
                        OSVersion := lit "macOS";
                        AppVersion := lit "4.8.2.3";
                        UUID := uuid.String id |}
                     (APIKey decoded) {| ResponseBody_Config := [] |} ;;
   lastConfig <- main_response responseBody ;;
   Ok (second, lastConfig)).
Proof.
  intros H1 H2 H3. unfold main_stages, main_request.
  rewrite H1. cbn [bind]. rewrite H2. cbn [bind]. rewrite H3. reflexivity.
Qed.

Lemma sample_decoded :
  decodeAndParse sample_link
  = Ok {| APIEndpoint := lit "https://mock"; APIKey := lit "K" |}.
Proof. vm_compute. reflexivity. Qed.

Lemma sample_uuid (link : gostring) (status : Z) (body : gostring) :
  uuid_New (sample_world link status body)
  = Ok (uuid.NewRandom (repeat zero 16)).
Proof. reflexivity. Qed.

Lemma sample_stages (status : Z) (body : gostring) :
  main_stages (sample_world sample_link status body) sample_link =
  (responseBody <- sendPostRequest (sample_world sample_link status body)
                     (lit "https://mock")
                     {| PublicKey := sample_private;
                        OSVersion := lit "macOS";
                        AppVersion := lit "4.8.2.3";
                        UUID := uuid.String (uuid.NewRandom (repeat zero 16)) |}
                     (lit "K") {| ResponseBody_Config := [] |} ;;
   lastConfig <- main_response responseBody ;;
   Ok (sample_public, lastConfig)).
Proof.
  apply (main_stages_eq _ _ {| APIEndpoint := lit "https://mock"; APIKey := lit "K" |}).
  - exact sample_decoded.
  - apply sample_world_keypair.
  - apply sample_uuid.
Qed.

Lemma main_of_stages_Panic (w : World) (p : panic) :
  flag_key w <> [] ->
  main_stages w (flag_key w) = Panic p ->
  main w = {| stdout := []; exit := Crashed p |}.
Proof.
  intros Hk H. unfold main.
  apply str_eqb_neq in Hk. rewrite Hk, H. reflexivity.
Qed.

Lemma main_of_stages_Err (w : World) (e : error) :
  flag_key w <> [] ->
  main_stages w (flag_key w) = Err e ->
  main w = {| stdout := []; exit := Fatal e |}.
Proof.
  intros Hk H. unfold main.
  apply str_eqb_neq in Hk. rewrite Hk, H. reflexivity.
Qed.


(** ** decode *)

Lemma decode_eq (s : gostring) :
  decode s = decode_payload (strings.Replace s scheme_marker [] (-1)).
Proof. reflexivity. Qed.

(** C3.  The text decodes from base64 to fewer than four bytes: [decode]
    does not return an error, the slice expression [decodedBytes[4:]]
    panics. *)
Theorem decode_short_payload_panics (s bytes : gostring) :
  base64.DecodeString base64.encodeURL
    (strings.Replace s scheme_marker [] (-1)) = Ok bytes ->
  (List.length bytes < 4)%nat ->
  decode s = Panic (SliceBoundsOutOfRange 4 (List.length bytes)).
Proof.
  intros Hb Hl. rewrite decode_eq. unfold decode_payload.
  rewrite Hb. simpl. unfold slice_from.
  apply Nat.ltb_lt in Hl. rewrite Hl. reflexivity.
Qed.

Lemma decode_short_payload_panics_witness :
  base64.DecodeString base64.encodeURL
    (strings.Replace (lit "QUJD") scheme_marker [] (-1)) = Ok (lit "ABC")
  /\ (List.length (lit "ABC") < 4)%nat
  /\ decode (lit "QUJD") = Panic (SliceBoundsOutOfRange 4 3).
Proof.
  split; [reflexivity|]. split; [simpl; lia|].
  apply (decode_short_payload_panics (lit "QUJD") (lit "ABC")).
  - reflexivity.
  - simpl; lia.
Defined.

(** C10.  The text decodes from base64 to exactly four bytes: nothing is
    left after the header, the slice is empty, [zlib.NewReader] fails on
    it for want of the two header bytes, and [decode] returns that error
    of the decompression step. *)
Theorem decode_header_only (s bytes : gostring) :
  base64.DecodeString base64.encodeURL
    (strings.Replace s scheme_marker [] (-1)) = Ok bytes ->
  List.length bytes = 4%nat ->
  slice_from 4 bytes = Ok []
  /\ zlib.NewReader [] = Err (ErrLib io_ErrUnexpectedEOF)
  /\ decode s = Err (ErrWrap (lit "failed to create zlib reader: ")
                       (ErrLib io_ErrUnexpectedEOF)).
Proof.
  intros Hb Hl.
  assert (slice_from 4 bytes = Ok []) as Hs.
  { destruct bytes as [|b0 [|b1 [|b2 [|b3 [|b4 r]]]]]; try discriminate.
    reflexivity. }
  split; [exact Hs|]. split; [reflexivity|].
  rewrite decode_eq. unfold decode_payload. rewrite Hb. simpl.
  rewrite Hs. reflexivity.
Qed.

Lemma decode_header_only_witness :
  base64.DecodeString base64.encodeURL
    (strings.Replace (lit "QUJDRA==") scheme_marker [] (-1)) = Ok (lit "ABCD")
  /\ decode (lit "QUJDRA==")
     = Err (ErrWrap (lit "failed to create zlib reader: ")
              (ErrLib io_ErrUnexpectedEOF)).
Proof.
  split; [reflexivity|].
  apply (decode_header_only (lit "QUJDRA==") (lit "ABCD")); reflexivity.
Defined.

(** C7, as the claim has it, fails: in [link_marker_inside] the marker is
    not a prefix, yet [decode] takes it out and decodes the rest to the
    document [{}]; decoded as it is, the text is not base64. *)
Lemma marker_inside_is_removed :
  strings.HasPrefix link_marker_inside scheme_marker = false
  /\ decode link_marker_inside = Ok (lit "{}")
  /\ decode_payload link_marker_inside
     = Err (ErrWrap (lit "failed to decode Base64 string: ")
              (ErrLib base64_CorruptInputError)).
Proof. repeat split; vm_compute; reflexivity. Qed.

Lemma scheme_marker_shape :
  scheme_marker = "v"%char :: lit "pn://" /\ ~ In "v"%char (lit "pn://").
Proof.
  split; [reflexivity|]. simpl. intros H.
  repeat (destruct H as [H | H]; [discriminate H|]). exact H.
Qed.

(** C7, amended.  [decode] takes every instance of the marker out of the
    text, wherever it stands, and decodes what is left: a text without
    the marker is decoded as it is, and a text with the marker after a
    part [a] that has none loses it there, as does what follows. *)
Theorem decode_removes_every_marker (s : gostring) :
  decode s = decode_payload (strings.Replace s scheme_marker [] (-1))
  /\ (strings.Index s scheme_marker = -1 ->
      strings.Replace s scheme_marker [] (-1) = s /\ decode s = decode_payload s)
  /\ (forall a b, s = a ++ scheme_marker ++ b ->
      strings.Index a scheme_marker = -1 ->
      strings.Replace s scheme_marker [] (-1)
      = a ++ strings.Replace b scheme_marker [] (-1)).
Proof.
  assert (scheme_marker <> []) as Hne by discriminate.
  split; [apply decode_eq|]. split.
  - intros H.
    assert (strings.Replace s scheme_marker [] (-1) = s) as E.
    { rewrite (Replace_all _ _ Hne) by lia. apply replaceAll_none; assumption. }
    split; [exact E|]. rewrite decode_eq, E. reflexivity.
  - intros a b -> Ha.
    rewrite !(Replace_all _ _ Hne) by lia.
    destruct scheme_marker_shape as [Es Hv].
    exact (replaceAll_app_first scheme_marker [] Hne "v"%char (lit "pn://")
             a b Es Hv Ha).
Qed.

Lemma decode_removes_every_marker_witness :
  strings.Index (lit "AAAAAnjaq64F") scheme_marker = -1
  /\ strings.Replace link_marker_inside scheme_marker [] (-1)
     = lit "AAAAAnjaq64F" ++ strings.Replace (lit "AAF1APk=") scheme_marker [] (-1)
  /\ strings.Index link_empty_object scheme_marker = -1
  /\ decode link_empty_object = decode_payload link_empty_object.
Proof.
  split; [reflexivity|]. split.
  - apply (proj2 (proj2 (decode_removes_every_marker link_marker_inside))
             (lit "AAAAAnjaq64F") (lit "AAF1APk=")); reflexivity.
  - split; [reflexivity|].
    apply (proj1 (proj2 (decode_removes_every_marker link_empty_object))).
    reflexivity.
Defined.

(** ** sendPostRequest *)

(** C9.  The server answers with a status outside 200..299:
    [sendPostRequest] returns the error whose text holds the status in
    decimal and the body as read, and [main] ends there with
    [log.Fatalf], nothing printed, the response neither decoded nor
    assembled.  A status within 200..299 never gives that error. *)
Theorem server_rejection (w : World) (url apiKey : gostring)
  (body : RequestBody) (response : ResponseBody) (resp : http.Response) :
  url <> [] -> apiKey <> [] -> url_accepted w url = true ->
  client_Do w (post_request url body apiKey) = Some resp ->
  (http.StatusCode resp < 200 \/ 300 <= http.StatusCode resp ->
   sendPostRequest w url body apiKey response
   = Err (ErrText (lit "unexpected HTTP status code: "
                     ++ fmt.Itoa (http.StatusCode resp)
                     ++ lit ", Response: " ++ http.Body resp))
   /\ forall decoded privateKey,
        flag_key w <> [] ->
        main_request w (flag_key w) = Ok (decoded, privateKey, body) ->
        APIEndpoint decoded = url -> APIKey decoded = apiKey ->
        main w = {| stdout := [];
                    exit := Fatal (ErrText
                              (lit "unexpected HTTP status code: "
                                 ++ fmt.Itoa (http.StatusCode resp)
                                 ++ lit ", Response: " ++ http.Body resp)) |})
  /\ (200 <= http.StatusCode resp < 300 ->
      forall status text,
        sendPostRequest w url body apiKey response
        <> Err (status_error status text)).
Proof.
  intros Hu Hk Ha Hd.
  apply str_eqb_neq in Hu, Hk.
  assert (forall r, sendPostRequest w url body apiKey r =
            if (http.StatusCode resp <? 200) || (300 <=? http.StatusCode resp)
            then Err (status_error (http.StatusCode resp) (http.Body resp))
            else match http.BodyErr resp with
                 | Some e => Err (ErrWrap (lit "failed to read response body: ")
                                    (ErrLib e))
                 | None => wrap "failed to parse response JSON: "
                             (Unmarshal into_ResponseBody (http.Body resp) r)
                 end) as E.
  { intros r. unfold sendPostRequest. rewrite Hu, Hk, Ha, Hd. reflexivity. }
  split.
  - intros Hs.
    assert ((http.StatusCode resp <? 200) || (300 <=? http.StatusCode resp) = true)
      as Hb.
    { apply orb_true_iff. destruct Hs; [left; apply Z.ltb_lt | right; apply Z.leb_le];
        assumption. }
    split.
    + rewrite E, Hb. reflexivity.
    + intros decoded privateKey Hf Hm Eu Ek.
      apply main_of_stages_Err; [exact Hf|].
      unfold main_stages. rewrite Hm. simpl. rewrite Eu, Ek, E, Hb. reflexivity.
  - intros [H1 H2] status text. rewrite E.
    replace (http.StatusCode resp <? 200) with false
      by (symmetry; apply Z.ltb_ge; lia).
    replace (300 <=? http.StatusCode resp) with false
      by (symmetry; apply Z.leb_gt; lia).
    simpl. destruct (http.BodyErr resp); [discriminate|].
    destruct (Unmarshal into_ResponseBody (http.Body resp) response);
      discriminate.
Qed.

Lemma sample_request (link : gostring) (status : Z) (body : gostring) :
  link = sample_link ->
  main_request (sample_world link status body) link
  = Ok ({| APIEndpoint := lit "https://mock"; APIKey := lit "K" |},
        sample_public,
        {| PublicKey := sample_private;
           OSVersion := lit "macOS";
           AppVersion := lit "4.8.2.3";
           UUID := uuid.String (uuid.NewRandom (repeat zero 16)) |}).
Proof.
  intros ->. unfold main_request.
  rewrite sample_decoded. cbn [bind]. rewrite sample_world_keypair. reflexivity.
Qed.

Lemma server_rejection_witness :
  main world_forbidden
  = {| stdout := [];
       exit := Fatal (ErrText
                 (lit "unexpected HTTP status code: 403, Response: forbidden")) |}.
Proof.
  refine (proj2 (proj1 (server_rejection world_forbidden
            (lit "https://mock") (lit "K")
            {| PublicKey := sample_private;
               OSVersion := lit "macOS";
               AppVersion := lit "4.8.2.3";
               UUID := uuid.String (uuid.NewRandom (repeat zero 16)) |}
            {| ResponseBody_Config := [] |}
            {| http.StatusCode := 403; http.Body := lit "forbidden";
               http.BodyErr := None |} _ _ _ _) _)
            {| APIEndpoint := lit "https://mock"; APIKey := lit "K" |}
            sample_public _ _ _ _).
  - discriminate.
  - discriminate.
  - reflexivity.
  - reflexivity.
  - right. simpl. lia.
  - discriminate.
  - apply sample_request. reflexivity.
  - reflexivity.
  - reflexivity.
Defined.

(** ** GenerateX25519KeyPair *)

Lemma clamp_first_byte (c : ascii) : Z.land (byte_val (byte_and 248 c)) 7 = 0.
Proof.
  destruct c as [b0 b1 b2 b3 b4 b5 b6 b7].
  destruct b0, b1, b2, b3, b4, b5, b6, b7; reflexivity.
Qed.

Lemma clamp_last_byte (c : ascii) :
  Z.testbit (byte_val (byte_or 64 (byte_and 127 c))) 7 = false
  /\ Z.testbit (byte_val (byte_or 64 (byte_and 127 c))) 6 = true.
Proof.
  destruct c as [b0 b1 b2 b3 b4 b5 b6 b7].
  destruct b0, b1, b2, b3, b4, b5, b6, b7; split; reflexivity.
Qed.

Lemma X25519_basepoint (scalar : gostring) :
  List.length scalar = 32%nat ->
  curve25519.X25519 scalar curve25519.Basepoint
  = if curve25519.isZero (curve25519.scalarMult scalar curve25519.Basepoint)
    then Err (ErrLib curve25519_error)
    else Ok (curve25519.scalarMult scalar curve25519.Basepoint).
Proof.
  intros H. unfold curve25519.X25519. rewrite H. reflexivity.
Qed.

Lemma GenerateX25519KeyPair_eq (w : World) :
  rand_fails w 0 = false ->
  GenerateX25519KeyPair w =
  (publicKey <- wrap "failed to compute public key: "
                  (curve25519.X25519 (clamp (map (rand_stream w) (seq 0 32)))
                     curve25519.Basepoint) ;;
   Ok (base64.EncodeToString base64.encodeStd
         (clamp (map (rand_stream w) (seq 0 32))),
       base64.EncodeToString base64.encodeStd publicKey)).
Proof.
  intros H. unfold GenerateX25519KeyPair, rand_Read. rewrite H. reflexivity.
Qed.

(** C8.  Whatever 32 bytes the random source gives, the private key is
    those bytes with the three low bits of byte 0 and the top bit of byte
    31 cleared and bit 6 of byte 31 set (the other bytes as drawn), and
    the public key is X25519 of that scalar and the base point; both are
    returned in base64, private key first.  (The library refuses an
    all-zero product, which the base point does not give.) *)
Theorem keypair_clamped_and_derived (w : World) :
  rand_fails w 0 = false ->
  let seed := map (rand_stream w) (seq 0 32) in
  let privateKey := clamp seed in
  let publicKey := curve25519.scalarMult privateKey curve25519.Basepoint in
  List.length privateKey = 32%nat
  /\ Z.land (byte_val (nth 0 privateKey zero)) 7 = 0
  /\ Z.testbit (byte_val (nth 31 privateKey zero)) 7 = false
  /\ Z.testbit (byte_val (nth 31 privateKey zero)) 6 = true
  /\ (forall i, i <> 0%nat -> i <> 31%nat ->
      nth i privateKey zero = nth i seed zero)
  /\ GenerateX25519KeyPair w =
     if curve25519.isZero publicKey
     then Err (ErrWrap (lit "failed to compute public key: ")
                 (ErrLib curve25519_error))
     else Ok (base64.EncodeToString base64.encodeStd privateKey,
              base64.EncodeToString base64.encodeStd publicKey).
Proof.
  intros Hf seed privateKey publicKey.
  assert (List.length privateKey = 32%nat) as Hl by reflexivity.
  split; [exact Hl|].
  split; [apply clamp_first_byte|].
  split; [apply (proj1 (clamp_last_byte _))|].
  split; [apply (proj2 (clamp_last_byte _))|].
  split.
  - intros i H0 H31.
    do 32 (destruct i as [|i]; [try congruence; reflexivity|]).
    reflexivity.
  - rewrite (GenerateX25519KeyPair_eq w Hf).
    fold seed. fold privateKey.
    rewrite (X25519_basepoint privateKey Hl). fold publicKey.
    destruct (curve25519.isZero publicKey); reflexivity.
Qed.

Lemma keypair_clamped_and_derived_witness :
  rand_fails world_ok 0 = false
  /\ let privateKey := clamp (map (rand_stream world_ok) (seq 0 32)) in
     let publicKey := curve25519.scalarMult privateKey curve25519.Basepoint in
     List.length privateKey = 32%nat
     /\ Z.land (byte_val (nth 0 privateKey zero)) 7 = 0
     /\ Z.testbit (byte_val (nth 31 privateKey zero)) 7 = false
     /\ Z.testbit (byte_val (nth 31 privateKey zero)) 6 = true
     /\ (forall i, i <> 0%nat -> i <> 31%nat ->
         nth i privateKey zero = nth i (map (rand_stream world_ok) (seq 0 32)) zero)
     /\ GenerateX25519KeyPair world_ok =
        if curve25519.isZero publicKey
        then Err (ErrWrap (lit "failed to compute public key: ")
                    (ErrLib curve25519_error))
        else Ok (base64.EncodeToString base64.encodeStd privateKey,
                 base64.EncodeToString base64.encodeStd publicKey).
Proof.
  split; [reflexivity|].
  apply (keypair_clamped_and_derived world_ok). reflexivity.
Defined.

(** ** main *)

Lemma main_unfold (w : World) :
  flag_key w <> [] ->
  main w =
  match main_stages w (flag_key w) with
  | Err e => {| stdout := []; exit := Fatal e |}
  | Panic p => {| stdout := []; exit := Crashed p |}
  | Ok (privateKey, lastConfig) =>
    match assert_string (json.map_index lastConfig (lit "config")) with
    | Ok template =>
      {| stdout := (nl ++ lit "Private key: " ++ privateKey ++ nl)
                     ++ nl ++ lit "Response: " ++ nl
                     ++ strings.Replace template placeholder privateKey (-1) ++ nl;
         exit := Returned |}
    | Err e => {| stdout := nl ++ lit "Private key: " ++ privateKey ++ nl;
                  exit := Fatal e |}
    | Panic p => {| stdout := nl ++ lit "Private key: " ++ privateKey ++ nl;
                    exit := Crashed p |}
    end
  end.
Proof.
  intros H. unfold main. apply str_eqb_neq in H. rewrite H. reflexivity.
Qed.

Lemma clamp_length (w : World) :
  List.length (clamp (map (rand_stream w) (seq 0 32))) = 32%nat.
Proof. reflexivity. Qed.

Lemma scalarMult_length (scalar point : gostring) :
  List.length (curve25519.scalarMult scalar point) = 32%nat.
Proof.
  unfold curve25519.scalarMult, curve25519.encodeLittleEndian.
  rewrite length_map, length_seq. reflexivity.
Qed.

(** What [GenerateX25519KeyPair] returns when it returns a pair. *)
Lemma GenerateX25519KeyPair_Ok (w : World) (first second : gostring) :
  GenerateX25519KeyPair w = Ok (first, second) ->
  first = base64.EncodeToString base64.encodeStd
            (clamp (map (rand_stream w) (seq 0 32)))
  /\ second = base64.EncodeToString base64.encodeStd
                (curve25519.scalarMult (clamp (map (rand_stream w) (seq 0 32)))
                   curve25519.Basepoint).
Proof.
  intros H. destruct (rand_fails w 0) eqn:Hf.
  - unfold GenerateX25519KeyPair, rand_Read in H. rewrite Hf in H. discriminate.
  - rewrite (GenerateX25519KeyPair_eq w Hf) in H.
    rewrite (X25519_basepoint _ (clamp_length w)) in H.
    destruct (curve25519.isZero _); [discriminate|].
    cbn [wrap bind] in H. apply Ok_inj, pair_equal_spec in H.
    destruct H as [H1 H2]. split; symmetry; assumption.
Qed.

Lemma main_request_Ok (w : World) (key : gostring) (decoded : DecodedData)
  (privateKey : gostring) (requestBody : RequestBody) :
  main_request w key = Ok (decoded, privateKey, requestBody) ->
  exists first id,
    decodeAndParse key = Ok decoded
    /\ GenerateX25519KeyPair w = Ok (first, privateKey)
    /\ uuid_New w = Ok id
    /\ requestBody = {| PublicKey := first;
                        OSVersion := lit "macOS";
                        AppVersion := lit "4.8.2.3";
                        UUID := uuid.String id |}.
Proof.
  intros H. unfold main_request in H.
  apply bind_Ok in H. destruct H as [d [Hd H]].
  apply bind_Ok in H. destruct H as [[a b] [Hk H]].
  apply bind_Ok in H. destruct H as [id [Hi H]].
  injection H as -> -> <-. exists a, id. repeat split; assumption.
Qed.

(** C2.  The claim does not hold of the code: the generator returns the
    private key first and the public key second, and [main] binds them
    to [pubKey] and [privateKey] in that order.  The request body then
    carries, as [public_key], the base64 text of the clamped private
    scalar, and the variable [privateKey] holds the base64 text of the
    X25519 public key.  The labels and the request identifier are as the
    claim has them. *)
Theorem request_carries_private_key (w : World) (key : gostring)
  (decoded : DecodedData) (privateKey : gostring) (requestBody : RequestBody) :
  main_request w key = Ok (decoded, privateKey, requestBody) ->
  let scalar := clamp (map (rand_stream w) (seq 0 32)) in
  let public := curve25519.scalarMult scalar curve25519.Basepoint in
  GenerateX25519KeyPair w
  = Ok (base64.EncodeToString base64.encodeStd scalar,
        base64.EncodeToString base64.encodeStd public)
  /\ PublicKey requestBody = base64.EncodeToString base64.encodeStd scalar
  /\ privateKey = base64.EncodeToString base64.encodeStd public
  /\ OSVersion requestBody = lit "macOS"
  /\ AppVersion requestBody = lit "4.8.2.3"
  /\ (exists id, uuid_New w = Ok id /\ UUID requestBody = uuid.String id)
  /\ forall url apiKey,
       http.Payload (post_request url requestBody apiKey)
       = json.Object
           [ (lit "public_key",
              json.Str (base64.EncodeToString base64.encodeStd scalar));
             (lit "os_version", json.Str (lit "macOS"));
             (lit "app_version", json.Str (lit "4.8.2.3"));
             (lit "uuid", json.Str (UUID requestBody)) ].
Proof.
  intros H scalar public.
  apply main_request_Ok in H. destruct H as [first [id [_ [Hk [Hi ->]]]]].
  destruct (GenerateX25519KeyPair_Ok w first privateKey Hk) as [E1 E2].
  fold scalar in E1, E2. fold public in E2. subst first privateKey.
  split; [exact Hk|]. cbn [PublicKey OSVersion AppVersion UUID].
  repeat split. exists id. split; [exact Hi | reflexivity].
Qed.

Lemma request_carries_private_key_witness :
  main_request world_ok sample_link
  = Ok ({| APIEndpoint := lit "https://mock"; APIKey := lit "K" |},
        sample_public,
        {| PublicKey := sample_private;
           OSVersion := lit "macOS";
           AppVersion := lit "4.8.2.3";
           UUID := uuid.String (uuid.NewRandom (repeat zero 16)) |})
  /\ sample_private
     = base64.EncodeToString base64.encodeStd
         (clamp (map (rand_stream world_ok) (seq 0 32)))
  /\ sample_private <> sample_public.
Proof.
  assert (main_request world_ok sample_link
          = Ok ({| APIEndpoint := lit "https://mock"; APIKey := lit "K" |},
                sample_public,
                {| PublicKey := sample_private;
                   OSVersion := lit "macOS";
                   AppVersion := lit "4.8.2.3";
                   UUID := uuid.String (uuid.NewRandom (repeat zero 16)) |}))
    as H by (apply sample_request; reflexivity).
  split; [exact H|]. split.
  - exact (proj1 (proj2 (request_carries_private_key _ _ _ _ _ H))).
  - discriminate.
Defined.

(** ** Containers and the nested document *)

Lemma fold_member_into_None {T}
  (store : T -> gostring -> json.value -> option T)
  (ms : list (gostring * json.value)) :
  fold_left (member_into store) ms None = None.
Proof. induction ms as [|kv ms IH]; [reflexivity | exact IH]. Qed.

(** An object without a member for [containers] leaves the slice as it
    was. *)
Lemma into_Config_no_member (c : Config) (ms : list (gostring * json.value)) :
  (forall kv, In kv ms -> json.equalFold "containers" (fst kv) = false) ->
  into_Config c (json.Object ms) = Some c.
Proof.
  unfold into_Config, struct_into. revert c.
  induction ms as [|kv ms IH]; intros c H; [reflexivity|].
  cbn [fold_left member_into].
  rewrite (H kv (or_introl eq_refl)). apply IH.
  intros kv' Hin. apply H. right. exact Hin.
Qed.

Lemma main_response_no_containers (responseBody : ResponseBody)
  (decodedConfig : gostring) (config : Config) :
  decode (ResponseBody_Config responseBody) = Ok decodedConfig ->
  Unmarshal into_Config decodedConfig {| Containers := [] |} = Ok config ->
  Containers config = [] ->
  main_response responseBody = Panic (IndexOutOfRange 0 0).
Proof.
  intros Hd Hu Hc. unfold main_response.
  rewrite Hd. cbn [bind]. rewrite Hu. cbn [bind]. rewrite Hc. reflexivity.
Qed.

(** C4.  The claim does not hold of the code: when the decoded response
    has no container (the list is absent, null or empty, so that
    [config.Containers] has length 0), nothing guards
    [config.Containers[0]] and [main] ends in the run-time panic
    "index out of range [0] with length 0", not in an error. *)
Theorem no_containers_panics (w : World) (decoded : DecodedData)
  (privateKey : gostring) (requestBody : RequestBody)
  (responseBody : ResponseBody) (decodedConfig : gostring) (config : Config) :
  flag_key w <> [] ->
  main_request w (flag_key w) = Ok (decoded, privateKey, requestBody) ->
  sendPostRequest w (APIEndpoint decoded) requestBody (APIKey decoded)
    {| ResponseBody_Config := [] |} = Ok responseBody ->
  decode (ResponseBody_Config responseBody) = Ok decodedConfig ->
  Unmarshal into_Config decodedConfig {| Containers := [] |} = Ok config ->
  Containers config = [] ->
  main w = {| stdout := []; exit := Crashed (IndexOutOfRange 0 0) |}.
Proof.
  intros Hf Hr Hs Hd Hu Hc.
  apply main_of_stages_Panic; [exact Hf|].
  unfold main_stages. rewrite Hr. cbn [bind]. rewrite Hs. cbn [bind].
  rewrite (main_response_no_containers _ _ _ Hd Hu Hc). reflexivity.
Qed.

Lemma no_containers_panics_witness :
  main world_empty_containers
  = {| stdout := []; exit := Crashed (IndexOutOfRange 0 0) |}.
Proof.
  eapply (no_containers_panics world_empty_containers).
  - discriminate.
  - apply sample_request. reflexivity.
  - vm_compute. reflexivity.
  - vm_compute. reflexivity.
  - vm_compute. reflexivity.
  - reflexivity.
Defined.

(** The documents [{}], [{"containers":null}] and [{"containers":[]}]
    all leave the slice empty. *)
Lemma documents_without_containers :
  Unmarshal into_Config (lit "{}") {| Containers := [] |}
  = Ok {| Containers := [] |}
  /\ into_Config {| Containers := [] |}
       (json.Object [(lit "containers", json.Null)])
     = Some {| Containers := [] |}
  /\ into_Config {| Containers := [] |}
       (json.Object [(lit "containers", json.Array [])])
     = Some {| Containers := [] |}.
Proof. repeat split. Qed.

(** Reading a key of the map decoded from an object: the last member
    with that key. *)
Lemma map_index_assign {V} (m : json.gomap V) (k k' : gostring) (v : V) :
  json.map_index (json.map_assign m k' v) k
  = if str_eqb k' k then Some v else json.map_index m k.
Proof.
  unfold json.map_index, json.map_assign. cbn [find fst snd].
  destruct (str_eqb k' k) eqn:E; [reflexivity|].
  f_equal. induction m as [|[a x] m IH]; [reflexivity|].
  cbn [filter fst]. destruct (str_eqb a k') eqn:E1; cbn [negb find fst].
  - apply str_eqb_eq in E1. subst a. rewrite E. exact IH.
  - destruct (str_eqb a k); [reflexivity | exact IH].
Qed.

Lemma decodeMap_index (ms : list (gostring * json.value))
  (m : json.gomap json.value) (k : gostring) :
  json.decodeMap (json.Object ms) = Some m ->
  json.map_index m k
  = option_map snd (find (fun kv => str_eqb (fst kv) k) (rev ms)).
Proof.
  unfold json.decodeMap.
  assert (forall m0 m,
    fold_left (fun acc kv =>
                 match acc with
                 | Some m => if json.storeInterface (snd kv)
                             then Some (json.map_assign m (fst kv) (snd kv))
                             else None
                 | None => None
                 end) ms (Some m0) = Some m ->
    json.map_index m k
    = match find (fun kv => str_eqb (fst kv) k) (rev ms) with
      | Some kv => Some (snd kv)
      | None => json.map_index m0 k
      end) as G.
  { induction ms as [|[a x] ms IH]; intros m0 m1 H.
    - injection H as <-. reflexivity.
    - cbn [fold_left fst snd] in H.
      destruct (json.storeInterface x).
      + rewrite (IH _ _ H). cbn [rev]. rewrite find_app.
        destruct (find _ (rev ms)); [reflexivity|].
        cbn [find fst snd]. rewrite map_index_assign.
        destruct (str_eqb a k); reflexivity.
      + exfalso. clear - H. induction ms as [|kv ms IH]; [discriminate|].
        apply IH. exact H. }
  intros H. rewrite (G [] m H).
  destruct (find _ (rev ms)); reflexivity.
Qed.

(** C6.  The claim does not hold of the code: when the nested document
    has no [config] member, or one that is not a string, the type
    assertion [lastConfig["config"].(string)] panics; the line
    "Private key: ..." is already printed by then. *)
Theorem missing_config_field_panics (w : World) (privateKey : gostring)
  (lastConfig : json.gomap json.value) :
  flag_key w <> [] ->
  main_stages w (flag_key w) = Ok (privateKey, lastConfig) ->
  (forall template,
     json.map_index lastConfig (lit "config") <> Some (json.Str template)) ->
  main w = {| stdout := nl ++ lit "Private key: " ++ privateKey ++ nl;
              exit := Crashed InterfaceConversion |}.
Proof.
  intros Hf Hs Hc. rewrite (main_unfold w Hf), Hs.
  destruct (json.map_index lastConfig (lit "config")) as [v|]; [|reflexivity].
  destruct v; try reflexivity. exfalso. apply (Hc s). reflexivity.
Qed.

Lemma missing_config_field_panics_witness :
  main_stages world_no_config_field sample_link = Ok (sample_public, [])
  /\ main world_no_config_field
     = {| stdout := nl ++ lit "Private key: " ++ sample_public ++ nl;
          exit := Crashed InterfaceConversion |}.
Proof.
  assert (main_stages world_no_config_field sample_link = Ok (sample_public, []))
    as H.
  { unfold world_no_config_field. rewrite sample_stages. vm_compute. reflexivity. }
  split; [exact H|].
  apply (missing_config_field_panics world_no_config_field sample_public []).
  - discriminate.
  - exact H.
  - discriminate.
Defined.

(** ** decodeAndParse *)

Lemma field_from_cons (name : string) (kv : gostring * json.value)
  (ms : list (gostring * json.value)) (old : gostring) :
  field_from name (kv :: ms) old =
  if json.equalFold name (fst kv)
  then match json.storeString old (snd kv) with
       | Some s => field_from name ms s
       | None => None
       end
  else field_from name ms old.
Proof.
  unfold field_from. cbn [fold_left].
  destruct (json.equalFold name (fst kv)); [|reflexivity].
  destruct (json.storeString old (snd kv)); [reflexivity|].
  induction ms as [|x ms IH]; [reflexivity | exact IH].
Qed.

Lemma field_names_apart (key : gostring) :
  json.equalFold "api_endpoint" key = true ->
  json.equalFold "api_key" key = false.
Proof.
  unfold json.equalFold. intros H. apply str_eqb_eq in H.
  apply str_eqb_neq. rewrite <- H. discriminate.
Qed.

(** [into_DecodedData], field by field. *)
Lemma into_DecodedData_fields (ms : list (gostring * json.value))
  (d : DecodedData) :
  into_DecodedData d (json.Object ms) =
  match field_from "api_endpoint" ms (APIEndpoint d),
        field_from "api_key" ms (APIKey d) with
  | Some endpoint, Some credential =>
    Some {| APIEndpoint := endpoint; APIKey := credential |}
  | _, _ => None
  end.
Proof.
  unfold into_DecodedData, struct_into. revert d.
  induction ms as [|kv ms IH]; intros d.
  - destruct d; reflexivity.
  - rewrite !field_from_cons. cbn [fold_left member_into].
    destruct (json.equalFold "api_endpoint" (fst kv)) eqn:E1.
    + rewrite (field_names_apart _ E1).
      destruct (json.storeString (APIEndpoint d) (snd kv)).
      * rewrite IH. reflexivity.
      * apply fold_member_into_None.
    + destruct (json.equalFold "api_key" (fst kv)).
      * destruct (json.storeString (APIKey d) (snd kv)).
        -- rewrite IH. reflexivity.
        -- rewrite fold_member_into_None.
           destruct (field_from "api_endpoint" ms (APIEndpoint d)); reflexivity.
      * apply IH.
Qed.

Lemma field_from_empty (name : string) (ms : list (gostring * json.value)) :
  (forall kv, In kv ms -> json.equalFold name (fst kv) = true ->
              snd kv = json.Null \/ snd kv = json.Str []) ->
  field_from name ms [] = Some [].
Proof.
  induction ms as [|kv ms IH]; intros H; [reflexivity|].
  rewrite field_from_cons.
  assert (field_from name ms [] = Some []) as R
    by (apply IH; intros kv' Hin; apply H; right; exact Hin).
  destruct (json.equalFold name (fst kv)) eqn:E; [|exact R].
  destruct (H kv (or_introl eq_refl) E) as [-> | ->]; exact R.
Qed.

Lemma field_from_wrong_type (name : string) (kv : gostring * json.value)
  (ms : list (gostring * json.value)) (old : gostring) :
  In kv ms -> json.equalFold name (fst kv) = true ->
  (forall s, snd kv <> json.Str s) -> snd kv <> json.Null ->
  field_from name ms old = None.
Proof.
  intros Hin E Hs Hn. revert old.
  induction ms as [|x ms IH]; intros old; [destruct Hin|].
  rewrite field_from_cons. destruct Hin as [-> | Hin].
  - rewrite E. destruct (snd kv) eqn:V; try reflexivity.
    + congruence.
    + exfalso. apply (Hs s). reflexivity.
  - destruct (json.equalFold name (fst x)); [|apply IH; exact Hin].
    destruct (json.storeString old (snd x)); [apply IH; exact Hin | reflexivity].
Qed.

(** C5, as the claim has it, fails: the link of the document [{}], which
    has neither field, is decoded without error to empty parameters. *)
Lemma empty_object_is_accepted :
  decode link_empty_object = Ok (lit "{}")
  /\ decodeAndParse link_empty_object = Ok {| APIEndpoint := []; APIKey := [] |}.
Proof. split; vm_compute; reflexivity. Qed.

(** C5, amended.  The payload is an object: [decodeAndParse] takes each of
    the two fields from the members that match its name.  A field that
    is absent, null or the empty string comes out empty and is no error;
    a member of another type for either field is the error "failed to
    parse JSON".  Empty parameters are refused afterwards, by
    [sendPostRequest], before any request is made. *)
Theorem missing_fields_decode_empty (link payload : gostring)
  (ms : list (gostring * json.value)) :
  decode link = Ok payload ->
  json.parse payload = Some (json.Object ms) ->
  decodeAndParse link =
    match field_from "api_endpoint" ms [], field_from "api_key" ms [] with
    | Some endpoint, Some credential =>
      Ok {| APIEndpoint := endpoint; APIKey := credential |}
    | _, _ => Err (ErrWrap (lit "failed to parse JSON: ")
                     (ErrLib json_UnmarshalTypeError))
    end
  /\ (forall name,
        (forall kv, In kv ms -> json.equalFold name (fst kv) = true ->
                    snd kv = json.Null \/ snd kv = json.Str []) ->
        field_from name ms [] = Some [])
  /\ (forall name kv,
        In kv ms -> json.equalFold name (fst kv) = true ->
        (forall s, snd kv <> json.Str s) -> snd kv <> json.Null ->
        field_from name ms [] = None)
  /\ (forall w decoded body response,
        decodeAndParse link = Ok decoded ->
        APIEndpoint decoded = [] \/ APIKey decoded = [] ->
        sendPostRequest w (APIEndpoint decoded) body (APIKey decoded) response
        = Err (ErrText (lit "URL cannot be empty"))
        \/ sendPostRequest w (APIEndpoint decoded) body (APIKey decoded) response
           = Err (ErrText (lit "API key cannot be empty"))).
Proof.
  intros Hd Hp. split; [|split; [|split]].
  - unfold decodeAndParse, Unmarshal. rewrite Hd. cbn [wrap bind].
    rewrite Hp, into_DecodedData_fields. cbn [APIEndpoint APIKey].
    destruct (field_from "api_endpoint" ms []);
      destruct (field_from "api_key" ms []); reflexivity.
  - intros name. apply field_from_empty.
  - intros name kv. apply field_from_wrong_type.
  - intros w decoded body response _ H. unfold sendPostRequest.
    destruct (str_eqb (APIEndpoint decoded) []) eqn:E1; [left; reflexivity|].
    destruct (str_eqb (APIKey decoded) []) eqn:E2; [right; reflexivity|].
    apply str_eqb_neq in E1, E2. destruct H; congruence.
Qed.

Lemma missing_fields_decode_empty_witness :
  exists payload,
    decode link_without_key = Ok payload
    /\ json.parse payload
       = Some (json.Object [(lit "api_endpoint", json.Str (lit "https://mock"))])
    /\ decodeAndParse link_without_key
       = Ok {| APIEndpoint := lit "https://mock"; APIKey := [] |}.
Proof.
  eexists. split; [vm_compute; reflexivity|]. split; [vm_compute; reflexivity|].
  refine (proj1 (missing_fields_decode_empty link_without_key _
                   [(lit "api_endpoint", json.Str (lit "https://mock"))] _ _)).
  - vm_compute. reflexivity.
  - vm_compute. reflexivity.
Defined.

(** ** The substitution of the key *)

Lemma placeholder_shape :
  placeholder = "$"%char :: lit "WIREGUARD_CLIENT_PRIVATE_KEY"
  /\ ~ In "$"%char (lit "WIREGUARD_CLIENT_PRIVATE_KEY").
Proof.
  split; [reflexivity|]. simpl. intros H.
  repeat (destruct H as [H | H]; [discriminate H|]). exact H.
Qed.

Lemma base64_char_plain (c : ascii) :
  base64_char c -> c <> "$"%char /\ c <> "_"%char.
Proof.
  intros [H | H].
  - simpl in H.
    repeat (destruct H as [H | H]; [subst c; split; discriminate|]).
    destruct H.
  - subst c. split; discriminate.
Qed.

Ltac find_in_list :=
  solve [simpl; repeat (first [left; reflexivity | right])].

(** The tails of the token after its first character: they hold an
    underscore, except the last three. *)
Lemma token_tail_cases (r t : gostring) :
  lit "WIREGUARD_CLIENT_PRIVATE_KEY" = r ++ t -> t <> [] ->
  In "_"%char t \/ t = lit "KEY" \/ t = lit "EY" \/ t = lit "Y".
Proof.
  intros H Hne. change (lit "WIREGUARD_CLIENT_PRIVATE_KEY")
    with (list_ascii_of_string "WIREGUARD_CLIENT_PRIVATE_KEY") in H.
  cbn [list_ascii_of_string] in H.
  do 25 (destruct r as [|? r];
         [cbn [app] in H; subst t; left; find_in_list
         | cbn [app] in H; apply (f_equal (@tl ascii)) in H; cbn [tl] in H]).
  destruct r as [|? r]; [cbn [app] in H; subst t; right; left; reflexivity|].
  cbn [app] in H; apply (f_equal (@tl ascii)) in H; cbn [tl] in H.
  destruct r as [|? r];
    [cbn [app] in H; subst t; right; right; left; reflexivity|].
  cbn [app] in H; apply (f_equal (@tl ascii)) in H; cbn [tl] in H.
  destruct r as [|? r];
    [cbn [app] in H; subst t; right; right; right; reflexivity|].
  cbn [app] in H; apply (f_equal (@tl ascii)) in H; cbn [tl] in H.
  destruct r; [cbn [app] in H; congruence | discriminate H].
Qed.

(** The variable [privateKey] of [main] is a base64 text of 44
    characters (either key of the pair is). *)
Lemma main_stages_key_shape (w : World) (key privateKey : gostring)
  (lastConfig : json.gomap json.value) :
  main_stages w key = Ok (privateKey, lastConfig) ->
  Forall base64_char privateKey /\ List.length privateKey = 44%nat.
Proof.
  intros H. unfold main_stages in H.
  apply bind_Ok in H. destruct H as [[[decoded pk] rb] [Hr H]].
  apply bind_Ok in H. destruct H as [responseBody [_ H]].
  apply bind_Ok in H. destruct H as [lc [_ H]].
  apply Ok_inj, pair_equal_spec in H. destruct H as [-> _].
  apply main_request_Ok in Hr. destruct Hr as [first [id [_ [Hk _]]]].
  apply GenerateX25519KeyPair_Ok in Hk. destruct Hk as [_ ->].
  destruct (EncodeToString_shape
              (curve25519.scalarMult (clamp (map (rand_stream w) (seq 0 32)))
                 curve25519.Basepoint)) as [S1 S2].
  split; [exact S1|]. rewrite S2, scalarMult_length. reflexivity.
Qed.

(** C1, as the claim has it, fails in two ways that have nothing to do
    with which key is substituted.  A template without the token is
    printed as it is and holds no key text; and a token can remain: with
    the template [$WIREGUARD_CLIENT_PRIVATE_KE] followed by the token,
    the substituted text, which begins with Y, completes the part before
    it to a token. *)
Lemma final_config_counterexample :
  GenerateX25519KeyPair world_no_token = Ok (sample_private, sample_public)
  /\ main world_no_token
     = {| stdout := (nl ++ lit "Private key: " ++ sample_public ++ nl)
                      ++ nl ++ lit "Response: " ++ nl ++ lit "x" ++ nl;
          exit := Returned |}
  /\ strings.Contains (lit "x") sample_private = false
  /\ strings.Contains (lit "x") sample_public = false
  /\ main world_partial_token
     = {| stdout := (nl ++ lit "Private key: " ++ sample_public ++ nl)
                      ++ nl ++ lit "Response: " ++ nl
                      ++ (lit "$WIREGUARD_CLIENT_PRIVATE_KE" ++ sample_public)
                      ++ nl;
          exit := Returned |}
  /\ strings.Contains (lit "$WIREGUARD_CLIENT_PRIVATE_KE" ++ sample_public)
       placeholder = true.
Proof.
  split; [apply sample_world_keypair|].
  split.
  { rewrite main_unfold by discriminate.
    change (flag_key world_no_token) with sample_link.
    unfold world_no_token. rewrite sample_stages. vm_compute. reflexivity. }
  split; [reflexivity|]. split; [reflexivity|].
  split.
  { rewrite main_unfold by discriminate.
    change (flag_key world_partial_token) with sample_link.
    unfold world_partial_token. rewrite sample_stages. vm_compute. reflexivity. }
  reflexivity.
Qed.

(** C1, amended.  In a run that reaches the assembly, the text printed as
    the response is [strings.Replace(template, token, privateKey, -1)]
    for the variable [privateKey] of [main]: a template without the token
    is printed unchanged; a template with the token after a part [a]
    that has none gets the key there, and what follows is treated the
    same; where the token occurs the result holds the key text; and no
    token is left unless the key text begins with Y, EY or KEY. *)
Theorem final_config_is_replace (w : World) (privateKey : gostring)
  (lastConfig : json.gomap json.value) (template : gostring) :
  flag_key w <> [] ->
  main_stages w (flag_key w) = Ok (privateKey, lastConfig) ->
  json.map_index lastConfig (lit "config") = Some (json.Str template) ->
  let resp := strings.Replace template placeholder privateKey (-1) in
  main w = {| stdout := (nl ++ lit "Private key: " ++ privateKey ++ nl)
                          ++ nl ++ lit "Response: " ++ nl ++ resp ++ nl;
              exit := Returned |}
  /\ (strings.Index template placeholder = -1 -> resp = template)
  /\ (forall a b, template = a ++ placeholder ++ b ->
        strings.Index a placeholder = -1 ->
        resp = a ++ privateKey ++ strings.Replace b placeholder privateKey (-1))
  /\ (0 <= strings.Index template placeholder ->
      strings.Contains resp privateKey = true)
  /\ (strings.HasPrefix privateKey (lit "Y") = false ->
      strings.HasPrefix privateKey (lit "EY") = false ->
      strings.HasPrefix privateKey (lit "KEY") = false ->
      strings.Contains resp placeholder = false).
Proof.
  intros Hf Hs Hc resp.
  assert (placeholder <> []) as Hne by discriminate.
  destruct placeholder_shape as [Ep Hd].
  destruct (main_stages_key_shape _ _ _ _ Hs) as [Sh Sl].
  assert (forall t, strings.Replace t placeholder privateKey (-1)
                    = replaceAll placeholder privateKey t) as R
    by (intros t; apply Replace_all; [exact Hne | lia]).
  split; [|split; [|split; [|split]]].
  - rewrite (main_unfold w Hf), Hs, Hc. reflexivity.
  - intros H. unfold resp. rewrite R. apply replaceAll_none; assumption.
  - intros a b -> Ha. unfold resp. rewrite !R.
    exact (replaceAll_app_first placeholder privateKey Hne "$"%char
             (lit "WIREGUARD_CLIENT_PRIVATE_KEY") a b Ep Hd Ha).
  - intros H. unfold resp, strings.Contains. rewrite R.
    apply Z.leb_le. apply replaceAll_contains_new; assumption.
  - intros HY HEY HKEY. unfold resp, strings.Contains. rewrite R, Ep.
    rewrite replaceAll_token_gone; [reflexivity | | | ].
    + intros Hin. rewrite Forall_forall in Sh.
      destruct (base64_char_plain _ (Sh _ Hin)) as [F _]. congruence.
    + rewrite Sl. simpl. lia.
    + intros r t Ht Htne.
      destruct (token_tail_cases r t Ht Htne) as [Hu | [-> | [-> | ->]]];
        try assumption.
      destruct (strings.HasPrefix privateKey t) eqn:E; [|reflexivity].
      exfalso. pose proof (HasPrefix_In t privateKey "_"%char E Hu) as Hin.
      rewrite Forall_forall in Sh.
      destruct (base64_char_plain _ (Sh _ Hin)) as [_ F]. congruence.
Qed.

Lemma final_config_is_replace_witness :
  main_stages world_ok (flag_key world_ok)
  = Ok (sample_public,
        [(lit "config",
          json.Str (lit "[Interface]" ++ nl
                      ++ lit "PrivateKey = $WIREGUARD_CLIENT_PRIVATE_KEY" ++ nl))])
  /\ main world_ok
     = {| stdout := (nl ++ lit "Private key: " ++ sample_public ++ nl)
                      ++ nl ++ lit "Response: " ++ nl
                      ++ strings.Replace
                           (lit "[Interface]" ++ nl
                              ++ lit "PrivateKey = $WIREGUARD_CLIENT_PRIVATE_KEY"
                              ++ nl)
                           placeholder sample_public (-1)
                      ++ nl;
          exit := Returned |}.
Proof.
  assert (main_stages world_ok (flag_key world_ok)
          = Ok (sample_public,
                [(lit "config",
                  json.Str (lit "[Interface]" ++ nl
                              ++ lit "PrivateKey = $WIREGUARD_CLIENT_PRIVATE_KEY"
                              ++ nl))])) as H.
  { change (flag_key world_ok) with sample_link.
    unfold world_ok. rewrite sample_stages. vm_compute. reflexivity. }
  split; [exact H|].
  refine (proj1 (final_config_is_replace world_ok sample_public _ _ _ H _)).
  - discriminate.
  - reflexivity.
Defined.

(** * Further properties of the code *)

(** ** Outcomes of the sequenced steps *)

Lemma bind_Panic {A B} (r : result A) (k : A -> result B) (p : panic) :
  bind r k = Panic p -> r = Panic p \/ exists a, r = Ok a /\ k a = Panic p.
Proof.
  destruct r as [a | e | q]; simpl; intros H.
  - right. exists a. split; [reflexivity | exact H].
  - discriminate.
  - left. injection H as ->. reflexivity.
Qed.

Lemma bind_Err {A B} (r : result A) (k : A -> result B) (e : error) :
  bind r k = Err e -> r = Err e \/ exists a, r = Ok a /\ k a = Err e.
Proof.
  destruct r as [a | c | q]; simpl; intros H.
  - right. exists a. split; [reflexivity | exact H].
  - left. injection H as ->. reflexivity.
  - discriminate.
Qed.

Lemma Some_inj {A} (x y : A) : Some x = Some y -> x = y.
Proof. intros H. injection H as H. exact H. Qed.

Lemma wrap_Panic {A} (msg : string) (r : result A) (p : panic) :
  wrap msg r = Panic p -> r = Panic p.
Proof. destruct r; simpl; intros H; congruence. Qed.

Lemma wrap_Err {A} (msg : string) (r : result A) (e : error) :
  wrap msg r = Err e -> exists c, r = Err c /\ e = ErrWrap (lit msg) c.
Proof.
  destruct r as [a | c | q]; simpl; intros H; try discriminate.
  exists c. split; [reflexivity | congruence].
Qed.

Lemma DecodeString_no_panic (alphabet s : gostring) (p : panic) :
  base64.DecodeString alphabet s <> Panic p.
Proof.
  unfold base64.DecodeString. destruct (base64.decodeQuanta _ _); discriminate.
Qed.

Lemma NewReader_no_panic (src : gostring) (p : panic) :
  zlib.NewReader src <> Panic p.
Proof.
  unfold zlib.NewReader.
  destruct src as [|cmf [|flg rest]]; try discriminate.
  destruct (_ || _); [discriminate|].
  destruct (negb _); [|discriminate].
  destruct rest as [|d0 [|d1 [|d2 [|d3 rest']]]]; try discriminate.
  destruct (_ =? _); discriminate.
Qed.

Lemma ReadAll_no_panic (body : gostring) (p : panic) :
  zlib.ReadAll body <> Panic p.
Proof.
  unfold zlib.ReadAll. destruct (flate.ReadAll body) as [[out n]|]; [|discriminate].
  destruct (skipn n body) as [|t0 [|t1 [|t2 [|t3 r]]]]; try discriminate.
  destruct (_ =? _); discriminate.
Qed.

Lemma Unmarshal_no_panic {T} (into : T -> json.value -> option T)
  (data : gostring) (target : T) (p : panic) :
  Unmarshal into data target <> Panic p.
Proof.
  unfold Unmarshal. destruct (json.parse data); [|discriminate].
  destruct (into target v); discriminate.
Qed.

Lemma slice_from_Panic (low : nat) (s : gostring) (p : panic) :
  slice_from low s = Panic p ->
  (List.length s < low)%nat /\ p = SliceBoundsOutOfRange low (List.length s).
Proof.
  unfold slice_from. destruct (List.length s <? low)%nat eqn:E; intros H.
  - apply Nat.ltb_lt in E. split; [exact E | congruence].
  - discriminate.
Qed.

Lemma slice_from_short (low : nat) (s : gostring) :
  (List.length s < low)%nat ->
  slice_from low s = Panic (SliceBoundsOutOfRange low (List.length s)).
Proof.
  intros H. unfold slice_from. apply Nat.ltb_lt in H. rewrite H. reflexivity.
Qed.

Lemma slice_from_long (low : nat) (s : gostring) :
  (low <= List.length s)%nat -> slice_from low s = Ok (skipn low s).
Proof.
  intros H. unfold slice_from.
  replace (List.length s <? low)%nat with false
    by (symmetry; apply Nat.ltb_ge; exact H).
  reflexivity.
Qed.

(** ** decode: when it panics, and which errors it returns *)

Lemma decode_payload_Panic (text : gostring) (p : panic) :
  decode_payload text = Panic p <->
  exists bytes,
    base64.DecodeString base64.encodeURL text = Ok bytes
    /\ (List.length bytes < 4)%nat
    /\ p = SliceBoundsOutOfRange 4 (List.length bytes).
Proof.
  unfold decode_payload. split.
  - intros H. apply bind_Panic in H. destruct H as [H | [bytes [Hb H]]].
    + apply wrap_Panic in H. exfalso. exact (DecodeString_no_panic _ _ _ H).
    + apply wrap_Ok in Hb. exists bytes. split; [exact Hb|].
      apply bind_Panic in H. destruct H as [H | [body [_ H]]].
      * apply slice_from_Panic. exact H.
      * exfalso. apply bind_Panic in H. destruct H as [H | [z [_ H]]].
        -- apply wrap_Panic in H. exact (NewReader_no_panic _ _ H).
        -- apply wrap_Panic in H. exact (ReadAll_no_panic _ _ H).
  - intros [bytes [Hb [Hl ->]]]. rewrite Hb. cbn [wrap bind].
    rewrite (slice_from_short 4 bytes Hl). reflexivity.
Qed.

(** X1.  [decode] panics on exactly one kind of input: a text whose
    base64 payload is shorter than the four-byte header.  On every other
    text it returns bytes or an error. *)
Theorem decode_panics_iff (s : gostring) (p : panic) :
  decode s = Panic p <->
  exists bytes,
    base64.DecodeString base64.encodeURL
      (strings.Replace s scheme_marker [] (-1)) = Ok bytes
    /\ (List.length bytes < 4)%nat
    /\ p = SliceBoundsOutOfRange 4 (List.length bytes).
Proof. rewrite decode_eq. apply decode_payload_Panic. Qed.

Lemma decode_panics_iff_witness :
  decode (lit "QUJD") = Panic (SliceBoundsOutOfRange 4 3).
Proof.
  apply (proj2 (decode_panics_iff (lit "QUJD") (SliceBoundsOutOfRange 4 3))).
  exists (lit "ABC"). split; [reflexivity|].
  split; [simpl; lia | reflexivity].
Defined.

(** X2.  An error of [decode] names the step that failed: the base64
    decoding of the text without the marker, the zlib header of what
    follows the four-byte header, or the decompression; the cause is the
    library's error, wrapped once. *)
Theorem decode_errors_by_stage (s : gostring) (e : error) :
  decode s = Err e ->
  let text := strings.Replace s scheme_marker [] (-1) in
  (exists c, base64.DecodeString base64.encodeURL text = Err c
             /\ e = ErrWrap (lit "failed to decode Base64 string: ") c)
  \/ (exists bytes c,
        base64.DecodeString base64.encodeURL text = Ok bytes
        /\ (4 <= List.length bytes)%nat
        /\ zlib.NewReader (skipn 4 bytes) = Err c
        /\ e = ErrWrap (lit "failed to create zlib reader: ") c)
  \/ (exists bytes stream c,
        base64.DecodeString base64.encodeURL text = Ok bytes
        /\ (4 <= List.length bytes)%nat
        /\ zlib.NewReader (skipn 4 bytes) = Ok stream
        /\ zlib.ReadAll stream = Err c
        /\ e = ErrWrap (lit "failed to decompress data: ") c).
Proof.
  rewrite decode_eq. intros H text. fold text in H.
  unfold decode_payload in H.
  apply bind_Err in H. destruct H as [H | [bytes [Hb H]]].
  - left. apply wrap_Err in H. exact H.
  - right. apply wrap_Ok in Hb.
    apply bind_Err in H. destruct H as [H | [body [Hs H]]].
    + unfold slice_from in H. destruct (_ <? _)%nat; discriminate.
    + assert ((4 <= List.length bytes)%nat /\ body = skipn 4 bytes) as [Hl ->].
      { unfold slice_from in Hs. destruct (List.length bytes <? 4)%nat eqn:E;
          [discriminate|].
        apply Nat.ltb_ge in E. apply Ok_inj in Hs. split; [exact E | congruence]. }
      apply bind_Err in H. destruct H as [H | [stream [Hz H]]].
      * left. apply wrap_Err in H. destruct H as [c [Hc ->]].
        exists bytes, c. repeat split; assumption.
      * right. apply wrap_Ok in Hz. apply wrap_Err in H.
        destruct H as [c [Hc ->]].
        exists bytes, stream, c. repeat split; assumption.
Qed.

Lemma decode_errors_by_stage_witness :
  decode (lit "!")
  = Err (ErrWrap (lit "failed to decode Base64 string: ")
           (ErrLib base64_CorruptInputError))
  /\ ((exists c, base64.DecodeString base64.encodeURL
                   (strings.Replace (lit "!") scheme_marker [] (-1)) = Err c
                 /\ ErrWrap (lit "failed to decode Base64 string: ")
                      (ErrLib base64_CorruptInputError)
                    = ErrWrap (lit "failed to decode Base64 string: ") c)
      \/ (exists bytes c,
            base64.DecodeString base64.encodeURL
              (strings.Replace (lit "!") scheme_marker [] (-1)) = Ok bytes
            /\ (4 <= List.length bytes)%nat
            /\ zlib.NewReader (skipn 4 bytes) = Err c
            /\ ErrWrap (lit "failed to decode Base64 string: ")
                 (ErrLib base64_CorruptInputError)
               = ErrWrap (lit "failed to create zlib reader: ") c)
      \/ (exists bytes stream c,
            base64.DecodeString base64.encodeURL
              (strings.Replace (lit "!") scheme_marker [] (-1)) = Ok bytes
            /\ (4 <= List.length bytes)%nat
            /\ zlib.NewReader (skipn 4 bytes) = Ok stream
            /\ zlib.ReadAll stream = Err c
            /\ ErrWrap (lit "failed to decode Base64 string: ")
                 (ErrLib base64_CorruptInputError)
               = ErrWrap (lit "failed to decompress data: ") c)).
Proof.
  split; [reflexivity|].
  apply (decode_errors_by_stage (lit "!")). reflexivity.
Defined.

(** ** decodeAndParse: the payloads it accepts *)

Lemma into_DecodedData_accepts (v : json.value) (d : DecodedData) :
  into_DecodedData {| APIEndpoint := []; APIKey := [] |} v = Some d <->
  (v = json.Null /\ d = {| APIEndpoint := []; APIKey := [] |})
  \/ exists ms, v = json.Object ms
                /\ field_from "api_endpoint" ms [] = Some (APIEndpoint d)
                /\ field_from "api_key" ms [] = Some (APIKey d).
Proof.
  split.
  - intros H. destruct v; try discriminate H.
    + left. split; [reflexivity|]. apply Some_inj in H. congruence.
    + right. exists members. split; [reflexivity|].
      rewrite into_DecodedData_fields in H. cbn [APIEndpoint APIKey] in H.
      destruct (field_from "api_endpoint" members []); [|discriminate].
      destruct (field_from "api_key" members []); [|discriminate].
      apply Some_inj in H. subst d. split; reflexivity.
  - intros [[-> ->] | [ms [-> [H1 H2]]]]; [reflexivity|].
    rewrite into_DecodedData_fields. cbn [APIEndpoint APIKey].
    rewrite H1, H2. destruct d; reflexivity.
Qed.

(** X3.  [decodeAndParse] returns parameters exactly when the link
    decodes and the payload is JSON of one of two kinds: the document
    [null], which gives two empty fields and no error, or an object in
    which every member matching [api_endpoint] or [api_key] is a string
    or null; the fields are then what those members store.  Any other
    document (an array, a number, a string, a boolean) is an error. *)
Theorem decodeAndParse_accepts (link : gostring) (d : DecodedData) :
  decodeAndParse link = Ok d <->
  exists payload doc,
    decode link = Ok payload
    /\ json.parse payload = Some doc
    /\ ((doc = json.Null /\ d = {| APIEndpoint := []; APIKey := [] |})
        \/ exists ms, doc = json.Object ms
                      /\ field_from "api_endpoint" ms [] = Some (APIEndpoint d)
                      /\ field_from "api_key" ms [] = Some (APIKey d)).
Proof.
  unfold decodeAndParse, Unmarshal. split.
  - intros H. apply bind_Ok in H. destruct H as [payload [Hd H]].
    apply wrap_Ok in Hd, H. exists payload.
    destruct (json.parse payload) as [doc|]; [|discriminate].
    exists doc. split; [exact Hd|]. split; [reflexivity|].
    apply into_DecodedData_accepts.
    destruct (into_DecodedData _ doc); [|discriminate].
    apply Ok_inj in H. congruence.
  - intros [payload [doc [Hd [Hp H]]]]. rewrite Hd. cbn [wrap bind].
    rewrite Hp. apply into_DecodedData_accepts in H. rewrite H. reflexivity.
Qed.

Lemma decodeAndParse_accepts_witness :
  exists payload doc,
    decode sample_link = Ok payload
    /\ json.parse payload = Some doc
    /\ exists ms, doc = json.Object ms
                  /\ field_from "api_endpoint" ms [] = Some (lit "https://mock")
                  /\ field_from "api_key" ms [] = Some (lit "K").
Proof.
  destruct (proj1 (decodeAndParse_accepts sample_link _) sample_decoded)
    as [payload [doc [Hd [Hp [[_ H] | H]]]]]; [discriminate H|].
  exists payload, doc. split; [exact Hd|]. split; [exact Hp | exact H].
Defined.

Lemma field_from_skip (name : string) (ms1 ms2 : list (gostring * json.value))
  (kv : gostring * json.value) (old : gostring) :
  json.equalFold name (fst kv) = false ->
  field_from name (ms1 ++ kv :: ms2) old = field_from name (ms1 ++ ms2) old.
Proof.
  intros H. revert old. induction ms1 as [|x ms1 IH]; intros old.
  - cbn [app]. rewrite field_from_cons, H. reflexivity.
  - cbn [app]. rewrite !field_from_cons.
    destruct (json.equalFold name (fst x)); [|apply IH].
    destruct (json.storeString old (snd x)); [apply IH | reflexivity].
Qed.

(** X4.  A member whose key matches neither field is ignored, whatever
    its value and wherever it stands: two links whose objects differ by
    such a member give the same result. *)
Theorem unknown_member_is_ignored (link link' payload payload' : gostring)
  (ms1 ms2 : list (gostring * json.value)) (kv : gostring * json.value) :
  decode link = Ok payload ->
  json.parse payload = Some (json.Object (ms1 ++ kv :: ms2)) ->
  decode link' = Ok payload' ->
  json.parse payload' = Some (json.Object (ms1 ++ ms2)) ->
  json.equalFold "api_endpoint" (fst kv) = false ->
  json.equalFold "api_key" (fst kv) = false ->
  decodeAndParse link = decodeAndParse link'.
Proof.
  intros Hd Hp Hd' Hp' H1 H2. unfold decodeAndParse, Unmarshal.
  rewrite Hd, Hd'. cbn [wrap bind]. rewrite Hp, Hp'.
  rewrite !into_DecodedData_fields.
  rewrite (field_from_skip "api_endpoint" ms1 ms2 kv _ H1).
  rewrite (field_from_skip "api_key" ms1 ms2 kv _ H2). reflexivity.
Qed.

Lemma unknown_member_is_ignored_witness :
  decodeAndParse link_extra_member = decodeAndParse sample_link
  /\ decodeAndParse sample_link
     = Ok {| APIEndpoint := lit "https://mock"; APIKey := lit "K" |}.
Proof.
  split; [|vm_compute; reflexivity].
  eapply (unknown_member_is_ignored link_extra_member sample_link _ _
            [(lit "api_endpoint", json.Str (lit "https://mock"))]
            [(lit "api_key", json.Str (lit "K"))]
            (lit "note", json.Number (lit "1"))).
  - vm_compute. reflexivity.
  - vm_compute. reflexivity.
  - vm_compute. reflexivity.
  - vm_compute. reflexivity.
  - reflexivity.
  - reflexivity.
Defined.

(** ** sendPostRequest: what it asks the server, and what it returns *)



Lemma into_ResponseBody_field (ms : list (gostring * json.value))
  (r : ResponseBody) :
  into_ResponseBody r (json.Object ms) =
  match field_from "config" ms (ResponseBody_Config r) with
  | Some c => Some {| ResponseBody_Config := c |}
  | None => None
  end.
Proof.
  unfold into_ResponseBody, struct_into. revert r.
  induction ms as [|kv ms IH]; intros r.
  - destruct r; reflexivity.
  - rewrite field_from_cons. cbn [fold_left member_into].
    destruct (json.equalFold "config" (fst kv)); [|apply IH].
    destruct (json.storeString (ResponseBody_Config r) (snd kv));
      [apply IH | apply fold_member_into_None].
Qed.

Lemma field_from_absent (name : string) (ms : list (gostring * json.value))
  (old : gostring) :
  (forall kv, In kv ms -> json.equalFold name (fst kv) = false) ->
  field_from name ms old = Some old.
Proof.
  revert old. induction ms as [|kv ms IH]; intros old H; [reflexivity|].
  rewrite field_from_cons, (H kv (or_introl eq_refl)).
  apply IH. intros kv' Hin. apply H. right. exact Hin.
Qed.

(** X6.  The server answers within 200..299 and the body, read to its
    end, is a JSON object: the call returns the response with [Config]
    set from the members matching [config], read in order.  A member of
    another type than string or null is the error "failed to parse
    response JSON"; an object without such a member is no error and
    leaves [Config] as it was. *)
Theorem sendPostRequest_accepted (w : World) (url apiKey : gostring)
  (body : RequestBody) (response : ResponseBody) (resp : http.Response)
  (ms : list (gostring * json.value)) :
  url <> [] -> apiKey <> [] -> url_accepted w url = true ->
  client_Do w (post_request url body apiKey) = Some resp ->
  200 <= http.StatusCode resp < 300 ->
  http.BodyErr resp = None ->
  json.parse (http.Body resp) = Some (json.Object ms) ->
  sendPostRequest w url body apiKey response =
    match field_from "config" ms (ResponseBody_Config response) with
    | Some c => Ok {| ResponseBody_Config := c |}
    | None => Err (ErrWrap (lit "failed to parse response JSON: ")
                     (ErrLib json_UnmarshalTypeError))
    end
  /\ ((forall kv, In kv ms -> json.equalFold "config" (fst kv) = false) ->
      sendPostRequest w url body apiKey response = Ok response)
  /\ (forall kv, In kv ms -> json.equalFold "config" (fst kv) = true ->
      (forall s, snd kv <> json.Str s) -> snd kv <> json.Null ->
      sendPostRequest w url body apiKey response
      = Err (ErrWrap (lit "failed to parse response JSON: ")
               (ErrLib json_UnmarshalTypeError))).
Proof.
  intros Hu Hk Ha Hd [H1 H2] Hb Hp.
  apply str_eqb_neq in Hu, Hk.
  assert (sendPostRequest w url body apiKey response =
          match field_from "config" ms (ResponseBody_Config response) with
          | Some c => Ok {| ResponseBody_Config := c |}
          | None => Err (ErrWrap (lit "failed to parse response JSON: ")
                           (ErrLib json_UnmarshalTypeError))
          end) as E.
  { unfold sendPostRequest. rewrite Hu, Hk, Ha, Hd.
    replace (http.StatusCode resp <? 200) with false
      by (symmetry; apply Z.ltb_ge; lia).
    replace (300 <=? http.StatusCode resp) with false
      by (symmetry; apply Z.leb_gt; lia).
    cbn [negb orb]. rewrite Hb. unfold Unmarshal.
    rewrite Hp, into_ResponseBody_field.
    destruct (field_from "config" ms (ResponseBody_Config response));
      reflexivity. }
  split; [exact E|]. split.
  - intros H. rewrite E, (field_from_absent _ _ _ H). destruct response; reflexivity.
  - intros kv Hin Hm Hs Hn.
    rewrite E, (field_from_wrong_type "config" kv ms _ Hin Hm Hs Hn).
    reflexivity.
Qed.

Lemma sendPostRequest_accepted_witness :
  sendPostRequest world_no_config_member (lit "https://mock")
    {| PublicKey := sample_private; OSVersion := lit "macOS";
       AppVersion := lit "4.8.2.3"; UUID := lit "id" |}
    (lit "K") {| ResponseBody_Config := [] |}
  = Ok {| ResponseBody_Config := [] |}.
Proof.
  refine (proj1 (proj2 (sendPostRequest_accepted world_no_config_member
            (lit "https://mock") (lit "K") _ _
            {| http.StatusCode := 200; http.Body := lit "{}";
               http.BodyErr := None |} [] _ _ _ _ _ _ _)) _).
  - discriminate.
  - discriminate.
  - reflexivity.
  - reflexivity.
  - cbn [http.StatusCode]. lia.
  - reflexivity.
  - reflexivity.
  - intros kv [].
Defined.

Lemma sendPostRequest_no_panic (w : World) (url apiKey : gostring)
  (body : RequestBody) (response : ResponseBody) (p : panic) :
  sendPostRequest w url body apiKey response <> Panic p.
Proof.
  unfold sendPostRequest.
  destruct (str_eqb url []); [discriminate|].
  destruct (str_eqb apiKey []); [discriminate|].
  destruct (negb (url_accepted w url)); [discriminate|].
  destruct (client_Do w _) as [resp|]; [|discriminate].
  destruct (_ || _); [discriminate|].
  destruct (http.BodyErr resp); [discriminate|].
  intros H. apply wrap_Panic in H. exact (Unmarshal_no_panic _ _ _ _ H).
Qed.

(** X7.  Every error of [sendPostRequest] is one of seven, each with its
    cause: an empty URL, an empty credential (checked in that order,
    before anything else), a URL that [http.NewRequest] refuses, a
    transport failure, a status outside 200..299, a body that cannot be
    read, a body that is not the expected JSON.  It never panics. *)
Theorem sendPostRequest_errors (w : World) (url apiKey : gostring)
  (body : RequestBody) (response : ResponseBody) (e : error) :
  sendPostRequest w url body apiKey response = Err e ->
  (url = [] /\ e = ErrText (lit "URL cannot be empty"))
  \/ (url <> [] /\ apiKey = [] /\ e = ErrText (lit "API key cannot be empty"))
  \/ (url_accepted w url = false
      /\ e = ErrWrap (lit "failed to create HTTP request: ") (ErrLib url_error))
  \/ (client_Do w (post_request url body apiKey) = None
      /\ e = ErrWrap (lit "failed to send HTTP request: ")
               (ErrLib transport_error))
  \/ (exists resp,
        client_Do w (post_request url body apiKey) = Some resp
        /\ ((http.StatusCode resp < 200 \/ 300 <= http.StatusCode resp)
            /\ e = status_error (http.StatusCode resp) (http.Body resp)
            \/ 200 <= http.StatusCode resp < 300
               /\ ((exists c, http.BodyErr resp = Some c
                              /\ e = ErrWrap (lit "failed to read response body: ")
                                       (ErrLib c))
                   \/ (exists c, http.BodyErr resp = None
                                 /\ Unmarshal into_ResponseBody (http.Body resp)
                                      response = Err c
                                 /\ e = ErrWrap
                                          (lit "failed to parse response JSON: ")
                                          c)))).
Proof.
  unfold sendPostRequest. intros H.
  destruct (str_eqb url []) eqn:E1.
  { left. apply str_eqb_eq in E1. split; [exact E1 | congruence]. }
  right. apply str_eqb_neq in E1.
  destruct (str_eqb apiKey []) eqn:E2.
  { left. apply str_eqb_eq in E2. repeat split; [exact E1 | exact E2 | congruence]. }
  right. destruct (url_accepted w url) eqn:E3; cbn [negb] in H.
  2:{ left. split; [reflexivity | congruence]. }
  right. destruct (client_Do w (post_request url body apiKey)) as [resp|] eqn:E4.
  2:{ left. split; [reflexivity | congruence]. }
  right. exists resp. split; [reflexivity|].
  destruct (http.StatusCode resp <? 200) eqn:L1; cbn [orb] in H.
  { left. apply Z.ltb_lt in L1. split; [left; exact L1 | congruence]. }
  destruct (300 <=? http.StatusCode resp) eqn:L2.
  { left. apply Z.leb_le in L2. split; [right; exact L2 | congruence]. }
  right. apply Z.ltb_ge in L1. apply Z.leb_gt in L2. split; [lia|].
  destruct (http.BodyErr resp) as [c|].
  - left. exists c. split; [reflexivity | congruence].
  - right. apply wrap_Err in H. destruct H as [c [Hc ->]].
    exists c. repeat split. exact Hc.
Qed.

Lemma sendPostRequest_errors_witness :
  sendPostRequest world_rand_fails (lit "https://mock")
    {| PublicKey := []; OSVersion := []; AppVersion := []; UUID := [] |}
    (lit "K") {| ResponseBody_Config := [] |}
  = Err (ErrWrap (lit "failed to send HTTP request: ") (ErrLib transport_error))
  /\ client_Do world_rand_fails
       (post_request (lit "https://mock")
          {| PublicKey := []; OSVersion := []; AppVersion := []; UUID := [] |}
          (lit "K")) = None.
Proof.
  split; [reflexivity|].
  pose proof (sendPostRequest_errors world_rand_fails (lit "https://mock")
                (lit "K")
                {| PublicKey := []; OSVersion := []; AppVersion := []; UUID := [] |}
                {| ResponseBody_Config := [] |} _ eq_refl) as H.
  destruct H as [[H _] | [[_ [H _]] | [[H _] | [[H _] | [resp [H _]]]]]];
    try discriminate H.
  exact H.
Defined.

(** ** main: how it crashes, and what it prints *)

Lemma GenerateX25519KeyPair_no_panic (w : World) (p : panic) :
  GenerateX25519KeyPair w <> Panic p.
Proof.
  destruct (rand_fails w 0) eqn:Hf.
  - unfold GenerateX25519KeyPair, rand_Read. rewrite Hf. discriminate.
  - rewrite (GenerateX25519KeyPair_eq w Hf),
      (X25519_basepoint _ (clamp_length w)).
    destruct (curve25519.isZero _); discriminate.
Qed.

Lemma uuid_New_Panic (w : World) (p : panic) :
  uuid_New w = Panic p -> rand_fails w 1 = true /\ p = PanicError rand_error.
Proof.
  unfold uuid_New, rand_Read. destruct (rand_fails w 1); intros H.
  - split; [reflexivity | congruence].
  - discriminate.
Qed.

Lemma decode_Panic_short (s : gostring) (p : panic) :
  decode s = Panic p ->
  exists n, (n < 4)%nat /\ p = SliceBoundsOutOfRange 4 n.
Proof.
  rewrite decode_eq. intros H. apply decode_payload_Panic in H.
  destruct H as [bytes [_ [Hl ->]]]. exists (List.length bytes).
  split; [exact Hl | reflexivity].
Qed.

Lemma index_Panic {A} (s : list A) (p : panic) :
  index s 0 = Panic p -> s = [] /\ p = IndexOutOfRange 0 0.
Proof.
  unfold index. destruct s as [|x s]; simpl; intros H.
  - split; [reflexivity | congruence].
  - discriminate.
Qed.

(** Where [main_stages] can panic. *)
Lemma main_stages_Panic (w : World) (key : gostring) (p : panic) :
  main_stages w key = Panic p ->
  (exists n, (n < 4)%nat /\ p = SliceBoundsOutOfRange 4 n)
  \/ p = IndexOutOfRange 0 0
  \/ p = PanicError rand_error.
Proof.
  intros H. unfold main_stages in H.
  apply bind_Panic in H. destruct H as [H | [[[decoded pk] rb] [_ H]]].
  - unfold main_request in H.
    apply bind_Panic in H. destruct H as [H | [d [_ H]]].
    + unfold decodeAndParse in H.
      apply bind_Panic in H. destruct H as [H | [payload [_ H]]].
      * apply wrap_Panic in H. left. exact (decode_Panic_short _ _ H).
      * apply wrap_Panic in H. exfalso. exact (Unmarshal_no_panic _ _ _ _ H).
    + apply bind_Panic in H. destruct H as [H | [[a b] [_ H]]].
      * exfalso. exact (GenerateX25519KeyPair_no_panic _ _ H).
      * apply bind_Panic in H. destruct H as [H | [id [_ H]]]; [|discriminate].
        right. right. exact (proj2 (uuid_New_Panic _ _ H)).
  - apply bind_Panic in H. destruct H as [H | [responseBody [_ H]]].
    + exfalso. exact (sendPostRequest_no_panic _ _ _ _ _ _ H).
    + apply bind_Panic in H. destruct H as [H | [lc [_ H]]]; [|discriminate].
      unfold main_response in H.
      apply bind_Panic in H. destruct H as [H | [decodedConfig [_ H]]].
      * left. exact (decode_Panic_short _ _ H).
      * apply bind_Panic in H. destruct H as [H | [config [_ H]]].
        -- exfalso. exact (Unmarshal_no_panic _ _ _ _ H).
        -- apply bind_Panic in H. destruct H as [H | [first [_ H]]].
           ++ right. left. exact (proj2 (index_Panic _ _ H)).
           ++ exfalso. exact (Unmarshal_no_panic _ _ _ _ H).
Qed.

(** X8.  The server answers within 200..299 with a [config] whose base64
    payload is shorter than four bytes, as it is when the member is
    absent, null or empty: [main] does not report an error, it panics in
    [decode] at the slice [decodedBytes[4:]], nothing printed. *)
Theorem short_config_panics (w : World) (decoded : DecodedData)
  (privateKey : gostring) (requestBody : RequestBody)
  (responseBody : ResponseBody) (bytes : gostring) :
  flag_key w <> [] ->
  main_request w (flag_key w) = Ok (decoded, privateKey, requestBody) ->
  sendPostRequest w (APIEndpoint decoded) requestBody (APIKey decoded)
    {| ResponseBody_Config := [] |} = Ok responseBody ->
  base64.DecodeString base64.encodeURL
    (strings.Replace (ResponseBody_Config responseBody) scheme_marker [] (-1))
  = Ok bytes ->
  (List.length bytes < 4)%nat ->
  main w = {| stdout := [];
              exit := Crashed (SliceBoundsOutOfRange 4 (List.length bytes)) |}.
Proof.
  intros Hf Hr Hs Hb Hl.
  apply main_of_stages_Panic; [exact Hf|].
  unfold main_stages. rewrite Hr. cbn [bind]. rewrite Hs. cbn [bind].
  unfold main_response.
  assert (decode (ResponseBody_Config responseBody)
          = Panic (SliceBoundsOutOfRange 4 (List.length bytes))) as E.
  { rewrite decode_eq. apply decode_payload_Panic. exists bytes.
    repeat split; assumption. }
  rewrite E. reflexivity.
Qed.

Lemma short_config_panics_witness :
  main world_no_config_member
  = {| stdout := []; exit := Crashed (SliceBoundsOutOfRange 4 0) |}.
Proof.
  eapply (short_config_panics world_no_config_member _ _ _ _ []).
  - discriminate.
  - apply sample_request. reflexivity.
  - reflexivity.
  - reflexivity.
  - simpl. lia.
Defined.

(** X9.  [main] can end in a panic of four kinds and no other: the slice
    of a payload shorter than four bytes (in the link or in the
    response), the index of the first of no containers, the assertion
    that the nested [config] is a string, and the failure of the random
    source when the request identifier is drawn. *)
Theorem main_panics (w : World) (p : panic) :
  exit (main w) = Crashed p ->
  (exists n, (n < 4)%nat /\ p = SliceBoundsOutOfRange 4 n)
  \/ p = IndexOutOfRange 0 0
  \/ p = InterfaceConversion
  \/ p = PanicError rand_error.
Proof.
  unfold main. destruct (str_eqb (flag_key w) []); [discriminate|].
  destruct (main_stages w (flag_key w)) as [[pk lc] | e | q] eqn:E;
    cbn [exit]; try discriminate.
  - unfold assert_string.
    destruct (json.map_index lc (lit "config")) as [[]|]; cbn [exit];
      intros H; try discriminate; right; right; left; congruence.
  - intros H. injection H as <-.
    destruct (main_stages_Panic _ _ _ E) as [H | [H | H]]; tauto.
Qed.

Lemma main_panics_witness :
  exit (main world_empty_containers) = Crashed (IndexOutOfRange 0 0)
  /\ ((exists n, (n < 4)%nat
                 /\ IndexOutOfRange 0 0 = SliceBoundsOutOfRange 4 n)
      \/ IndexOutOfRange 0 0 = IndexOutOfRange 0 0
      \/ IndexOutOfRange 0 0 = InterfaceConversion
      \/ IndexOutOfRange 0 0 = PanicError rand_error).
Proof.
  assert (exit (main world_empty_containers) = Crashed (IndexOutOfRange 0 0))
    as H.
  { rewrite main_unfold by discriminate.
    change (flag_key world_empty_containers) with sample_link.
    unfold world_empty_containers. rewrite sample_stages.
    vm_compute. reflexivity. }
  split; [exact H|]. apply (main_panics world_empty_containers). exact H.
Defined.

Lemma HasPrefix_refl (s : gostring) : strings.HasPrefix s s = true.
Proof.
  induction s as [|c s IH]; [reflexivity|].
  simpl. rewrite ascii_eqb_refl. exact IH.
Qed.

(** X10.  What [main] prints.  Without a key it prints the one line that
    asks for it and returns, whatever the rest of the world is.  When it
    ends with [log.Fatalf] it has printed nothing, and the error is the
    one of the stage that failed.  Whatever it prints otherwise begins
    with the line "Private key: " and the text of its variable
    [privateKey]: that line is out as soon as the nested document is
    read, also in a run that then panics. *)
Theorem main_output (w : World) :
  (flag_key w = [] ->
   main w = {| stdout := lit "Error: The -key parameter is required." ++ nl;
               exit := Returned |})
  /\ (forall e, exit (main w) = Fatal e ->
      stdout (main w) = [] /\ main_stages w (flag_key w) = Err e)
  /\ (flag_key w <> [] -> stdout (main w) <> [] ->
      exists privateKey lastConfig,
        main_stages w (flag_key w) = Ok (privateKey, lastConfig)
        /\ strings.HasPrefix (stdout (main w))
             (nl ++ lit "Private key: " ++ privateKey ++ nl) = true).
Proof.
  split; [|split].
  - intros H. unfold main. rewrite H. reflexivity.
  - intros e. unfold main. destruct (str_eqb (flag_key w) []); [discriminate|].
    destruct (main_stages w (flag_key w)) as [[pk lc] | c | q];
      cbn [exit stdout]; try discriminate.
    + unfold assert_string.
      destruct (json.map_index lc (lit "config")) as [[]|]; discriminate.
    + intros H. injection H as ->. split; reflexivity.
  - intros Hf. rewrite (main_unfold w Hf).
    destruct (main_stages w (flag_key w)) as [[pk lc] | c | q];
      cbn [stdout]; try congruence.
    intros _. exists pk, lc. split; [reflexivity|].
    unfold assert_string.
    destruct (json.map_index lc (lit "config")) as [[]|]; cbn [stdout];
      first [apply HasPrefix_app | apply HasPrefix_refl].
Qed.

Lemma main_output_witness :
  exit (main world_forbidden)
  = Fatal (ErrText (lit "unexpected HTTP status code: 403, Response: forbidden"))
  /\ stdout (main world_forbidden) = [].
Proof.
  assert (exit (main world_forbidden)
          = Fatal (ErrText
                     (lit "unexpected HTTP status code: 403, Response: forbidden")))
    as H.
  { rewrite main_unfold by discriminate.
    change (flag_key world_forbidden) with sample_link.
    unfold world_forbidden. rewrite sample_stages. vm_compute. reflexivity. }
  split; [exact H|].
  exact (proj1 (proj1 (proj2 (main_output world_forbidden)) _ H)).
Defined.

(** ** GenerateX25519KeyPair: its texts *)

(** X11.  [GenerateX25519KeyPair] never panics.  When the random source
    fails it returns the error "failed to generate private key" and no
    key.  The two texts of a pair are 44 characters of standard base64
    each. *)
Theorem keypair_texts (w : World) :
  (rand_fails w 0 = true ->
   GenerateX25519KeyPair w
   = Err (ErrWrap (lit "failed to generate private key: ") (ErrLib rand_error)))
  /\ (forall p, GenerateX25519KeyPair w <> Panic p)
  /\ (forall first second,
        GenerateX25519KeyPair w = Ok (first, second) ->
        rand_fails w 0 = false
        /\ List.length first = 44%nat /\ List.length second = 44%nat
        /\ Forall base64_char first /\ Forall base64_char second).
Proof.
  split; [|split].
  - intros H. unfold GenerateX25519KeyPair, rand_Read. rewrite H. reflexivity.
  - apply GenerateX25519KeyPair_no_panic.
  - intros first second H.
    assert (rand_fails w 0 = false) as Hf.
    { destruct (rand_fails w 0) eqn:E; [|reflexivity].
      unfold GenerateX25519KeyPair, rand_Read in H. rewrite E in H. discriminate. }
    split; [exact Hf|].
    destruct (GenerateX25519KeyPair_Ok w first second H) as [-> ->].
    destruct (EncodeToString_shape (clamp (map (rand_stream w) (seq 0 32))))
      as [S1 L1].
    destruct (EncodeToString_shape
                (curve25519.scalarMult (clamp (map (rand_stream w) (seq 0 32)))
                   curve25519.Basepoint)) as [S2 L2].
    rewrite L1, L2, scalarMult_length, clamp_length.
    repeat split; assumption.
Qed.

Lemma keypair_texts_witness :
  rand_fails world_rand_fails 0 = true
  /\ GenerateX25519KeyPair world_rand_fails
     = Err (ErrWrap (lit "failed to generate private key: ")
              (ErrLib rand_error))
  /\ List.length sample_private = 44%nat.
Proof.
  split; [reflexivity|]. split.
  - apply (proj1 (keypair_texts world_rand_fails)). reflexivity.
  - exact (proj1 (proj2 (proj2 (proj2 (keypair_texts world_ok)) _ _
                           (sample_world_keypair _ _ _)))).
Defined.

Lemma byte_and_248_twice (c : ascii) :
  byte_and 248 (byte_and 248 c) = byte_and 248 c.
Proof.
  destruct c as [b0 b1 b2 b3 b4 b5 b6 b7].
  destruct b0, b1, b2, b3, b4, b5, b6, b7; reflexivity.
Qed.

Lemma clamp_last_twice (c : ascii) :
  byte_or 64 (byte_and 127 (byte_or 64 (byte_and 127 c)))
  = byte_or 64 (byte_and 127 c).
Proof.
  destruct c as [b0 b1 b2 b3 b4 b5 b6 b7].
  destruct b0, b1, b2, b3, b4, b5, b6, b7; reflexivity.
Qed.

Lemma clamp_twice (w : World) :
  clamp (clamp (map (rand_stream w) (seq 0 32)))
  = clamp (map (rand_stream w) (seq 0 32)).
Proof.
  cbn [seq map]. unfold clamp, modify. cbn [firstn skipn app].
  rewrite byte_and_248_twice, clamp_last_twice. reflexivity.
Qed.

(** X12.  The private key of a pair is a fixed point of the generator's
    clamping: a run whose random source gives the bytes of that private
    key produces the same pair again. *)
Theorem keypair_rederives (w w' : World) :
  rand_fails w 0 = false -> rand_fails w' 0 = false ->
  map (rand_stream w') (seq 0 32) = clamp (map (rand_stream w) (seq 0 32)) ->
  GenerateX25519KeyPair w' = GenerateX25519KeyPair w.
Proof.
  intros H H' E.
  rewrite (GenerateX25519KeyPair_eq w H), (GenerateX25519KeyPair_eq w' H').
  rewrite E, clamp_twice. reflexivity.
Qed.

Lemma keypair_rederives_witness :
  GenerateX25519KeyPair world_clamped_seed = GenerateX25519KeyPair world_ok.
Proof.
  apply (keypair_rederives world_ok world_clamped_seed); reflexivity.
Defined.

(** ** Bytes and bit operations as arithmetic *)

Lemma byte_val_range (c : ascii) : 0 <= byte_val c < 256.
Proof.
  unfold byte_val. pose proof (N_ascii_bounded c). lia.
Qed.

Lemma byte_of_val (c : ascii) : byte_of (byte_val c) = c.
Proof.
  unfold byte_of. rewrite Z.mod_small by apply byte_val_range.
  unfold byte_val. rewrite N2Z.id. apply ascii_N_embedding.
Qed.

Lemma byte_val_of (z : Z) : byte_val (byte_of z) = z mod 256.
Proof.
  unfold byte_val, byte_of.
  pose proof (Z.mod_pos_bound z 256 eq_refl) as H.
  rewrite N_ascii_embedding by lia. apply Z2N.id. lia.
Qed.

Lemma byte_of_eq (z : Z) (c : ascii) : z mod 256 = byte_val c -> byte_of z = c.
Proof.
  intros H. rewrite <- (byte_of_val c). unfold byte_of. rewrite H.
  rewrite Z.mod_small by apply byte_val_range. reflexivity.
Qed.

(** A shifted number and a number below the shift have no bit in common:
    their [lor] is their sum. *)
Lemma lor_shift_add (x y k : Z) :
  0 <= k -> 0 <= y < 2 ^ k -> Z.lor (Z.shiftl x k) y = x * 2 ^ k + y.
Proof.
  intros Hk Hy.
  assert (Z.land (Z.shiftl x k) y = 0) as D.
  { apply Z.bits_inj'. intros n Hn. rewrite Z.land_spec, Z.bits_0.
    destruct (Z.lt_ge_cases n k) as [L | G].
    - rewrite Z.shiftl_spec_low by exact L. reflexivity.
    - rewrite <- (Z.mod_small y (2 ^ k)) by exact Hy.
      rewrite Z.mod_pow2_bits_high by lia. apply andb_false_r. }
  rewrite <- (Z.lxor_lor _ _ D), <- (Z.add_nocarry_lxor _ _ D).
  rewrite Z.shiftl_mul_pow2 by exact Hk. reflexivity.
Qed.

Lemma land_63 (x : Z) : Z.land x 63 = x mod 64.
Proof. change 63 with (Z.ones 6). rewrite Z.land_ones by lia. reflexivity. Qed.

Lemma quantum_sum (v0 v1 v2 v3 : Z) :
  0 <= v1 < 64 -> 0 <= v2 < 64 -> 0 <= v3 < 64 ->
  base64.quantum v0 v1 v2 v3 = v0 * 262144 + v1 * 4096 + v2 * 64 + v3.
Proof.
  intros H1 H2 H3. unfold base64.quantum.
  rewrite (lor_shift_add v2 v3 6) by lia.
  rewrite (lor_shift_add v1 _ 12) by lia.
  rewrite (lor_shift_add v0 _ 18) by lia.
  change (2 ^ 6) with 64. change (2 ^ 12) with 4096.
  change (2 ^ 18) with 262144. lia.
Qed.

Lemma pack_three (a b c : ascii) :
  Z.lor (Z.shiftl (byte_val a) 16) (Z.lor (Z.shiftl (byte_val b) 8) (byte_val c))
  = byte_val a * 65536 + byte_val b * 256 + byte_val c.
Proof.
  pose proof (byte_val_range a). pose proof (byte_val_range b).
  pose proof (byte_val_range c).
  rewrite (lor_shift_add (byte_val b) (byte_val c) 8) by lia.
  rewrite (lor_shift_add (byte_val a) _ 16) by lia.
  change (2 ^ 8) with 256. change (2 ^ 16) with 65536. lia.
Qed.

Lemma pack_two (a b : ascii) :
  Z.lor (Z.shiftl (byte_val a) 16) (Z.shiftl (byte_val b) 8)
  = byte_val a * 65536 + byte_val b * 256.
Proof.
  pose proof (byte_val_range a). pose proof (byte_val_range b).
  rewrite (Z.shiftl_mul_pow2 (byte_val b)) by lia.
  rewrite (lor_shift_add (byte_val a) _ 16) by lia.
  change (2 ^ 8) with 256. change (2 ^ 16) with 65536. lia.
Qed.

Ltac to_arith :=
  repeat rewrite land_63;
  repeat (rewrite Z.shiftr_div_pow2 by lia);
  change (2 ^ 18) with 262144; change (2 ^ 16) with 65536;
  change (2 ^ 12) with 4096; change (2 ^ 8) with 256; change (2 ^ 6) with 64.

(** Three bytes, their four sextets, and back. *)
Lemma sextets_three (a b c : ascii) :
  let v := Z.lor (Z.shiftl (byte_val a) 16)
             (Z.lor (Z.shiftl (byte_val b) 8) (byte_val c)) in
  let q := base64.quantum (Z.land (Z.shiftr v 18) 63) (Z.land (Z.shiftr v 12) 63)
             (Z.land (Z.shiftr v 6) 63) (Z.land v 63) in
  byte_of (Z.shiftr q 16) = a /\ byte_of (Z.shiftr q 8) = b /\ byte_of q = c.
Proof.
  intros v q. unfold q, v. rewrite pack_three.
  pose proof (byte_val_range a). pose proof (byte_val_range b).
  pose proof (byte_val_range c).
  set (x := byte_val a * 65536 + byte_val b * 256 + byte_val c).
  assert (0 <= x < 16777216) as Hx by (unfold x; lia).
  to_arith.
  rewrite quantum_sum by (apply Z.mod_pos_bound; reflexivity).
  assert ((x / 262144) mod 64 * 262144 + (x / 4096) mod 64 * 4096
          + (x / 64) mod 64 * 64 + x mod 64 = x) as E
    by (Z.div_mod_to_equations; lia).
  rewrite E. to_arith.
  repeat split; apply byte_of_eq; unfold x; Z.div_mod_to_equations; lia.
Qed.

Lemma sextets_two (a b : ascii) :
  let v := Z.lor (Z.shiftl (byte_val a) 16) (Z.shiftl (byte_val b) 8) in
  let q := base64.quantum (Z.land (Z.shiftr v 18) 63) (Z.land (Z.shiftr v 12) 63)
             (Z.land (Z.shiftr v 6) 63) 0 in
  byte_of (Z.shiftr q 16) = a /\ byte_of (Z.shiftr q 8) = b.
Proof.
  intros v q. unfold q, v. rewrite pack_two.
  pose proof (byte_val_range a). pose proof (byte_val_range b).
  set (x := byte_val a * 65536 + byte_val b * 256).
  assert (0 <= x < 16777216) as Hx by (unfold x; lia).
  to_arith.
  rewrite quantum_sum by (try (apply Z.mod_pos_bound; reflexivity); lia).
  to_arith.
  split; apply byte_of_eq; unfold x; Z.div_mod_to_equations; lia.
Qed.

Lemma sextets_one (a : ascii) :
  let v := Z.shiftl (byte_val a) 16 in
  let q := base64.quantum (Z.land (Z.shiftr v 18) 63) (Z.land (Z.shiftr v 12) 63)
             0 0 in
  byte_of (Z.shiftr q 16) = a.
Proof.
  intros v q. unfold q, v.
  pose proof (byte_val_range a).
  rewrite (Z.shiftl_mul_pow2 (byte_val a)) by lia.
  to_arith.
  rewrite quantum_sum by (try (apply Z.mod_pos_bound; reflexivity); lia).
  to_arith.
  apply byte_of_eq. Z.div_mod_to_equations; lia.
Qed.

(** ** encoding/base64: decoding what was encoded *)

Section Base64RoundTrip.

Variable alphabet : gostring.
Hypothesis alphabet_length : List.length alphabet = 64%nat.
Hypothesis alphabet_decodes :
  forallb (fun i => match base64.decodeMap alphabet
                            (base64.encodeChar alphabet (Z.of_nat i)) with
                    | Some v => v =? Z.of_nat i
                    | None => false
                    end) (seq 0 64) = true.
Hypothesis alphabet_plain :
  forallb (fun c => negb (base64.is_newline c)) alphabet = true.
Hypothesis pad_outside : base64.decodeMap alphabet base64.padChar = None.

Lemma decode_encodeChar (v : Z) :
  0 <= v < 64 ->
  base64.decodeMap alphabet (base64.encodeChar alphabet v) = Some v.
Proof.
  intros H. pose proof alphabet_decodes as A.
  rewrite forallb_forall in A.
  specialize (A (Z.to_nat v)). rewrite Z2Nat.id in A by lia.
  assert (In (Z.to_nat v) (seq 0 64)) as Hin by (apply in_seq; lia).
  specialize (A Hin).
  destruct (base64.decodeMap alphabet (base64.encodeChar alphabet v));
    [|discriminate].
  apply Z.eqb_eq in A. congruence.
Qed.

Lemma encodeChar_plain (v : Z) :
  0 <= v < 64 -> base64.is_newline (base64.encodeChar alphabet v) = false.
Proof.
  intros H. pose proof alphabet_plain as A. rewrite forallb_forall in A.
  apply negb_true_iff. apply A. unfold base64.encodeChar. apply nth_In.
  rewrite alphabet_length. lia.
Qed.

Lemma decodeQuanta_full (c0 c1 c2 c3 : ascii) (rest : gostring)
  (v0 v1 v2 v3 : Z) :
  base64.decodeMap alphabet c0 = Some v0 ->
  base64.decodeMap alphabet c1 = Some v1 ->
  base64.decodeMap alphabet c2 = Some v2 ->
  base64.decodeMap alphabet c3 = Some v3 ->
  base64.decodeQuanta alphabet (c0 :: c1 :: c2 :: c3 :: rest) =
  match base64.decodeQuanta alphabet rest with
  | Some out =>
    Some (byte_of (Z.shiftr (base64.quantum v0 v1 v2 v3) 16)
            :: byte_of (Z.shiftr (base64.quantum v0 v1 v2 v3) 8)
            :: byte_of (base64.quantum v0 v1 v2 v3) :: out)
  | None => None
  end.
Proof.
  intros H0 H1 H2 H3. cbn [base64.decodeQuanta].
  rewrite H0, H1, H2, H3. reflexivity.
Qed.

Lemma decodeQuanta_encode (src : gostring) :
  base64.decodeQuanta alphabet (base64.EncodeToString alphabet src) = Some src.
Proof.
  assert (forall n src, (List.length src < n)%nat ->
            base64.decodeQuanta alphabet (base64.EncodeToString alphabet src)
            = Some src) as G.
  { clear src. induction n as [|n IH]; intros src Hn; [lia|].
    destruct src as [|a [|b [|c rest]]].
    - reflexivity.
    - cbn [base64.EncodeToString base64.decodeQuanta].
      rewrite !decode_encodeChar by apply land_63_range.
      rewrite pad_outside, ascii_eqb_refl. cbn [andb].
      rewrite (sextets_one a). reflexivity.
    - cbn [base64.EncodeToString base64.decodeQuanta].
      rewrite !decode_encodeChar by apply land_63_range.
      rewrite pad_outside, ascii_eqb_refl. cbn [andb].
      destruct (sextets_two a b) as [E1 E2]. rewrite E1, E2. reflexivity.
    - cbn [base64.EncodeToString].
      rewrite (decodeQuanta_full _ _ _ _ _ _ _ _ _
                 (decode_encodeChar _ (land_63_range _))
                 (decode_encodeChar _ (land_63_range _))
                 (decode_encodeChar _ (land_63_range _))
                 (decode_encodeChar _ (land_63_range _))).
      rewrite IH by (cbn [List.length] in Hn; lia).
      destruct (sextets_three a b c) as [E1 [E2 E3]].
      rewrite E1, E2, E3. reflexivity. }
  apply (G (S (List.length src))). lia.
Qed.

Lemma EncodeToString_plain (src : gostring) :
  filter (fun c => negb (base64.is_newline c))
    (base64.EncodeToString alphabet src)
  = base64.EncodeToString alphabet src.
Proof.
  assert (forall n src, (List.length src < n)%nat ->
            filter (fun c => negb (base64.is_newline c))
              (base64.EncodeToString alphabet src)
            = base64.EncodeToString alphabet src) as G.
  { clear src. induction n as [|n IH]; intros src Hn; [lia|].
    destruct src as [|a [|b [|c rest]]].
    - reflexivity.
    - cbn [base64.EncodeToString filter].
      rewrite !encodeChar_plain by apply land_63_range. reflexivity.
    - cbn [base64.EncodeToString filter].
      rewrite !encodeChar_plain by apply land_63_range. reflexivity.
    - cbn [base64.EncodeToString filter].
      rewrite !encodeChar_plain by apply land_63_range. cbn [negb].
      rewrite IH by (cbn [List.length] in Hn; lia). reflexivity. }
  apply (G (S (List.length src))). lia.
Qed.

Lemma DecodeString_encode (src : gostring) :
  base64.DecodeString alphabet (base64.EncodeToString alphabet src) = Ok src.
Proof.
  unfold base64.DecodeString.
  rewrite EncodeToString_plain, decodeQuanta_encode. reflexivity.
Qed.

End Base64RoundTrip.

Lemma DecodeString_encode_Std (src : gostring) :
  base64.DecodeString base64.encodeStd
    (base64.EncodeToString base64.encodeStd src) = Ok src.
Proof. apply DecodeString_encode; vm_compute; reflexivity. Qed.

Lemma DecodeString_encode_URL (src : gostring) :
  base64.DecodeString base64.encodeURL
    (base64.EncodeToString base64.encodeURL src) = Ok src.
Proof. apply DecodeString_encode; vm_compute; reflexivity. Qed.

(** X13.  The two texts of a pair decode, as standard base64, to the 32
    bytes they stand for: the clamped private key and its X25519 public
    key. *)
Theorem keypair_texts_decode (w : World) (first second : gostring) :
  GenerateX25519KeyPair w = Ok (first, second) ->
  let privateKey := clamp (map (rand_stream w) (seq 0 32)) in
  base64.DecodeString base64.encodeStd first = Ok privateKey
  /\ base64.DecodeString base64.encodeStd second
     = Ok (curve25519.scalarMult privateKey curve25519.Basepoint)
  /\ List.length privateKey = 32%nat
  /\ List.length (curve25519.scalarMult privateKey curve25519.Basepoint)
     = 32%nat.
Proof.
  intros H privateKey.
  destruct (GenerateX25519KeyPair_Ok w first second H) as [-> ->].
  fold privateKey. rewrite !DecodeString_encode_Std.
  split; [reflexivity|]. split; [reflexivity|].
  split; [apply clamp_length | apply scalarMult_length].
Qed.

Lemma keypair_texts_decode_witness :
  GenerateX25519KeyPair world_ok = Ok (sample_private, sample_public)
  /\ base64.DecodeString base64.encodeStd sample_private
     = Ok (clamp (map (rand_stream world_ok) (seq 0 32))).
Proof.
  split; [apply sample_world_keypair|].
  exact (proj1 (keypair_texts_decode world_ok sample_private sample_public
                  (sample_world_keypair _ _ _))).
Defined.

(** ** compress/flate and compress/zlib on a stored block *)

Lemma read_bits_byte (c : ascii) (rest : list bool) (u : nat) :
  flate.read_bits 8 {| flate.avail := flate.bits_of_byte c ++ rest;
                       flate.used := u |}
  = Some (byte_val c, {| flate.avail := rest; flate.used := 8 + u |}).
Proof. destruct c as [[] [] [] [] [] [] [] []]; reflexivity. Qed.

Lemma read_bits_plus (n m : nat) (r : flate.reader) :
  flate.read_bits (n + m) r =
  match flate.read_bits n r with
  | None => None
  | Some (v, r1) =>
    match flate.read_bits m r1 with
    | None => None
    | Some (v', r2) => Some (v + 2 ^ Z.of_nat n * v', r2)
    end
  end.
Proof.
  revert r. induction n as [|n IH]; intros r.
  - cbn [Nat.add flate.read_bits].
    destruct (flate.read_bits m r) as [[v' r2]|]; [|reflexivity].
    f_equal. f_equal. change (2 ^ Z.of_nat 0) with 1. lia.
  - cbn [Nat.add flate.read_bits].
    destruct (flate.read_bit r) as [[b r1]|]; [|reflexivity].
    rewrite IH.
    destruct (flate.read_bits n r1) as [[v r2]|]; [|reflexivity].
    destruct (flate.read_bits m r2) as [[v' r3]|]; [|reflexivity].
    f_equal. f_equal. rewrite Nat2Z.inj_succ, Z.pow_succ_r by lia. lia.
Qed.

Lemma read_bits_two_bytes (c1 c2 : ascii) (rest : list bool) (u : nat) :
  flate.read_bits (8 + 8)
    {| flate.avail := flate.bits_of_byte c1 ++ flate.bits_of_byte c2 ++ rest;
       flate.used := u |}
  = Some (byte_val c1 + 256 * byte_val c2,
          {| flate.avail := rest; flate.used := 8 + (8 + u) |}).
Proof.
  rewrite read_bits_plus, read_bits_byte, read_bits_byte. reflexivity.
Qed.

Lemma read_bytes_flat (p : gostring) (rest : list bool) (u : nat) :
  flate.read_bytes (List.length p)
    {| flate.avail := flat_map flate.bits_of_byte p ++ rest; flate.used := u |}
  = Some (p, {| flate.avail := rest;
                flate.used := 8 * List.length p + u |}).
Proof.
  revert u. induction p as [|c p IH]; intros u; [reflexivity|].
  cbn [List.length flate.read_bytes flat_map].
  rewrite <- app_assoc, read_bits_byte, IH, byte_of_val.
  f_equal. f_equal. f_equal. lia.
Qed.

Lemma lxor_65535_range (n : Z) : 0 <= n < 65536 -> 0 <= Z.lxor n 65535 < 65536.
Proof.
  intros H. assert (0 <= Z.lxor n 65535) as P by (apply Z.lxor_nonneg; lia).
  split; [exact P|].
  destruct (Z.eq_dec (Z.lxor n 65535) 0) as [E | E]; [lia|].
  change 65536 with (2 ^ 16). apply Z.log2_lt_pow2; [lia|].
  pose proof (Z.log2_lxor n 65535) as L.
  assert (Z.log2 n < 16) as Ln.
  { destruct (Z.eq_dec n 0) as [-> | Nz]; [reflexivity|].
    apply Z.log2_lt_pow2; [lia|]. change (2 ^ 16) with 65536. lia. }
  change (Z.log2 65535) with 15 in L. lia.
Qed.

Lemma uint16_le_val (n : Z) :
  0 <= n < 65536 ->
  byte_val (byte_of n) + 256 * byte_val (byte_of (Z.shiftr n 8)) = n.
Proof.
  intros H. rewrite !byte_val_of, Z.shiftr_div_pow2 by lia.
  change (2 ^ 8) with 256. Z.div_mod_to_equations. lia.
Qed.

Lemma Uint32_be (n : Z) :
  0 <= n < 4294967296 -> zlib.Uint32 (uint32_be n) = n.
Proof.
  intros H. unfold zlib.Uint32, uint32_be. cbn [fold_left].
  rewrite !byte_val_of, !Z.shiftr_div_pow2 by lia.
  change (2 ^ 24) with 16777216. change (2 ^ 16) with 65536.
  change (2 ^ 8) with 256. Z.div_mod_to_equations. lia.
Qed.

Lemma adler32_state_range (p : gostring) (st : Z * Z) :
  0 <= fst (fold_left adler32.step p st) < 65521
  /\ 0 <= snd (fold_left adler32.step p st) < 65521
  \/ p = [].
Proof.
  revert st. induction p as [|c p IH]; intros st; [right; reflexivity|].
  left. cbn [fold_left].
  destruct (IH (adler32.step st c)) as [R | ->]; [exact R|].
  cbn [fold_left]. unfold adler32.step. cbn [fst snd].
  split; apply Z.mod_pos_bound; reflexivity.
Qed.

Lemma Checksum_range (p : gostring) : 0 <= adler32.Checksum p < 4294967296.
Proof.
  unfold adler32.Checksum.
  destruct (adler32_state_range p (1, 0)) as [[A B] | ->];
    [|split; [discriminate | reflexivity]].
  rewrite lor_shift_add by (change (2 ^ 16) with 65536; lia).
  change (2 ^ 16) with 65536. lia.
Qed.

Lemma NewReader_stored (rest : gostring) :
  zlib.NewReader ("x"%char :: "001"%char :: rest) = Ok rest.
Proof. reflexivity. Qed.

Lemma nextBlock_stored_head (fuel : nat) (j1 j2 j3 j4 j5 : bool)
  (bits : list bool) (out : gostring) :
  flate.nextBlock (S fuel)
    {| flate.avail := true :: false :: false :: j1 :: j2 :: j3 :: j4 :: j5
                        :: bits;
       flate.used := 0 |} out
  = flate.dataBlock
      {| flate.avail := j1 :: j2 :: j3 :: j4 :: j5 :: bits; flate.used := 3 |}
      out.
Proof.
  cbn [flate.nextBlock].
  change (flate.read_bits 1 _)
    with (Some (1, {| flate.avail := false :: false :: j1 :: j2 :: j3 :: j4
                                      :: j5 :: bits;
                      flate.used := 1 |})).
  cbv iota beta.
  change (flate.read_bits 2 _)
    with (Some (0, {| flate.avail := j1 :: j2 :: j3 :: j4 :: j5 :: bits;
                      flate.used := 3 |})).
  cbv iota beta. change (0 =? 0) with true. change (1 =? 1) with true.
  cbv iota beta.
  destruct (flate.dataBlock _ out) as [[out' r']|]; reflexivity.
Qed.

Lemma dataBlock_stored (j1 j2 j3 j4 j5 : bool) (lo hi nlo nhi : ascii)
  (p : gostring) (rest : list bool) (out : gostring) :
  byte_val lo + 256 * byte_val hi = Z.of_nat (List.length p) ->
  byte_val nlo + 256 * byte_val nhi
  = Z.lxor (Z.of_nat (List.length p)) 65535 ->
  flate.dataBlock
    {| flate.avail :=
         j1 :: j2 :: j3 :: j4 :: j5
           :: flate.bits_of_byte lo ++ flate.bits_of_byte hi
           ++ flate.bits_of_byte nlo ++ flate.bits_of_byte nhi
           ++ flat_map flate.bits_of_byte p ++ rest;
       flate.used := 3 |} out
  = Some (rev p ++ out,
          {| flate.avail := rest;
             flate.used := 8 * List.length p + 40 |}).
Proof.
  intros Hn Hnn. unfold flate.dataBlock.
  change (flate.align _)
    with {| flate.avail :=
              flate.bits_of_byte lo ++ flate.bits_of_byte hi
                ++ flate.bits_of_byte nlo ++ flate.bits_of_byte nhi
                ++ flat_map flate.bits_of_byte p ++ rest;
            flate.used := 8 |}.
  change 16%nat with (8 + 8)%nat.
  rewrite read_bits_two_bytes, read_bits_two_bytes, Hn, Hnn, Z.eqb_refl.
  rewrite Nat2Z.id, read_bytes_flat. reflexivity.
Qed.

Lemma flate_ReadAll_stored (payload trailer : gostring) :
  Z.of_nat (List.length payload) < 65536 ->
  flate.ReadAll (stored_block payload ++ trailer)
  = Some (payload, (5 + List.length payload)%nat).
Proof.
  intros Hlen. unfold flate.ReadAll, flate.NewReader, stored_block, uint16_le.
  cbn [app flat_map flate.avail].
  rewrite !flat_map_app.
  change (flate.bits_of_byte "001"%char)
    with [true; false; false; false; false; false; false; false].
  cbn [app].
  rewrite nextBlock_stored_head.
  rewrite (dataBlock_stored _ _ _ _ _ _ _ _ _ payload).
  - cbn [flate.used]. rewrite app_nil_r, rev_involutive.
    f_equal. f_equal.
    replace (8 * List.length payload + 40 + 7)%nat
      with ((5 + List.length payload) * 8 + 7)%nat by lia.
    rewrite Nat.div_add_l by lia. change (7 / 8)%nat with 0%nat. lia.
  - apply uint16_le_val. lia.
  - apply uint16_le_val. apply lxor_65535_range. lia.
Qed.

Lemma zlib_ReadAll_stored (payload : gostring) :
  Z.of_nat (List.length payload) < 65536 ->
  zlib.ReadAll (stored_block payload ++ uint32_be (adler32.Checksum payload))
  = Ok payload.
Proof.
  intros Hlen. unfold zlib.ReadAll.
  rewrite flate_ReadAll_stored by exact Hlen.
  unfold stored_block, uint16_le. cbn [app Nat.add skipn].
  rewrite skipn_app, skipn_all, Nat.sub_diag. cbn [app skipn].
  unfold uint32_be at 1. cbv iota beta.
  change (zlib.Uint32 _)
    with (zlib.Uint32 (uint32_be (adler32.Checksum payload))).
  rewrite Uint32_be by apply Checksum_range.
  rewrite Z.eqb_refl. reflexivity.
Qed.

(** ** decode on a link with a stored payload *)

Lemma Index_without_char (c : ascii) (s p : gostring) :
  In c p -> ~ In c s -> strings.Index s p = -1.
Proof.
  intros Hp. induction s as [|d s IH]; intros Hs.
  - rewrite Index_nil. destruct (strings.HasPrefix [] p) eqn:E; [|reflexivity].
    exfalso. apply Hs. exact (HasPrefix_In p [] c E Hp).
  - apply Index_none_cons. split.
    + destruct (strings.HasPrefix (d :: s) p) eqn:E; [|reflexivity].
      exfalso. apply Hs. exact (HasPrefix_In p (d :: s) c E Hp).
    + apply IH. intros H. apply Hs. right. exact H.
Qed.

Lemma EncodeToString_URL_chars (src : gostring) :
  Forall (fun c => In c base64.encodeURL \/ c = base64.padChar)
    (base64.EncodeToString base64.encodeURL src).
Proof.
  assert (forall v, In (base64.encodeChar base64.encodeURL (Z.land v 63))
                      base64.encodeURL) as A.
  { intros v. unfold base64.encodeChar. apply nth_In.
    pose proof (land_63_range v).
    change (List.length base64.encodeURL) with 64%nat. lia. }
  assert (forall n src, (List.length src < n)%nat ->
            Forall (fun c => In c base64.encodeURL \/ c = base64.padChar)
              (base64.EncodeToString base64.encodeURL src)) as G.
  { clear src. induction n as [|n IH]; intros src Hn; [lia|].
    destruct src as [|a [|b [|c rest]]]; cbn [base64.EncodeToString].
    - constructor.
    - repeat (apply Forall_cons; [first [left; apply A | right; reflexivity]|]).
      constructor.
    - repeat (apply Forall_cons; [first [left; apply A | right; reflexivity]|]).
      constructor.
    - repeat (apply Forall_cons; [left; apply A|]).
      apply IH. cbn [List.length] in Hn. lia. }
  apply (G (S (List.length src))). lia.
Qed.

Lemma encoded_without_marker (src : gostring) :
  strings.Index (base64.EncodeToString base64.encodeURL src) scheme_marker
  = -1.
Proof.
  apply (Index_without_char ":"%char).
  - unfold scheme_marker. simpl. tauto.
  - intros H. pose proof (EncodeToString_URL_chars src) as F.
    rewrite Forall_forall in F. destruct (F _ H) as [I | E].
    + simpl in I.
      repeat (destruct I as [I | I]; [discriminate I|]). exact I.
    + discriminate E.
Qed.

Lemma decode_payload_stored (header payload : gostring) :
  List.length header = 4%nat ->
  Z.of_nat (List.length payload) < 65536 ->
  decode_payload (stored_link header payload) = Ok payload.
Proof.
  intros Hh Hp. unfold decode_payload, stored_link.
  rewrite DecodeString_encode_URL. cbn [wrap bind].
  rewrite slice_from_long by (rewrite length_app; lia).
  rewrite skipn_app, skipn_all2, Hh by lia. cbn [bind app Nat.sub skipn].
  unfold stored_stream. rewrite NewReader_stored. cbn [wrap bind].
  rewrite zlib_ReadAll_stored by exact Hp. reflexivity.
Qed.

(** X14.  [decode] reads back what the link format describes.  A link made
    of any four header bytes followed by a zlib stream that stores the
    payload (fewer than 65536 bytes) decodes to that payload, with the
    scheme marker in front of it or without: the four header bytes are not
    looked at. *)
Theorem decode_stored_link (header payload : gostring) :
  List.length header = 4%nat ->
  Z.of_nat (List.length payload) < 65536 ->
  decode (stored_link header payload) = Ok payload
  /\ decode (scheme_marker ++ stored_link header payload) = Ok payload.
Proof.
  intros Hh Hp.
  assert (scheme_marker <> []) as Hm by discriminate.
  destruct scheme_marker_shape as [Es Hv].
  split; rewrite decode_eq, (Replace_all _ _ Hm) by lia.
  - rewrite (replaceAll_none _ _ Hm) by apply encoded_without_marker.
    apply decode_payload_stored; assumption.
  - change (scheme_marker ++ stored_link header payload)
      with ([] ++ scheme_marker ++ stored_link header payload).
    rewrite (replaceAll_app_first _ _ Hm _ _ [] _ Es Hv)
      by (apply Index_none_nonempty; exact Hm).
    cbn [app]. rewrite (replaceAll_none _ _ Hm) by apply encoded_without_marker.
    apply decode_payload_stored; assumption.
Qed.

Lemma decode_stored_link_witness :
  decode (stored_link (lit "abcd") (lit "{}")) = Ok (lit "{}")
  /\ decode (scheme_marker ++ stored_link (lit "abcd") (lit "{}"))
     = Ok (lit "{}").
Proof.
  apply (decode_stored_link (lit "abcd") (lit "{}")).
  - reflexivity.
  - simpl. lia.
Defined.
